(** * VectraEdge: the Python client, its command-line tool and the
    performance-test harness

    A shallow embedding of [python/vectra/client.py],
    [scripts/performance_test.py] and [python/vectra/cli.py].

    Conventions of the embedding.
    - Python values are the inductive [pyval]; a [dict] is an association
      list in insertion order whose keys are strings (every dictionary of the
      files is keyed by strings).
    - A Python [float] is an exact rational ([Q]); rounding is not modelled,
      and two fractions of the same number are the same float.
    - A Python [str] is a [string] whose characters are code points below 256.
    - Everything outside the client and the harness (the [requests] library,
      the native bindings, the wall clock, the file system, the thread
      scheduler) is a field of the record [world]; an oracle is indexed by
      the number of interactions made so far, so that it may answer
      differently each time.  What only the command-line tool meets (the help
      text of [argparse], [json.loads], the [health_check] of the package,
      the standard input) is a field of the record [cli.environment].
    - Effectful code lives in the monad [M]: a reader of the world, a state
      (the events observed so far and the results the harness holds), and
      Python exceptions.  The command-line tool returns, with its exit
      status, the lines it wrote to the standard error. *)

From Stdlib Require Import ZArith QArith String Ascii List Bool Lia Lqa.
From Stdlib Require Import DecimalString DecimalZ.
Import ListNotations.

Open Scope string_scope.
Open Scope Z_scope.

(* ================================================================== *)
(** * Python values, dictionaries and exceptions *)

Module Py.

#[local] Set Warnings "-register-all".

Inductive pyval : Type :=
| PNone
| PBool (b : bool)
| PInt (z : Z)
| PFloat (q : Q)
| PStr (s : string)
| PList (l : list pyval)
| PDict (d : list (string * pyval)).

#[local] Set Warnings "+register-all".

Definition py_dict : Type := list (string * pyval).

(** Truth value testing, as used by [or], [and], [if] and [not]. *)
Definition truthy (v : pyval) : bool :=
  match v with
  | PNone => false
  | PBool b => b
  | PInt z => negb (z =? 0)
  | PFloat q => negb (Qeq_bool q 0)
  | PStr s => negb (String.eqb s "")
  | PList l => match l with [] => false | _ => true end
  | PDict d => match d with [] => false | _ => true end
  end.

(** [a or b] *)
Definition py_or (a b : pyval) : pyval := if truthy a then a else b.

(** [d[k]] as an option, and [d.get(k, default)]. *)
Fixpoint dict_get (d : py_dict) (k : string) : option pyval :=
  match d with
  | [] => None
  | (k', v) :: d' => if String.eqb k k' then Some v else dict_get d' k
  end.

Definition dict_get_default (d : py_dict) (k : string) (default : pyval) : pyval :=
  match dict_get d k with
  | Some v => v
  | None => default
  end.

(** [d[k] = v]: a present key keeps its position and takes the new value,
    a new key goes last. *)
Fixpoint dict_set (d : py_dict) (k : string) (v : pyval) : py_dict :=
  match d with
  | [] => [(k, v)]
  | (k', v') :: d' =>
      if String.eqb k k' then (k', v) :: d' else (k', v') :: dict_set d' k v
  end.

Definition dict_keys (d : py_dict) : list string := map fst d.

(** [str(z)] for an [int]. *)
Definition str_of_int (z : Z) : string := NilZero.string_of_int (Z.to_int z).

(** [s * n] *)
Fixpoint str_repeat (s : string) (n : nat) : string :=
  match n with
  | O => ""
  | S n' => s ++ str_repeat s n'
  end.

Definition str_mul (s : string) (n : Z) : string := str_repeat s (Z.to_nat n).

(** [range(n)] *)
Definition range (n : Z) : list Z := map Z.of_nat (seq 0 (Z.to_nat n)).

(** [enumerate(l)] *)
Definition enumerate {A : Type} (l : list A) : list (Z * A) :=
  combine (range (Z.of_nat (length l))) l.

(** [type(v).__name__] *)
Definition type_name (v : pyval) : string :=
  match v with
  | PNone => "NoneType"
  | PBool _ => "bool"
  | PInt _ => "int"
  | PFloat _ => "float"
  | PStr _ => "str"
  | PList _ => "list"
  | PDict _ => "dict"
  end.

(** The exception classes the files can meet.  [RequestException] and
    its three subclasses are those of [requests.exceptions]. *)
Inductive exn_class : Type :=
| KeyboardInterrupt
| SystemExit
| RuntimeError
| TypeError
| ValueError
| AttributeError
| ZeroDivisionError
| OSError
| ImportError
| KeyError
| OtherException
| RequestException
| ConnectionError
| Timeout
| HTTPError.

Record exn : Type := mk_exn { exn_cls : exn_class; exn_msg : string }.

(** [isinstance(e, Exception)]: everything but the two that derive from
    [BaseException] directly. *)
Definition is_Exception (e : exn) : bool :=
  match exn_cls e with
  | KeyboardInterrupt | SystemExit => false
  | _ => true
  end.

Definition is_KeyboardInterrupt (e : exn) : bool :=
  match exn_cls e with
  | KeyboardInterrupt => true
  | _ => false
  end.

(** [isinstance(e, requests.exceptions.RequestException)] *)
Definition is_RequestException (e : exn) : bool :=
  match exn_cls e with
  | RequestException | ConnectionError | Timeout | HTTPError => true
  | _ => false
  end.

(** The outcome of a call: a value or a raised exception. *)
Inductive result (A : Type) : Type :=
| Ok (a : A)
| Raise (e : exn).

Arguments Ok {A} a.
Arguments Raise {A} e.

Definition raised {A : Type} (r : result A) : bool :=
  match r with Ok _ => false | Raise _ => true end.

(** Substring test, [needle in s]. *)
Fixpoint is_prefix (p s : string) : bool :=
  match p, s with
  | EmptyString, _ => true
  | String a p', String b s' => Ascii.eqb a b && is_prefix p' s'
  | String _ _, EmptyString => false
  end.

Fixpoint contains (needle s : string) : bool :=
  is_prefix needle s ||
  match s with
  | EmptyString => false
  | String _ s' => contains needle s'
  end.

(** Arithmetic on floats. *)
Definition Qsum (l : list Q) : Q := fold_left Qplus l 0%Q.

(** [statistics.mean] of a non-empty list. *)
Definition mean (l : list Q) : Q := (Qsum l / inject_Z (Z.of_nat (length l)))%Q.

Definition Qmin2 (a b : Q) : Q := if Qle_bool a b then a else b.
Definition Qmax2 (a b : Q) : Q := if Qle_bool a b then b else a.

(** [min(l)] and [max(l)] of a list whose first element is [x]. *)
Definition py_min (x : Q) (l : list Q) : Q := fold_left Qmin2 l x.
Definition py_max (x : Q) (l : list Q) : Q := fold_left Qmax2 l x.

End Py.
Import Py.

(* ================================================================== *)
(** * The world outside the two files, and the effect monad *)

Module Sys.

(** What [requests.post] and [requests.get] hand back: an object whose
    [raise_for_status()] and [json()] each return or raise.  [json()] is
    whatever value the body decodes to: a dictionary for a JSON object, but
    also [None] for the body [null], a list for an array, a number or a
    string. *)
Record response : Type := mk_response {
  raise_for_status : result unit;
  json : result pyval
}.

(** An object created by the native bindings; the Python side only passes
    it around. *)
Record rust_object : Type := mk_rust_object { rust_id : nat }.

(** The native client, one oracle per method the Python client forwards
    to.  The first argument counts the interactions made so far.  A query
    and a search return whatever object the bindings build. *)
Record rust_bindings : Type := {
  rs_new : nat -> string -> Z -> result rust_object;
  rs_execute_query : nat -> string -> result pyval;
  rs_vector_search : nat -> string -> Z -> result pyval;
  rs_subscribe_stream : nat -> string -> result rust_object;
  rs_create_table : nat -> string -> string -> result unit;
  rs_insert_data : nat -> pyval -> pyval -> result unit;
  rs_create_vector_index : nat -> string -> string -> result rust_object;
  rs_list_tables : nat -> result (list string);
  rs_get_table_info : nat -> string -> result py_dict;
  rs_get_stats : nat -> result py_dict
}.

Record world : Type := {
  (** [requests.post(url, json=payload, timeout=t)] *)
  requests_post : nat -> string -> py_dict -> Z -> result response;
  (** [requests.get(url, timeout=t)] *)
  requests_get : nat -> string -> Z -> result response;
  rust : rust_bindings;
  (** [time.time()], in seconds *)
  wall_clock : nat -> Q;
  (** [open(filename, 'w')] *)
  open_for_writing : nat -> string -> result unit;
  (** [repr] of a float, as [json.dump] writes it *)
  float_repr : Q -> string;
  (** [float(text)], as [json.load] reads it *)
  float_of_string : string -> option Q;
  (** the order in which the scheduler lets the workers of one concurrency
      level take their steps: each entry names the worker that moves next *)
  thread_schedule : Z -> list nat
}.

(** One piece of an f-string. *)
Inductive fpart : Type :=
| Lit (s : string)
| Fmt (v : pyval)
| Fmt2f (q : Q).

(** What an observer of the process sees. *)
Inductive event : Type :=
| Print (line : list fpart)
| HttpPost (url : string) (payload : py_dict) (timeout : Z)
| HttpGet (url : string) (timeout : Z)
| RustCall (method : string) (args : list pyval)
| FileWrite (filename : string) (content : string).

Record pstate : Type := mk_pstate {
  (** the number of interactions with the world so far *)
  tick : nat;
  (** what has been observed so far, oldest first *)
  events : list event;
  (** the dictionary [self.results] of the [PerformanceTester] of the
      process, which its methods mutate in place: what it holds survives an
      exception *)
  results : py_dict
}.

Definition initial : pstate := {| tick := 0; events := []; results := [] |}.

Definition M (A : Type) : Type := world -> pstate -> result A * pstate.

Definition ret {A : Type} (a : A) : M A := fun _ s => (Ok a, s).

Definition raise {A : Type} (c : exn_class) (msg : string) : M A :=
  fun _ s => (Raise (mk_exn c msg), s).

Definition reraise {A : Type} (e : exn) : M A := fun _ s => (Raise e, s).

Definition bind {A B : Type} (m : M A) (k : A -> M B) : M B :=
  fun w s =>
    match m w s with
    | (Ok a, s') => k a w s'
    | (Raise e, s') => (Raise e, s')
    end.

(** [try: body  except <class> as e: handler e] *)
Definition try_except {A : Type} (body : M A) (catches : exn -> bool)
    (handler : exn -> M A) : M A :=
  fun w s =>
    match body w s with
    | (Ok a, s') => (Ok a, s')
    | (Raise e, s') => if catches e then handler e w s' else (Raise e, s')
    end.

Definition emit (e : event) : M unit :=
  fun _ s => (Ok tt, {| tick := tick s; events := (events s ++ [e])%list;
                        results := results s |}).

Definition print (line : list fpart) : M unit := emit (Print line).

(** Ask the world: the answer is the oracle's at the current tick, and the
    tick advances. *)
Definition ask {A : Type} (oracle : world -> nat -> result A) : M A :=
  fun w s => (oracle w (tick s), {| tick := S (tick s); events := events s;
                                    results := results s |}).

(** [time.time()] *)
Definition time_time : M Q := ask (fun w n => Ok (wall_clock w n)).

(** [for x in l: acc = body x acc] *)
Fixpoint for_each {A S : Type} (l : list A) (body : A -> S -> M S) (acc : S) : M S :=
  match l with
  | [] => ret acc
  | x :: l' => bind (body x acc) (for_each l' body)
  end.

(** [for x in l: body x] *)
Definition for_ {A : Type} (l : list A) (body : A -> M unit) : M unit :=
  for_each l (fun x _ => body x) tt.

Definition run {A : Type} (m : M A) (w : world) : result A * pstate := m w initial.

End Sys.
Import Sys.

Declare Scope py_scope.
Delimit Scope py_scope with py.
Notation "x <- m ;; k" := (bind m (fun x => k))
  (at level 61, m at next level, right associativity) : py_scope.
Notation "m ;;; k" := (bind m (fun _ => k))
  (at level 61, right associativity) : py_scope.
Open Scope py_scope.

(* ================================================================== *)
(** * [python/vectra/client.py] *)

Module client.

Record VectraClient : Type := mk_VectraClient {
  host : string;
  port : Z;
  base_url : string;
  use_rust : bool;
  _rust_client : option rust_object
}.

(** [VectraClient.__init__] *)
Definition VectraClient_init (host_ : string) (port_ : Z) (use_rust_ : bool)
  : M VectraClient :=
  let base := "http://" ++ host_ ++ ":" ++ str_of_int port_ in
  if use_rust_ then
    r <- ask (fun w n => rs_new (rust w) n host_ port_) ;;
    ret (mk_VectraClient host_ port_ base use_rust_ (Some r))
  else
    ret (mk_VectraClient host_ port_ base use_rust_ None).

(** The test [self.use_rust and self._rust_client]; an object of the native
    bindings is true. *)
Definition embedded (self : VectraClient) : bool :=
  use_rust self && match _rust_client self with Some _ => true | None => false end.

(** [requests.post(url, json=payload, timeout=t)] *)
Definition post (url : string) (payload : py_dict) (timeout : Z) : M response :=
  emit (HttpPost url payload timeout) ;;;
  ask (fun w n => requests_post w n url payload timeout).

(** [requests.get(url, timeout=t)] *)
Definition get (url : string) (timeout : Z) : M response :=
  emit (HttpGet url timeout) ;;;
  ask (fun w n => requests_get w n url timeout).

(** A method of a response object, [response.m()]. *)
Definition call {A : Type} (r : result A) : M A := fun _ s => (r, s).

(** A call into the native client. *)
Definition native {A : Type} (method : string) (args : list pyval)
    (oracle : rust_bindings -> nat -> result A) : M A :=
  emit (RustCall method args) ;;;
  ask (fun w n => oracle (rust w) n).

Definition execute_query (self : VectraClient) (sql : string) : M pyval :=
  if embedded self then
    native "execute_query" [PStr sql] (fun r n => rs_execute_query r n sql)
  else
    let url := base_url self ++ "/query" in
    let payload := [("query", PStr sql)] in
    try_except
      (response <- post url payload 30 ;;
       call (raise_for_status response) ;;;
       call (json response))
      is_RequestException
      (fun e => raise RuntimeError ("Failed to execute query: " ++ exn_msg e)).

Definition vector_search (self : VectraClient) (query : string) (limit : Z)
  : M pyval :=
  if embedded self then
    native "vector_search" [PStr query; PInt limit]
      (fun r n => rs_vector_search r n query limit)
  else
    let url := base_url self ++ "/vector/search" in
    let payload := [("query", PStr query); ("limit", PInt limit)] in
    try_except
      (response <- post url payload 30 ;;
       call (raise_for_status response) ;;;
       call (json response))
      is_RequestException
      (fun e => raise RuntimeError ("Failed to perform vector search: " ++ exn_msg e)).

Record MockStreamSubscription : Type := mk_MockStreamSubscription {
  id : pyval;
  topic : string;
  status : pyval
}.

(** What [subscribe_stream] returns: the native object, or the mock. *)
Inductive subscription : Type :=
| NativeSubscription (o : rust_object)
| MockSubscription (m : MockStreamSubscription).

(** [data.get(key, default)].  Only a dictionary has the method: on any
    other value the attribute lookup raises [AttributeError]. *)
Definition get_or (data : pyval) (key : string) (default : pyval) : M pyval :=
  match data with
  | PDict d => ret (dict_get_default d key default)
  | _ =>
      raise AttributeError
        ("'" ++ type_name data ++ "' object has no attribute 'get'")
  end.

Definition subscribe_stream (self : VectraClient) (topic_ : string)
  : M subscription :=
  if embedded self then
    o <- native "subscribe_stream" [PStr topic_]
           (fun r n => rs_subscribe_stream r n topic_) ;;
    ret (NativeSubscription o)
  else
    let url := base_url self ++ "/stream/subscribe" in
    let payload := [("topic", PStr topic_)] in
    try_except
      (response <- post url payload 30 ;;
       call (raise_for_status response) ;;;
       data <- call (json response) ;;
       id_ <- get_or data "subscription_id" (PStr "unknown") ;;
       status_ <- get_or data "status" (PStr "unknown") ;;
       ret (MockSubscription (mk_MockStreamSubscription id_ topic_ status_)))
      is_RequestException
      (fun e => raise RuntimeError ("Failed to subscribe to stream: " ++ exn_msg e)).

Definition create_table (self : VectraClient) (name schema : string) : M unit :=
  if embedded self then
    native "create_table" [PStr name; PStr schema]
      (fun r n => rs_create_table r n name schema)
  else
    print [Lit "Creating table '"; Fmt (PStr name); Lit "' with schema: ";
           Fmt (PStr schema)].

(** [insert_data(self, table, data)].  The method is given here with the
    list of its positional arguments, because a caller in
    [performance_test.py] passes three: binding them to the two parameters
    is what raises [TypeError], before the body is entered. *)
Definition insert_data (self : VectraClient) (args : list pyval) : M unit :=
  match args with
  | [table; data] =>
      if embedded self then
        native "insert_data" [table; data] (fun r n => rs_insert_data r n table data)
      else
        print [Lit "Inserting data into table '"; Fmt table; Lit "': "; Fmt data]
  | _ :: _ :: _ :: _ =>
      raise TypeError
        ("VectraClient.insert_data() takes 3 positional arguments but "
           ++ str_of_int (Z.of_nat (S (length args))) ++ " were given")
  | _ =>
      raise TypeError
        "VectraClient.insert_data() missing required positional arguments"
  end.

Record MockVectorIndex : Type := mk_MockVectorIndex {
  table_name : string;
  column_name : string
}.

Inductive vector_index : Type :=
| NativeIndex (o : rust_object)
| MockIndex (m : MockVectorIndex).

Definition create_vector_index (self : VectraClient) (table column : string)
  : M vector_index :=
  if embedded self then
    o <- native "create_vector_index" [PStr table; PStr column]
           (fun r n => rs_create_vector_index r n table column) ;;
    ret (NativeIndex o)
  else
    print [Lit "Creating vector index on "; Fmt (PStr table); Lit ".";
           Fmt (PStr column)] ;;;
    ret (MockIndex (mk_MockVectorIndex table column)).

Definition list_tables (self : VectraClient) : M (list string) :=
  if embedded self then
    native "list_tables" [] (fun r n => rs_list_tables r n)
  else
    ret ["docs"; "users"; "products"].

Definition get_table_info (self : VectraClient) (table : string) : M py_dict :=
  if embedded self then
    native "get_table_info" [PStr table] (fun r n => rs_get_table_info r n table)
  else
    ret [("name", PStr table);
         ("rows", PInt 1000);
         ("size_bytes", PInt 1024000);
         ("created_at", PStr "2024-01-01T00:00:00Z")].

Definition get_stats (self : VectraClient) : M py_dict :=
  if embedded self then
    native "get_stats" [] (fun r n => rs_get_stats r n)
  else
    ret [("total_tables", PInt 3);
         ("total_rows", PInt 5000);
         ("total_size_bytes", PInt 5120000)].

Definition health_check (self : VectraClient) : M pyval :=
  let url := base_url self ++ "/health" in
  try_except
    (response <- get url 10 ;;
     call (raise_for_status response) ;;;
     call (json response))
    is_RequestException
    (fun e => raise RuntimeError ("Health check failed: " ++ exn_msg e)).

(** [MockStreamSubscription] *)
Definition get_id (self : MockStreamSubscription) : pyval := id self.
Definition get_topic (self : MockStreamSubscription) : string := topic self.
Definition get_status (self : MockStreamSubscription) : pyval := status self.

Definition unsubscribe (self : MockStreamSubscription) : M unit :=
  print [Lit "Unsubscribing from topic: "; Fmt (PStr (topic self))].

(** [MockVectorIndex] *)
Definition insert_vector (self : MockVectorIndex) (id_ : Z) (vector : list Q)
  : M unit :=
  print [Lit "Inserting vector "; Fmt (PInt id_); Lit " into index ";
         Fmt (PStr (table_name self)); Lit "."; Fmt (PStr (column_name self))].

(** [MockVectorIndex.search(query_vector, limit=None)]: [limit] is whatever
    value the caller passed, [PNone] when the argument is left out. *)
Definition search (self : MockVectorIndex) (query_vector : list Q)
    (limit : pyval) : py_dict :=
  let limit := py_or limit (PInt 10) in
  [("results",
    PList
      [PDict [("id", PInt 1); ("score", PFloat (95 # 100));
              ("metadata", PDict [("text", PStr "Sample result")])];
       PDict [("id", PInt 2); ("score", PFloat (87 # 100));
              ("metadata", PDict [("text", PStr "Another result")])]]);
   ("limit", limit)].

(** The default of the parameter [limit]. *)
Definition search_default_limit : pyval := PNone.

Definition delete_index (self : MockVectorIndex) : M unit :=
  print [Lit "Deleting index on "; Fmt (PStr (table_name self)); Lit ".";
         Fmt (PStr (column_name self))].

(** The public operations of [VectraClient], as a caller may request
    them, and the events each one causes. *)
Inductive operation : Type :=
| ExecuteQuery (sql : string)
| VectorSearch (query : string) (limit : Z)
| SubscribeStream (topic_ : string)
| CreateTable (name schema : string)
| InsertData (table : string) (data : pyval)
| CreateVectorIndex (table column : string)
| ListTables
| GetTableInfo (table : string)
| GetStats
| HealthCheck.

Definition events_of {A : Type} (m : M A) (w : world) (s : pstate) : list event :=
  skipn (length (events s)) (events (snd (m w s))).

Definition perform (self : VectraClient) (o : operation) (w : world)
    (s : pstate) : list event :=
  match o with
  | ExecuteQuery sql => events_of (execute_query self sql) w s
  | VectorSearch q l => events_of (vector_search self q l) w s
  | SubscribeStream t => events_of (subscribe_stream self t) w s
  | CreateTable n sch => events_of (create_table self n sch) w s
  | InsertData t d => events_of (insert_data self [PStr t; d]) w s
  | CreateVectorIndex t c => events_of (create_vector_index self t c) w s
  | ListTables => events_of (list_tables self) w s
  | GetTableInfo t => events_of (get_table_info self t) w s
  | GetStats => events_of (get_stats self) w s
  | HealthCheck => events_of (health_check self) w s
  end.

Definition is_http (e : event) : bool :=
  match e with
  | HttpPost _ _ _ | HttpGet _ _ => true
  | _ => false
  end.

Definition is_native (e : event) : bool :=
  match e with
  | RustCall _ _ => true
  | _ => false
  end.

(** [connect], [quick_query], [quick_search] *)
Definition connect (host_ : string) (port_ : Z) (use_rust_ : bool)
  : M VectraClient :=
  VectraClient_init host_ port_ use_rust_.

Definition quick_query (sql host_ : string) (port_ : Z) : M pyval :=
  c <- VectraClient_init host_ port_ false ;;
  execute_query c sql.

Definition quick_search (query : string) (limit : Z) (host_ : string) (port_ : Z)
  : M pyval :=
  c <- VectraClient_init host_ port_ false ;;
  vector_search c query limit.

End client.

(* ================================================================== *)
(** * The [json] module of the standard library

    [json.dump(obj, f, indent=2)] as [performance_test.py] calls it, and
    [json.load], its inverse.  The text of a float is the world's
    ([float_repr], [float_of_string]). *)

Module Json.

Definition dquote : ascii := ascii_of_nat 34.
Definition backslash : ascii := ascii_of_nat 92.

Definition hex_digit (n : nat) : ascii :=
  match n with
  | 0 => "0" | 1 => "1" | 2 => "2" | 3 => "3" | 4 => "4" | 5 => "5"
  | 6 => "6" | 7 => "7" | 8 => "8" | 9 => "9" | 10 => "a" | 11 => "b"
  | 12 => "c" | 13 => "d" | 14 => "e" | _ => "f"
  end%nat%char.

(** [ESCAPE_DCT] and the [\uXXXX] fallback of [encode_basestring_ascii]:
    everything outside [' '..'~'], the quote and the backslash are escaped. *)
Definition escape_char (c : ascii) : string :=
  let n := nat_of_ascii c in
  let esc (e : ascii) := String backslash (String e "") in
  if Ascii.eqb c dquote then esc dquote
  else if Ascii.eqb c backslash then esc backslash
  else if (n =? 8)%nat then esc "b"%char
  else if (n =? 12)%nat then esc "f"%char
  else if (n =? 10)%nat then esc "n"%char
  else if (n =? 13)%nat then esc "r"%char
  else if (n =? 9)%nat then esc "t"%char
  else if ((n <? 32) || (126 <? n))%nat then
    String backslash (String "u" (String "0" (String "0"
      (String (hex_digit (n / 16)) (String (hex_digit (n mod 16)) "")))))
  else String c "".

Fixpoint escape_chars (s : string) : string :=
  match s with
  | EmptyString => ""
  | String c s' => escape_char c ++ escape_chars s'
  end.

Definition encode_basestring_ascii (s : string) : string :=
  String dquote (escape_chars s ++ String dquote "").

Definition newline : string := String (ascii_of_nat 10) "".

(** ['\n' + ' ' * (indent * level)] with [indent = 2] *)
Definition newline_indent (level : nat) : string :=
  newline ++ str_repeat " " (2 * level).

Fixpoint join (sep : string) (l : list string) : string :=
  match l with
  | [] => ""
  | [x] => x
  | x :: l' => x ++ sep ++ join sep l'
  end.

Section Encoder.

Variable repr : Q -> string.

(** [_iterencode] at a given [_current_indent_level]. *)
Fixpoint encode (level : nat) (v : pyval) : string :=
  match v with
  | PNone => "null"
  | PBool true => "true"
  | PBool false => "false"
  | PInt z => str_of_int z
  | PFloat q => repr q
  | PStr s => encode_basestring_ascii s
  | PList [] => "[]"
  | PList l =>
      "[" ++ newline_indent (S level)
        ++ join ("," ++ newline_indent (S level)) (map (encode (S level)) l)
        ++ newline_indent level ++ "]"
  | PDict [] => "{}"
  | PDict d =>
      "{" ++ newline_indent (S level)
        ++ join ("," ++ newline_indent (S level))
             (map (fun kv => encode_basestring_ascii (fst kv) ++ ": "
                               ++ encode (S level) (snd kv)) d)
        ++ newline_indent level ++ "}"
  end.

(** [json.dumps(obj, indent=2)] *)
Definition dumps (obj : pyval) : string := encode 0 obj.

End Encoder.

(** ** Decoding *)

Definition is_digit (c : ascii) : bool :=
  let n := nat_of_ascii c in ((48 <=? n) && (n <=? 57))%nat.

Definition is_whitespace (c : ascii) : bool :=
  let n := nat_of_ascii c in
  ((n =? 32) || (n =? 9) || (n =? 10) || (n =? 13))%nat.

Fixpoint skip_whitespace (s : string) : string :=
  match s with
  | String c s' => if is_whitespace c then skip_whitespace s' else s
  | EmptyString => s
  end.

(** The longest prefix of digits, and what follows it. *)
Fixpoint span_digits (s : string) : string * string :=
  match s with
  | String c s' =>
      if is_digit c then
        let (d, r) := span_digits s' in (String c d, r)
      else ("", s)
  | EmptyString => ("", s)
  end.

(** [NUMBER_RE]: an optional minus sign, then a single zero or a non-zero
    digit and more digits; then, optionally, a dot and digits; then,
    optionally, [e] or [E], an optional sign and digits. *)
Definition scan_natural (s : string) : option (string * string) :=
  match s with
  | String c s' =>
      if Ascii.eqb c "0" then Some ("0", s')
      else if is_digit c then
        let (d, r) := span_digits s' in Some (String c d, r)
      else None
  | EmptyString => None
  end.

Definition scan_integer (s : string) : option (string * string) :=
  match s with
  | String c s' =>
      if Ascii.eqb c "-" then
        match scan_natural s' with
        | Some (d, r) => Some (String c d, r)
        | None => None
        end
      else scan_natural s
  | EmptyString => None
  end.

(** A character [c] and at least one digit after it, when [s] starts so. *)
Definition scan_digits_after (c : ascii) (s' s : string) : string * string :=
  match span_digits s' with
  | (EmptyString, _) => ("", s)
  | (d, r) => (String c d, r)
  end.

Definition scan_fraction (s : string) : string * string :=
  match s with
  | String c s' => if Ascii.eqb c "." then scan_digits_after c s' s else ("", s)
  | EmptyString => ("", s)
  end.

Definition scan_signed_digits (s : string) : string * string :=
  match s with
  | String c s' =>
      if Ascii.eqb c "+" || Ascii.eqb c "-" then scan_digits_after c s' s
      else span_digits s
  | EmptyString => ("", s)
  end.

Definition scan_exponent (s : string) : string * string :=
  match s with
  | String c s' =>
      if Ascii.eqb c "e" || Ascii.eqb c "E" then
        match scan_signed_digits s' with
        | (EmptyString, _) => ("", s)
        | (d, r) => (String c d, r)
        end
      else ("", s)
  | EmptyString => ("", s)
  end.

(** The three groups of the match, and the rest of the text. *)
Definition scan_number (s : string) : option (string * string * string * string) :=
  match scan_integer s with
  | Some (i, r1) =>
      let (f, r2) := scan_fraction r1 in
      let (e, r3) := scan_exponent r2 in
      Some (i, f, e, r3)
  | None => None
  end.

(** A text that [NUMBER_RE] matches whole, with a fraction or an exponent:
    what the decoder hands to [float]. *)
Definition float_literal (t : string) : bool :=
  match scan_number t with
  | Some (_, f, e, EmptyString) => negb (String.eqb f "" && String.eqb e "")
  | _ => false
  end.

Definition unhex (c : ascii) : option nat :=
  let n := nat_of_ascii c in
  if ((48 <=? n) && (n <=? 57))%nat then Some (n - 48)%nat
  else if ((97 <=? n) && (n <=? 102))%nat then Some (n - 87)%nat
  else if ((65 <=? n) && (n <=? 70))%nat then Some (n - 55)%nat
  else None.

(** [py_scanstring], after the opening quote: the decoded string and the
    text after the closing quote.  A code point above 255 has no
    counterpart in [string] and is refused, as is a raw control character
    (strict mode). *)
Fixpoint scanstring (s : string) : option (string * string) :=
  match s with
  | EmptyString => None
  | String c s' =>
      if Ascii.eqb c dquote then Some ("", s')
      else if Ascii.eqb c backslash then
        match s' with
        | String e s'' =>
            let continue (ch : ascii) (rest : string) :=
              match scanstring rest with
              | Some (t, r) => Some (String ch t, r)
              | None => None
              end in
            if Ascii.eqb e dquote then continue dquote s''
            else if Ascii.eqb e backslash then continue backslash s''
            else if Ascii.eqb e "/" then continue "/"%char s''
            else if Ascii.eqb e "b" then continue (ascii_of_nat 8) s''
            else if Ascii.eqb e "f" then continue (ascii_of_nat 12) s''
            else if Ascii.eqb e "n" then continue (ascii_of_nat 10) s''
            else if Ascii.eqb e "r" then continue (ascii_of_nat 13) s''
            else if Ascii.eqb e "t" then continue (ascii_of_nat 9) s''
            else if Ascii.eqb e "u" then
              match s'' with
              | String h1 (String h2 (String h3 (String h4 s4))) =>
                  match unhex h1, unhex h2, unhex h3, unhex h4 with
                  | Some 0%nat, Some 0%nat, Some a, Some b =>
                      continue (ascii_of_nat (16 * a + b)) s4
                  | _, _, _, _ => None
                  end
              | _ => None
              end
            else None
        | EmptyString => None
        end
      else if (nat_of_ascii c <? 32)%nat then None
      else
        match scanstring s' with
        | Some (t, r) => Some (String c t, r)
        | None => None
        end
  end.

(** [s] without its first character. *)
Definition tail (s : string) : string :=
  match s with
  | String _ s' => s'
  | EmptyString => ""
  end.

(** [s] without its prefix [p], when it has it. *)
Fixpoint strip_prefix (p s : string) : option string :=
  match p, s with
  | EmptyString, _ => Some s
  | String a p', String b s' => if Ascii.eqb a b then strip_prefix p' s' else None
  | String _ _, EmptyString => None
  end.

Section Decoder.

Variable parse_float : string -> option Q.

Definition decode_number (s : string) : option (pyval * string) :=
  match scan_number s with
  | Some (i, f, e, r) =>
      if String.eqb f "" && String.eqb e "" then
        match NilZero.int_of_string i with
        | Some d => Some (PInt (Z.of_int d), r)
        | None => None
        end
      else
        match parse_float (i ++ f ++ e) with
        | Some q => Some (PFloat q, r)
        | None => None
        end
  | None => None
  end.

(** [scan_once], [JSONObject] and [JSONArray].  [fuel] bounds the nesting
    and the number of members; [loads] gives the length of the text.
    [NaN] and [Infinity] have no counterpart among the rationals and are
    refused. *)
Fixpoint scan_once (fuel : nat) (s : string) : option (pyval * string) :=
  match fuel with
  | O => None
  | S fuel' =>
      match s with
      | String c s' =>
          if Ascii.eqb c dquote then
            match scanstring s' with
            | Some (t, r) => Some (PStr t, r)
            | None => None
            end
          else if Ascii.eqb c "{" then
            if is_prefix "}" (skip_whitespace s') then
              Some (PDict [], tail (skip_whitespace s'))
            else
              match members fuel' (skip_whitespace s') [] with
              | Some (d, r') => Some (PDict d, r')
              | None => None
              end
          else if Ascii.eqb c "[" then
            if is_prefix "]" (skip_whitespace s') then
              Some (PList [], tail (skip_whitespace s'))
            else
              match elements fuel' (skip_whitespace s') with
              | Some (l, r') => Some (PList l, r')
              | None => None
              end
          else
            match strip_prefix "null" s, strip_prefix "true" s,
                  strip_prefix "false" s with
            | Some r, _, _ => Some (PNone, r)
            | None, Some r, _ => Some (PBool true, r)
            | None, None, Some r => Some (PBool false, r)
            | None, None, None => decode_number s
            end
      | EmptyString => None
      end
  end

(** the members of an object, after the opening brace and the white space;
    [acc] is the dictionary built so far *)
with members (fuel : nat) (s : string) (acc : py_dict) : option (py_dict * string) :=
  match fuel with
  | O => None
  | S fuel' =>
      match s with
      | String c s' =>
          if Ascii.eqb c dquote then
            match scanstring s' with
            | Some (key, r) =>
                if is_prefix ":" (skip_whitespace r) then
                  match scan_once fuel' (skip_whitespace (tail (skip_whitespace r))) with
                  | Some (v, r2) =>
                      let acc' := dict_set acc key v in
                      if is_prefix "}" (skip_whitespace r2) then
                        Some (acc', tail (skip_whitespace r2))
                      else if is_prefix "," (skip_whitespace r2) then
                        members fuel' (skip_whitespace (tail (skip_whitespace r2))) acc'
                      else None
                  | None => None
                  end
                else None
            | None => None
            end
          else None
      | EmptyString => None
      end
  end

(** the elements of an array, after the opening bracket and the white
    space *)
with elements (fuel : nat) (s : string) : option (list pyval * string) :=
  match fuel with
  | O => None
  | S fuel' =>
      match scan_once fuel' s with
      | Some (v, r) =>
          if is_prefix "]" (skip_whitespace r) then
            Some ([v], tail (skip_whitespace r))
          else if is_prefix "," (skip_whitespace r) then
            match elements fuel' (skip_whitespace (tail (skip_whitespace r))) with
            | Some (l, r2) => Some (v :: l, r2)
            | None => None
            end
          else None
      | None => None
      end
  end.

(** [json.loads]: white space, one value, white space, end of text. *)
Definition loads (s : string) : option pyval :=
  match scan_once (S (String.length s)) (skip_whitespace s) with
  | Some (v, r) =>
      match skip_whitespace r with
      | EmptyString => Some v
      | _ => None
      end
  | None => None
  end.

End Decoder.

End Json.

(* ================================================================== *)
(** * [scripts/performance_test.py] *)

Module performance_test.

Import client.

(** The attributes of a [PerformanceTester] that never change; its
    [results] are in the state of [M]. *)
Record PerformanceTester : Type := mk_PerformanceTester {
  pt_host : string;
  pt_port : Z;
  pt_use_rust : bool;
  pt_client : option VectraClient
}.

(** [self.results = {}] *)
Definition clear_results : M unit :=
  fun _ s => (Ok tt, {| tick := tick s; events := events s; results := [] |}).

(** [self.results[name] = value] *)
Definition record (name : string) (value : py_dict) : M unit :=
  fun _ s => (Ok tt, {| tick := tick s; events := events s;
                        results := dict_set (results s) name (PDict value) |}).

(** [self.results] *)
Definition get_results : M py_dict := fun _ s => (Ok (results s), s).

(** [PerformanceTester.__init__].  [imported] tells whether
    [from vectra import VectraClient] succeeded when the script was loaded;
    otherwise the name [VectraClient] is [None]. *)
Definition PerformanceTester_init (imported : bool) (host_ : string) (port_ : Z)
    (use_rust_ : bool) : M PerformanceTester :=
  clear_results ;;;
  if imported then
    c <- VectraClient_init host_ port_ use_rust_ ;;
    ret (mk_PerformanceTester host_ port_ use_rust_ (Some c))
  else
    print [Lit "Using mock client for testing"] ;;;
    ret (mk_PerformanceTester host_ port_ use_rust_ None).

Definition nl : string := Json.newline.

Definition skipped : M unit := print [Lit "  Skipped (mock client)"].

(** [a / b] on floats *)
Definition truediv (a b : Q) : M Q :=
  if Qeq_bool b 0 then raise ZeroDivisionError "float division by zero"
  else ret (a / b)%Q.

(** The measuring pattern every serial phase repeats:
[[
    start_time = time.time()
    try:
        <call>
        t = (time.time() - start_time) * 1000
        times.append(t)
    except Exception as e:
        print(<message about e>)
]] *)
Definition timed {A : Type} (op : M A) (message : exn -> list fpart)
    (times : list Q) : M (list Q) :=
  start_time <- time_time ;;
  try_except
    (op ;;;
     now <- time_time ;;
     ret (times ++ [((now - start_time) * 1000)%Q])%list)
    is_Exception
    (fun e => print (message e) ;;; ret times).

Definition test_connection_performance (self : PerformanceTester) : M unit :=
  print [Lit (nl ++ "🔌 Testing Connection Performance...")] ;;;
  match pt_client self with
  | None => skipped
  | Some c =>
      connection_times <-
        for_each (range 10)
          (fun i => timed (health_check c)
             (fun e => [Lit "  Connection "; Fmt (PInt (i + 1)); Lit " failed: ";
                        Lit (exn_msg e)]))
          [] ;;
      match connection_times with
      | [] => ret tt
      | t0 :: ts =>
          let avg_time := mean connection_times in
          let min_time := py_min t0 ts in
          let max_time := py_max t0 ts in
          record "connection"
            [("avg_time_ms", PFloat avg_time);
             ("min_time_ms", PFloat min_time);
             ("max_time_ms", PFloat max_time);
             ("samples", PInt (Z.of_nat (length connection_times)))] ;;;
          print [Lit "  Average connection time: "; Fmt2f avg_time; Lit "ms"] ;;;
          print [Lit "  Min/Max: "; Fmt2f min_time; Lit "ms / "; Fmt2f max_time;
                 Lit "ms"]
      end
  end.

Definition test_table_operations (self : PerformanceTester) : M unit :=
  print [Lit (nl ++ "📊 Testing Table Operations...")] ;;;
  match pt_client self with
  | None => skipped
  | Some c =>
      acc <-
        for_each (range 5)
          (fun i (acc : list Q * list string) =>
             let table_name := "perf_test_table_" ++ str_of_int i in
             times <- timed (create_table c table_name "id INT, name TEXT, data TEXT")
                        (fun e => [Lit "  Table creation "; Fmt (PInt (i + 1));
                                   Lit " failed: "; Lit (exn_msg e)])
                        (fst acc) ;;
             ret (times, (snd acc ++ [table_name])%list))
          ([], []) ;;
      let table_creation_times := fst acc in
      match table_creation_times with
      | [] => ret tt
      | _ =>
          let avg_time := mean table_creation_times in
          record "table_creation"
            [("avg_time_ms", PFloat avg_time);
             ("samples", PInt (Z.of_nat (length table_creation_times)))] ;;;
          print [Lit "  Average table creation time: "; Fmt2f avg_time; Lit "ms"]
      end
  end.

Definition _generate_test_data (size_bytes : Z) : py_dict :=
  let target_size := size_bytes - 50 in
  if target_size <=? 0 then
    [("id", PInt 1); ("data", PStr "small")]
  else
    let data_string := str_mul "x" target_size in
    [("id", PInt 1);
     ("data", PStr data_string);
     ("timestamp", PStr "2024-01-01T00:00:00Z")].

(** The body of the loop [for size in data_sizes]. *)
Definition insertion_of_size (c : VectraClient) (size : Z) : M unit :=
  let test_data := _generate_test_data size in
  insertion_times <-
    for_each (range 10)
      (fun i => timed
         (insert_data c
            [PStr "perf_test_table";
             PStr ("key_" ++ str_of_int size ++ "_" ++ str_of_int i);
             PDict test_data])
         (fun e => [Lit "  Data insertion "; Fmt (PInt (i + 1)); Lit " failed: ";
                    Lit (exn_msg e)]))
      [] ;;
  match insertion_times with
  | [] => ret tt
  | _ =>
      let avg_time := mean insertion_times in
      throughput <- truediv (inject_Z size / 1024) (avg_time / 1000) ;;
      record ("data_insertion_" ++ str_of_int size ++ "b")
        [("avg_time_ms", PFloat avg_time);
         ("throughput_kbs", PFloat throughput);
         ("samples", PInt (Z.of_nat (length insertion_times)))] ;;;
      print [Lit "  "; Fmt (PInt size); Lit "B data: "; Fmt2f avg_time;
             Lit "ms avg, "; Fmt2f throughput; Lit " KB/s"]
  end.

Definition data_sizes : list Z := [100; 1000; 10000].

Definition test_data_insertion_performance (self : PerformanceTester) : M unit :=
  print [Lit (nl ++ "📝 Testing Data Insertion Performance...")] ;;;
  match pt_client self with
  | None => skipped
  | Some c => for_ data_sizes (insertion_of_size c)
  end.

Definition queries : list string :=
  ["SELECT * FROM perf_test_table LIMIT 10";
   "SELECT COUNT(*) FROM perf_test_table";
   "SELECT * FROM perf_test_table WHERE id > 5"].

(** The body of the loop [for i, query in enumerate(queries)]. *)
Definition query_case (c : VectraClient) (iq : Z * string) : M unit :=
  let i := fst iq in
  let query := snd iq in
  execution_times <-
    for_each (range 10)
      (fun j => timed (execute_query c query)
         (fun e => [Lit "  Query "; Fmt (PInt (i + 1)); Lit " execution ";
                    Fmt (PInt (j + 1)); Lit " failed: "; Lit (exn_msg e)]))
      [] ;;
  match execution_times with
  | [] => ret tt
  | _ =>
      let avg_time := mean execution_times in
      record ("query_" ++ str_of_int (i + 1))
        [("query", PStr query);
         ("avg_time_ms", PFloat avg_time);
         ("samples", PInt (Z.of_nat (length execution_times)))] ;;;
      print [Lit "  Query "; Fmt (PInt (i + 1)); Lit ": "; Fmt2f avg_time;
             Lit "ms avg"]
  end.

Definition test_query_performance (self : PerformanceTester) : M unit :=
  print [Lit (nl ++ "🔍 Testing Query Performance...")] ;;;
  match pt_client self with
  | None => skipped
  | Some c => for_ (enumerate queries) (query_case c)
  end.

Definition search_limits : list Z := [5; 10; 20; 50].

(** The body of the loop [for limit in search_limits]. *)
Definition search_case (c : VectraClient) (limit : Z) : M unit :=
  search_times <-
    for_each (range 10)
      (fun i => timed (vector_search c "test query" limit)
         (fun e => [Lit "  Vector search "; Fmt (PInt (i + 1));
                    Lit " failed: "; Lit (exn_msg e)]))
      [] ;;
  match search_times with
  | [] => ret tt
  | _ =>
      let avg_time := mean search_times in
      record ("vector_search_" ++ str_of_int limit)
        [("limit", PInt limit);
         ("avg_time_ms", PFloat avg_time);
         ("samples", PInt (Z.of_nat (length search_times)))] ;;;
      print [Lit "  Limit "; Fmt (PInt limit); Lit ": "; Fmt2f avg_time;
             Lit "ms avg"]
  end.

Definition test_vector_search_performance (self : PerformanceTester) : M unit :=
  print [Lit (nl ++ "🧠 Testing Vector Search Performance...")] ;;;
  match pt_client self with
  | None => skipped
  | Some c => for_ search_limits (search_case c)
  end.

(** ** The concurrency phase

    Each worker runs on a thread of the pool.  A thread can be preempted
    between any two bytecodes, and [completed_operations += 1] on a
    [nonlocal] name is three of them: load the cell, add, store the cell.
    A worker therefore moves in steps: the client call; the load of the
    counter its outcome selects; the store of the loaded value plus one. *)

Inductive worker_pc : Type :=
| Submitted
| Succeeded
| Failed
| LoadedCompleted (v : Z)
| LoadedFailed (v : Z)
| Finished (exception : option exn).

Record pool : Type := mk_pool {
  completed_operations : Z;
  failed_operations : Z;
  workers : list worker_pc;
  (** the futures in the order they completed, with the exception each
      holds *)
  done : list (nat * option exn)
}.

Definition set_worker (p : pool) (i : nat) (pc : worker_pc) : pool :=
  mk_pool (completed_operations p) (failed_operations p)
    (firstn i (workers p) ++ pc :: skipn (S i) (workers p))%list (done p).

Definition finish (p : pool) (i : nat) (e : option exn) : pool :=
  let p := set_worker p i (Finished e) in
  mk_pool (completed_operations p) (failed_operations p) (workers p)
    (done p ++ [(i, e)])%list.

(** The call of [worker(worker_id)]: a mix of operations. *)
Definition worker_operation (c : VectraClient) (worker_id : Z) : M unit :=
  if worker_id mod 3 =? 0 then
    execute_query c "SELECT * FROM perf_test_table LIMIT 1" ;;; ret tt
  else if worker_id mod 3 =? 1 then
    vector_search c "test" 5 ;;; ret tt
  else
    get_stats c ;;; ret tt.

(** One step of worker [i]; a finished or unknown worker does not move.
    An exception that is not an [Exception] leaves the worker through its
    [except Exception] clause and is kept by the future. *)
Definition step (c : VectraClient) (i : nat) (p : pool) : M pool :=
  match nth_error (workers p) i with
  | Some Submitted =>
      fun w s =>
        match worker_operation c (Z.of_nat i) w s with
        | (Ok _, s') => (Ok (set_worker p i Succeeded), s')
        | (Raise e, s') =>
            if is_Exception e then (Ok (set_worker p i Failed), s')
            else (Ok (finish p i (Some e)), s')
        end
  | Some Succeeded => ret (set_worker p i (LoadedCompleted (completed_operations p)))
  | Some Failed => ret (set_worker p i (LoadedFailed (failed_operations p)))
  | Some (LoadedCompleted v) =>
      let p := mk_pool (v + 1) (failed_operations p) (workers p) (done p) in
      ret (finish p i None)
  | Some (LoadedFailed v) =>
      let p := mk_pool (completed_operations p) (v + 1) (workers p) (done p) in
      ret (finish p i None)
  | Some (Finished _) => ret p
  | None => ret p
  end.

(** Leaving the [with ThreadPoolExecutor(...)] block joins the workers:
    whatever the schedule left undone is run to its end. *)
Definition join_all (c : VectraClient) (level : nat) (p : pool) : M pool :=
  for_each (flat_map (fun i => [i; i; i]) (seq 0 level)) (step c) p.

(** The workers of one level, from submission to the end of the [with]
    block, under the schedule the world chooses. *)
Definition run_workers (c : VectraClient) (level : Z) : M pool :=
  let n := Z.to_nat level in
  let p0 := mk_pool 0 0 (repeat Submitted n) [] in
  p1 <- (fun w => for_each (thread_schedule w level) (step c) p0 w) ;;
  join_all c n p1.

(** [for future in as_completed(futures): try: future.result()
     except Exception: pass] *)
Definition collect (p : pool) : M unit :=
  for_ (done p)
    (fun f =>
       match snd f with
       | Some e => if is_Exception e then ret tt else reraise e
       | None => ret tt
       end).

(** The body of the loop [for level in concurrency_levels]. *)
Definition concurrent_level (c : VectraClient) (level : Z) : M unit :=
  print [Lit "  Testing "; Fmt (PInt level); Lit " concurrent operations..."] ;;;
  start_time <- time_time ;;
  p <- run_workers c level ;;
  collect p ;;;
  now <- time_time ;;
  let total_time := (now - start_time)%Q in
  throughput <- truediv (inject_Z (completed_operations p)) total_time ;;
  record ("concurrent_" ++ str_of_int level)
    [("concurrency_level", PInt level);
     ("total_time_s", PFloat total_time);
     ("completed_operations", PInt (completed_operations p));
     ("failed_operations", PInt (failed_operations p));
     ("throughput_ops_per_sec", PFloat throughput)] ;;;
  print [Lit "    Completed: "; Fmt (PInt (completed_operations p)); Lit "/";
         Fmt (PInt level); Lit " operations"] ;;;
  print [Lit "    Throughput: "; Fmt2f throughput; Lit " ops/sec"].

Definition concurrency_levels : list Z := [5; 10; 20].

Definition test_concurrent_operations (self : PerformanceTester) : M unit :=
  print [Lit (nl ++ "⚡ Testing Concurrent Operations...")] ;;;
  match pt_client self with
  | None => skipped
  | Some c => for_ concurrency_levels (concurrent_level c)
  end.

Definition test_memory_usage (self : PerformanceTester) : M unit :=
  print [Lit (nl ++ "💾 Testing Memory Usage...")] ;;;
  match pt_client self with
  | None => skipped
  | Some c =>
      let large_data :=
        map (fun i => PDict [("id", PInt i);
                             ("data", PStr (str_mul "x" 1000));
                             ("vector", PList (repeat (PFloat (1 # 10)) 384))])
            (range 1000) in
      try_except
        (for_ (enumerate (firstn 100 large_data))
           (fun it =>
              insert_data c
                [PStr "memory_test_table";
                 PStr ("key_" ++ str_of_int (fst it));
                 snd it]))
        is_Exception
        (fun e => print [Lit "  Memory test failed: "; Lit (exn_msg e)]) ;;;
      record "memory_usage"
        [("test_data_size_mb", PFloat 1); ("status", PStr "completed")] ;;;
      print [Lit "  Memory usage test completed"]
  end.

Definition test_stress_scenarios (self : PerformanceTester) : M unit :=
  print [Lit (nl ++ "🔥 Testing Stress Scenarios...")] ;;;
  match pt_client self with
  | None => skipped
  | Some c =>
      print [Lit "  Testing rapid successive operations..."] ;;;
      rapid_times <-
        for_each (range 50)
          (fun i => timed (get_stats c)
             (fun e => [Lit "    Rapid operation "; Fmt (PInt (i + 1));
                        Lit " failed: "; Lit (exn_msg e)]))
          [] ;;
      match rapid_times with
      | [] => ret tt
      | _ =>
          let avg_time := mean rapid_times in
          record "stress_rapid_operations"
            [("avg_time_ms", PFloat avg_time);
             ("samples", PInt (Z.of_nat (length rapid_times)))] ;;;
          print [Lit "    Average time: "; Fmt2f avg_time; Lit "ms"]
      end ;;;
      print [Lit "  Testing large data operations..."] ;;;
      let large_data := [("data", PStr (str_mul "x" 100000))] in
      large_op_times <-
        for_each (range 10)
          (fun i => timed
             (insert_data c
                [PStr "stress_test_table";
                 PStr ("large_key_" ++ str_of_int i);
                 PDict large_data])
             (fun e => [Lit "    Large data operation "; Fmt (PInt (i + 1));
                        Lit " failed: "; Lit (exn_msg e)]))
          [] ;;
      match large_op_times with
      | [] => ret tt
      | _ =>
          let avg_time := mean large_op_times in
          record "stress_large_data"
            [("avg_time_ms", PFloat avg_time);
             ("data_size_kb", PInt 100);
             ("samples", PInt (Z.of_nat (length large_op_times)))] ;;;
          print [Lit "    Average time: "; Fmt2f avg_time; Lit "ms"]
      end
  end.

Definition banner : string := str_repeat "=" 50.

(** The phases, in the order [run_all_tests] calls them. *)
Definition phases : list (PerformanceTester -> M unit) :=
  [test_connection_performance;
   test_table_operations;
   test_data_insertion_performance;
   test_query_performance;
   test_vector_search_performance;
   test_concurrent_operations;
   test_memory_usage;
   test_stress_scenarios].

Definition run_all_tests (self : PerformanceTester) : M py_dict :=
  print [Lit "🚀 Starting VectraEdge Performance Tests"] ;;;
  print [Lit banner] ;;;
  test_connection_performance self ;;;
  test_table_operations self ;;;
  test_data_insertion_performance self ;;;
  test_query_performance self ;;;
  test_vector_search_performance self ;;;
  test_concurrent_operations self ;;;
  test_memory_usage self ;;;
  test_stress_scenarios self ;;;
  print [Lit (nl ++ banner)] ;;;
  print [Lit "✅ All performance tests completed!"] ;;;
  get_results.

(** [json.dump(self.results, f, indent=2)] into [open(filename, 'w')] *)
Definition save_results (self : PerformanceTester) (filename : string) : M unit :=
  ask (fun w n => open_for_writing w n filename) ;;;
  (fun w s =>
     emit (FileWrite filename (Json.dumps (float_repr w) (PDict (results s)))) w s) ;;;
  print [Lit (nl ++ "💾 Results saved to "); Fmt (PStr filename)].

(** [v[k]] on a value of the result set *)
Definition subscript (v : pyval) (k : string) : M pyval :=
  match v with
  | PDict d =>
      match dict_get d k with
      | Some x => ret x
      | None => raise KeyError k
      end
  | _ => raise TypeError "object is not subscriptable"
  end.

(** An f-string field with the format [.2f] *)
Definition format_2f (v : pyval) : M fpart :=
  match v with
  | PFloat q => ret (Fmt2f q)
  | PInt z => ret (Fmt2f (inject_Z z))
  | PBool b => ret (Fmt2f (if b then 1 else 0))
  | PStr _ => raise ValueError "Unknown format code 'f' for object of type 'str'"
  | _ => raise TypeError "unsupported format string passed to __format__"
  end.

(** [key.split('_')[-1]] *)
Fixpoint last_segment (s acc : string) : string :=
  match s with
  | EmptyString => acc
  | String c s' =>
      if Ascii.eqb c "_" then last_segment s' ""
      else last_segment s' (acc ++ String c "")
  end.

(** [s.replace('b', 'B')] *)
Fixpoint replace_b (s : string) : string :=
  match s with
  | EmptyString => ""
  | String c s' => String (if Ascii.eqb c "b" then "B"%char else c) (replace_b s')
  end.

(** [for key, value in self.results.items(): if key.startswith(prefix): ...] *)
Definition for_results_with (prefix : string) (body : string -> pyval -> M unit)
  : M unit :=
  items <- get_results ;;
  for_ items
    (fun kv => if is_prefix prefix (fst kv) then body (fst kv) (snd kv) else ret tt).

(** [if name in self.results: ...] *)
Definition when_result (name : string) (body : pyval -> M unit) : M unit :=
  items <- get_results ;;
  match dict_get items name with
  | Some v => body v
  | None => ret tt
  end.

Definition print_summary (self : PerformanceTester) : M unit :=
  print [Lit (nl ++ "📊 Performance Test Summary")] ;;;
  print [Lit banner] ;;;
  items <- get_results ;;
  match items with
  | [] => print [Lit "No test results available."]
  | _ =>
      when_result "connection" (fun conn =>
        a <- subscript conn "avg_time_ms" ;; a <- format_2f a ;;
        print [Lit "🔌 Connection: "; a; Lit "ms avg"]) ;;;
      when_result "table_creation" (fun table =>
        a <- subscript table "avg_time_ms" ;; a <- format_2f a ;;
        print [Lit "📊 Table Creation: "; a; Lit "ms avg"]) ;;;
      for_results_with "data_insertion_" (fun key value =>
        let size := replace_b (last_segment key "") in
        a <- subscript value "avg_time_ms" ;; a <- format_2f a ;;
        t <- subscript value "throughput_kbs" ;; t <- format_2f t ;;
        print [Lit "📝 "; Fmt (PStr size); Lit " Data Insertion: "; a;
               Lit "ms avg, "; t; Lit " KB/s"]) ;;;
      for_results_with "query_" (fun key value =>
        a <- subscript value "avg_time_ms" ;; a <- format_2f a ;;
        print [Lit "🔍 Query "; Fmt (PStr (last_segment key "")); Lit ": "; a;
               Lit "ms avg"]) ;;;
      for_results_with "vector_search_" (fun key value =>
        limit <- subscript value "limit" ;;
        a <- subscript value "avg_time_ms" ;; a <- format_2f a ;;
        print [Lit "🧠 Vector Search (limit "; Fmt limit; Lit "): "; a;
               Lit "ms avg"]) ;;;
      for_results_with "concurrent_" (fun key value =>
        level <- subscript value "concurrency_level" ;;
        throughput <- subscript value "throughput_ops_per_sec" ;;
        t <- format_2f throughput ;;
        print [Lit "⚡ Concurrent "; Fmt level; Lit ": "; t; Lit " ops/sec"]) ;;;
      when_result "stress_rapid_operations" (fun stress =>
        a <- subscript stress "avg_time_ms" ;; a <- format_2f a ;;
        print [Lit "🔥 Rapid Operations: "; a; Lit "ms avg"]) ;;;
      when_result "stress_large_data" (fun stress =>
        k <- subscript stress "data_size_kb" ;;
        a <- subscript stress "avg_time_ms" ;; a <- format_2f a ;;
        print [Lit "🔥 Large Data ("; Fmt k; Lit "KB): "; a; Lit "ms avg"])
  end.

(** The parsed command line. *)
Record arguments : Type := mk_arguments {
  arg_host : string;
  arg_port : Z;
  arg_use_rust : bool;
  arg_output : string;
  arg_skip_tests : option (list string)
}.

Definition default_arguments : arguments :=
  mk_arguments "localhost" 8080 false "performance_results.json" None.

(** [sys.exit(code)] *)
Definition sys_exit {A : Type} (code : Z) : M A := raise SystemExit (str_of_int code).

(** [try: body  except E1: h1  except E2 as e: h2 e]: the first clause that
    matches handles the exception; what a handler raises is not handled by
    its sibling. *)
Definition try_except2 {A : Type} (body : M A) (c1 : exn -> bool) (h1 : exn -> M A)
    (c2 : exn -> bool) (h2 : exn -> M A) : M A :=
  fun w s =>
    match body w s with
    | (Ok a, s') => (Ok a, s')
    | (Raise e, s') =>
        if c1 e then h1 e w s'
        else if c2 e then h2 e w s'
        else (Raise e, s')
    end.

(** The [try] statement of [main]. *)
Definition benchmark (tester : PerformanceTester) (args : arguments) : M unit :=
  try_except2
    (run_all_tests tester ;;;
     print_summary tester ;;;
     save_results tester (arg_output args) ;;;
     print [Lit (nl ++ "🎉 Performance testing completed successfully!")] ;;;
     print [Lit "Results saved to: "; Fmt (PStr (arg_output args))])
    is_KeyboardInterrupt
    (fun _ =>
       print [Lit (nl ++ "⚠️  Performance testing interrupted by user")] ;;;
       sys_exit 1)
    is_Exception
    (fun e =>
       print [Lit (nl ++ "❌ Performance testing failed: "); Lit (exn_msg e)] ;;;
       sys_exit 1).

Definition main (imported : bool) (args : arguments) : M unit :=
  tester <- PerformanceTester_init imported (arg_host args) (arg_port args)
              (arg_use_rust args) ;;
  benchmark tester args.

(** The files written so far. *)
Definition files_written (s : pstate) : list (string * string) :=
  flat_map (fun e => match e with FileWrite f c => [(f, c)] | _ => [] end) (events s).

(** The exit status of the process. *)
Definition exit_status (r : result unit) : Z :=
  match r with
  | Ok _ => 0
  | Raise e =>
      match exn_cls e with
      | SystemExit => if String.eqb (exn_msg e) "0" then 0 else 1
      | _ => 1
      end
  end.

End performance_test.

(* ================================================================== *)
(** * [python/vectra/cli.py] *)

Module cli.

Import client.

(** [args.command] with the arguments of its sub-parser, as [argparse] has
    parsed them. *)
Inductive command : Type :=
| CmdQuery (sql : string)
| CmdSearch (query : string) (limit : Z)
| CmdSubscribe (topic_ : string)
| CmdCreateTable (table schema : string)
| CmdInsert (table data : string)
| CmdCreateIndex (table column : string)
| CmdListTables
| CmdTableInfo (table : string)
| CmdStats
| CmdHealth
| CmdInteractive.

(** The namespace that [parser.parse_args()] returns; [ns_command] is
    [None] when no command was given. *)
Record namespace : Type := mk_namespace {
  ns_host : string;
  ns_port : Z;
  ns_command : option command
}.

(** What the command-line tool meets besides the world of the client. *)
Record environment : Type := {
  (** the text that [parser.print_help()] writes *)
  help_text : string;
  (** [json.loads(text)]: the value, or [None] when it raises
      [json.JSONDecodeError] *)
  json_loads : string -> option pyval;
  (** [from . import health_check]: the exception of the import, or the
      function of the package, given by what its calls return or raise *)
  package_health_check : result (nat -> result pyval);
  (** what the calls of [input()] return or raise, in order; after them
      the input is at its end ([EOFError]) *)
  stdin : list (result string)
}.

(** A line written to [sys.stderr]. *)
Definition stderr_line : Type := list fpart.

(** [print(json.dumps(value, indent=2))] *)
Definition print_json (value : pyval) : M unit :=
  fun w s => print [Lit (Json.dumps (float_repr w) value)] w s.

(** [str.isspace] on a code point below 256 *)
Definition is_space (c : ascii) : bool :=
  let n := nat_of_ascii c in
  ((9 <=? n) && (n <=? 13) || (28 <=? n) && (n <=? 32) || (n =? 133) || (n =? 160))%nat.

Fixpoint lstrip (s : string) : string :=
  match s with
  | EmptyString => ""
  | String c s' => if is_space c then lstrip s' else s
  end.

(** [s.rstrip()]: the string without the white space it ends with. *)
Fixpoint rstrip (s : string) : string :=
  match s with
  | EmptyString => ""
  | String c s' =>
      match rstrip s' with
      | EmptyString => if is_space c then "" else String c ""
      | t => String c t
      end
  end.

(** [s.strip()] *)
Definition strip (s : string) : string := rstrip (lstrip s).

(** [str.lower] on a code point below 256 *)
Definition lower_char (c : ascii) : ascii :=
  let n := nat_of_ascii c in
  if ((65 <=? n) && (n <=? 90) || (192 <=? n) && (n <=? 214)
      || (216 <=? n) && (n <=? 222))%nat
  then ascii_of_nat (n + 32) else c.

Fixpoint lower (s : string) : string :=
  match s with
  | EmptyString => ""
  | String c s' => String (lower_char c) (lower s')
  end.

(** [s.startswith(("select", "create", "insert", "update", "delete"))] *)
Definition starts_with_sql (s : string) : bool :=
  existsb (fun p => is_prefix p s) ["select"; "create"; "insert"; "update"; "delete"].

Definition show_interactive_help : M unit :=
  print [Lit "Available commands:"] ;;;
  print [Lit "  SQL queries: SELECT, CREATE, INSERT, UPDATE, DELETE"] ;;;
  print [Lit "  help        - Show this help"] ;;;
  print [Lit "  quit/exit   - Exit interactive mode"] ;;;
  print [].

(** How an iteration of [while True] ends. *)
Inductive flow : Type :=
| Continue
| Break.

(** [input("vectra> ")], when it returns or raises [line]: one more
    interaction with the outside. *)
Definition input (line : result string) : M string :=
  fun _ s => (line, {| tick := S (tick s); events := events s; results := results s |}).

(** [input("vectra> ")] at the end of the input: it raises [EOFError], and
    the clause [except EOFError] leaves the loop. *)
Definition input_at_end : M unit :=
  fun _ s => (Ok tt, {| tick := S (tick s); events := events s; results := results s |}).

(** One iteration of the loop of [run_interactive_mode], on what [input()]
    gives: the body of its [try], and its clause
    [except KeyboardInterrupt]. *)
Definition interactive_step (client : VectraClient) (line : result string) : M flow :=
  try_except
    (raw <- input line ;;
     let command := strip raw in
     if String.eqb command "" then ret Continue
     else if String.eqb command "quit" || String.eqb command "exit" then ret Break
     else if String.eqb command "help" then show_interactive_help ;;; ret Continue
     else if starts_with_sql (lower command) then
       try_except
         (result <- execute_query client command ;;
          print_json result)
         is_Exception
         (fun e => print [Lit "Error: "; Lit (exn_msg e)]) ;;;
       ret Continue
     else
       print [Lit "Unknown command. Type 'help' for available commands."] ;;;
       ret Continue)
    is_KeyboardInterrupt
    (fun _ => print [Lit (Json.newline ++ "Exiting...")] ;;; ret Break).

(** The loop [while True], on the calls of [input()] that are left. *)
Fixpoint interactive_loop (client : VectraClient) (lines : list (result string))
  : M unit :=
  match lines with
  | [] => input_at_end
  | line :: rest =>
      f <- interactive_step client line ;;
      match f with
      | Continue => interactive_loop client rest
      | Break => ret tt
      end
  end.

Definition run_interactive_mode (env : environment) (client : VectraClient) : M unit :=
  print [Lit "VectraEdge Interactive Mode"] ;;;
  print [Lit "Type 'help' for commands, 'quit' to exit"] ;;;
  print [] ;;;
  interactive_loop client (stdin env).

(** The branch of [main] for one command.  It gives the exit status that
    [main] returns on this path together with the lines it wrote to
    [sys.stderr]. *)
Definition run_command (env : environment) (client : VectraClient) (cmd : command)
  : M (Z * list stderr_line) :=
  match cmd with
  | CmdQuery sql =>
      result <- execute_query client sql ;;
      print_json result ;;;
      ret (0, [])
  | CmdSearch query limit =>
      result <- vector_search client query limit ;;
      print [Lit "Vector Search Results:"] ;;;
      print_json result ;;;
      ret (0, [])
  | CmdSubscribe topic_ =>
      sub <- subscribe_stream client topic_ ;;
      print [Lit "Stream Subscription Created:"] ;;;
      match sub with
      | MockSubscription subscription =>
          print [Lit "  ID: "; Fmt (get_id subscription)] ;;;
          print [Lit "  Topic: "; Fmt (PStr (get_topic subscription))] ;;;
          print [Lit "  Status: "; Fmt (get_status subscription)] ;;;
          ret (0, [])
      | NativeSubscription _ =>
          (* not reached: the client of [main] has no native transport *)
          ret (0, [])
      end
  | CmdCreateTable table schema =>
      create_table client table schema ;;;
      print [Lit "Table '"; Fmt (PStr table); Lit "' created successfully"] ;;;
      ret (0, [])
  | CmdInsert table data =>
      match json_loads env data with
      | Some value =>
          insert_data client [PStr table; value] ;;;
          print [Lit "Data inserted into table '"; Fmt (PStr table);
                 Lit "' successfully"] ;;;
          ret (0, [])
      | None => ret (1, [[Lit "Error: Invalid JSON data"]])
      end
  | CmdCreateIndex table column =>
      create_vector_index client table column ;;;
      print [Lit "Vector index created on "; Fmt (PStr table); Lit ".";
             Fmt (PStr column)] ;;;
      ret (0, [])
  | CmdListTables =>
      tables <- list_tables client ;;
      print [Lit "Tables:"] ;;;
      for_ tables (fun table => print [Lit "  - "; Fmt (PStr table)]) ;;;
      ret (0, [])
  | CmdTableInfo table =>
      info <- get_table_info client table ;;
      print [Lit "Table Info for '"; Fmt (PStr table); Lit "':"] ;;;
      print_json (PDict info) ;;;
      ret (0, [])
  | CmdStats =>
      stats <- get_stats client ;;
      print [Lit "Storage Statistics:"] ;;;
      print_json (PDict stats) ;;;
      ret (0, [])
  | CmdHealth =>
      match package_health_check env with
      | Raise e => reraise e
      | Ok health_check_ =>
          health <- ask (fun _ n => health_check_ n) ;;
          print [Lit "Health Check:"] ;;;
          print_json health ;;;
          ret (0, [])
      end
  | CmdInteractive =>
      run_interactive_mode env client ;;;
      ret (0, [])
  end.

(** [main], on the parsed command line.  It gives the exit status it
    returns and the lines it wrote to [sys.stderr]. *)
Definition main (env : environment) (args : namespace) : M (Z * list stderr_line) :=
  match ns_command args with
  | None => print [Lit (help_text env)] ;;; ret (1, [])
  | Some cmd =>
      try_except
        (client <- VectraClient_init (ns_host args) (ns_port args) false ;;
         run_command env client cmd)
        is_Exception
        (fun e => ret (1, [[Lit "Error: "; Lit (exn_msg e)]]))
  end.

End cli.

(* ================================================================== *)
(** * Vocabulary of the statements, and sample worlds *)

Module Spec.

Import client performance_test.

(** The outcome of one HTTP call as the client makes it: the request, the
    status check, the decoding of the body. *)
Definition exchange (r : result response) : result pyval :=
  match r with
  | Ok resp =>
      match raise_for_status resp with
      | Ok _ => json resp
      | Raise e => Raise e
      end
  | Raise e => Raise e
  end.

(** A response with a success status and the given body. *)
Definition success (body : pyval) : response := mk_response (Ok tt) (Ok body).

(** A response whose status check raises [HTTPError]. *)
Definition http_error (msg : string) : response :=
  mk_response (Raise (mk_exn HTTPError msg)) (Ok (PDict [])).

(** Native bindings on which every call raises [e]. *)
Definition failing_rust (e : exn) : rust_bindings := {|
  rs_new := fun _ _ _ => Ok (mk_rust_object 0);
  rs_execute_query := fun _ _ => Raise e;
  rs_vector_search := fun _ _ _ => Raise e;
  rs_subscribe_stream := fun _ _ => Raise e;
  rs_create_table := fun _ _ _ => Raise e;
  rs_insert_data := fun _ _ _ => Raise e;
  rs_create_vector_index := fun _ _ _ => Raise e;
  rs_list_tables := fun _ => Raise e;
  rs_get_table_info := fun _ _ => Raise e;
  rs_get_stats := fun _ => Raise e
|}.

(** Float texts for the sample worlds: a float is written with its whole
    part and three decimals, and read back from such a text.  The two are
    inverse on the floats that have no more than three decimals. *)
Definition digit (n : Z) : string := str_of_int (n mod 10).

Definition sample_float_repr (q : Q) : string :=
  let thousandths := (Qnum q * 1000) / Zpos (Qden q) in
  let a := Z.abs thousandths in
  (if thousandths <? 0 then "-" else "")
    ++ str_of_int (a / 1000) ++ "."
    ++ digit (a / 100) ++ digit (a / 10) ++ digit a.

Definition digit_value (c : ascii) : option Z :=
  if Json.is_digit c then Some (Z.of_nat (nat_of_ascii c) - 48) else None.

Definition sample_float_of_string (t : string) : option Q :=
  match Json.scan_integer t with
  | Some (i, String "." (String a (String b (String c EmptyString)))) =>
      match NilZero.int_of_string i, digit_value a, digit_value b, digit_value c with
      | Some d, Some x, Some y, Some z =>
          let thousandths := Z.abs (Z.of_int d) * 1000 + (100 * x + 10 * y + z) in
          Some (Qmake (if is_prefix "-" i then - thousandths else thousandths) 1000)
      | _, _, _, _ => None
      end
  | _ => None
  end.

(** A world given by what every HTTP call answers, the clock, and the
    thread schedule. *)
Definition sample_world (answer : result response) (clock : nat -> Q)
    (schedule : Z -> list nat) (bindings : rust_bindings) : world := {|
  requests_post := fun _ _ _ _ => answer;
  requests_get := fun _ _ _ => answer;
  rust := bindings;
  wall_clock := clock;
  open_for_writing := fun _ _ => Ok tt;
  float_repr := sample_float_repr;
  float_of_string := sample_float_of_string;
  thread_schedule := schedule
|}.

(** A clock that advances by one millisecond at every reading. *)
Definition ticking : nat -> Q := fun n => (Z.of_nat n # 1000).

(** A clock too coarse to advance during the run. *)
Definition stuck : nat -> Q := fun _ => 0%Q.

Definition no_preemption : Z -> list nat := fun _ => [].

Definition connection_refused : exn := mk_exn ConnectionError "Connection refused".

Definition http_client : VectraClient :=
  mk_VectraClient "localhost" 8080 "http://localhost:8080" false None.

Definition rust_client : VectraClient :=
  mk_VectraClient "localhost" 8080 "http://localhost:8080" true
    (Some (mk_rust_object 0)).

(** The server answers every call; nothing preempts a worker. *)
Definition healthy_world : world :=
  sample_world (Ok (success (PDict [("status", PStr "healthy")]))) ticking no_preemption
    (failing_rust connection_refused).

(** The server answers every call with the body [null]. *)
Definition null_body_world : world :=
  sample_world (Ok (success PNone)) ticking no_preemption
    (failing_rust connection_refused).



(** No server is listening. *)
Definition offline_world : world :=
  sample_world (Raise connection_refused) ticking no_preemption
    (failing_rust connection_refused).

(** The HTTP branch that [execute_query] and [vector_search] share, up to
    the path and the message. *)
Definition over_http (url : string) (payload : py_dict) (prefix : string) : M pyval :=
  try_except
    (response <- post url payload 30 ;;
     call (raise_for_status response) ;;;
     call (json response))
    is_RequestException
    (fun e => raise RuntimeError (prefix ++ exn_msg e)).

(** The server acknowledges every subscription. *)
Definition acknowledging_world : world :=
  sample_world
    (Ok (success (PDict [("subscription_id", PStr "sub_123");
                         ("status", PStr "active")])))
    ticking no_preemption (failing_rust connection_refused).

(** A computation preserves the relation [R] between the states before
    and after it, whether it returns or raises. *)
Definition preserves (R : pstate -> pstate -> Prop) {A : Type} (m : M A) : Prop :=
  forall w s, R s (snd (m w s)).

(** Every result name of [s] is still a result name of [s']. *)
Definition keeps_results (s s' : pstate) : Prop :=
  forall name, In name (dict_keys (results s)) -> In name (dict_keys (results s')).

(** No file was written between [s] and [s']. *)
Definition writes_nothing (s s' : pstate) : Prop :=
  files_written s' = files_written s.

(** The results are the same in [s] and [s']. *)
Definition same_results (s s' : pstate) : Prop := results s' = results s.

Definition is_file_write (e : event) : bool :=
  match e with
  | FileWrite _ _ => true
  | _ => false
  end.

(** Nothing was recorded and no file was written between [s] and [s']. *)
Definition untouched (s s' : pstate) : Prop :=
  results s' = results s /\ files_written s' = files_written s.

(** The state after one reading of the clock. *)
Definition after_tick (s : pstate) : pstate :=
  {| tick := S (tick s); events := events s; results := results s |}.

(** The state after one more event. *)
Definition after_event (s : pstate) (e : event) : pstate :=
  {| tick := tick s; events := (events s ++ [e])%list; results := results s |}.

(** The server answers every call, but the clock does not advance. *)
Definition stuck_world : world :=
  sample_world (Ok (success (PDict [("status", PStr "healthy")]))) stuck no_preemption
    (failing_rust connection_refused).

(** The tester of a run with the default command line. *)
Definition default_tester : PerformanceTester :=
  mk_PerformanceTester "localhost" 8080 false (Some http_client).

(** A tester whose client uses the native bindings. *)
Definition native_tester : PerformanceTester :=
  mk_PerformanceTester "localhost" 8080 true (Some rust_client).

(** At level 5, worker 0 is preempted after it has loaded the counter;
    worker 3 then runs to its end; then worker 0 stores. *)
Definition preempt_0_by_3 : Z -> list nat :=
  fun level => if level =? 5 then [0; 0; 3; 3; 3; 0]%nat else [].

Definition racing_world : world :=
  sample_world (Ok (success (PDict [("status", PStr "healthy")]))) ticking preempt_0_by_3
    (failing_rust connection_refused).

(** At level 10, worker 0 is preempted after it has loaded the counter;
    worker 1 then runs to its end; then worker 0 stores. *)
Definition preempt_0_by_1 : Z -> list nat :=
  fun level => if level =? 10 then [0; 0; 1; 1; 1; 0]%nat else [].

Definition preempting_world : world :=
  sample_world (Ok (success (PDict [("status", PStr "healthy")]))) ticking preempt_0_by_1
    (failing_rust connection_refused).

(** Whether a line that begins with the text [t] has been printed. *)
Definition printed (t : string) (s : pstate) : bool :=
  existsb (fun e => match e with
                    | Print (Lit t' :: _) => String.eqb t' t
                    | _ => false
                    end) (events s).

(** ** Runs of the workers without preemption *)

(** What the call of a worker did to the counters: counted as completed,
    counted as failed, or neither (the exception left through the
    [except Exception] clause and stays in the future). *)
Definition succeeded (r : result unit) : bool :=
  match r with Ok _ => true | Raise _ => false end.

Definition caught (r : result unit) : bool :=
  match r with Ok _ => false | Raise e => is_Exception e end.

Definition escaped (r : result unit) : option exn :=
  match r with
  | Ok _ => None
  | Raise e => if is_Exception e then None else Some e
  end.

(** The pool of [n] workers once the first ones have run to their end, one
    after the other, their calls having had the outcomes [rs]. *)
Definition pool_after (n : nat) (rs : list (result unit)) : pool :=
  mk_pool (Z.of_nat (length (filter succeeded rs)))
    (Z.of_nat (length (filter caught rs)))
    (map (fun r => Finished (escaped r)) rs ++ repeat Submitted (n - length rs))%list
    (combine (seq 0 (length rs)) (map escaped rs)).

(** The tick never goes back. *)
Definition later (s s' : pstate) : Prop := (tick s <= tick s')%nat.

(** The result names of [s] are distinct. *)
Definition distinct_names (s s' : pstate) : Prop :=
  NoDup (dict_keys (results s)) -> NoDup (dict_keys (results s')).

(** ** What the report can hold *)

(** A character that could continue a number. *)
Definition number_char (c : ascii) : bool :=
  Json.is_digit c || Ascii.eqb c "." || Ascii.eqb c "e" || Ascii.eqb c "E"
  || Ascii.eqb c "+" || Ascii.eqb c "-".

(** A text that may follow a value: it does not continue a number. *)
Definition safe_rest (rest : string) : Prop :=
  match rest with
  | EmptyString => True
  | String c _ => number_char c = false
  end.

(** A character with which a value may begin in the text [json.dump]
    writes: not white space, and none of the closing or separating marks. *)
Definition value_start (c : ascii) : bool :=
  negb (Json.is_whitespace c || Ascii.eqb c "]" || Ascii.eqb c "}"
        || Ascii.eqb c "," || Ascii.eqb c ":").

(** The text of the float [q] is a float literal that reads back as the
    same number, as is true of [repr] and [float] on every finite float.
    Floats are rationals here, so the same number may come back as another
    fraction: [2/1] for [4/2]. *)
Definition float_reads_back (repr : Q -> string) (parse : string -> option Q)
    (q : Q) : bool :=
  Json.float_literal (repr q) &&
  match parse (repr q) with
  | Some q' => Qeq_bool q' q
  | None => false
  end.

(** A value of which [json.dump] and [json.load] are inverse: each of its
    floats reads back, and the keys of each of its dictionaries are
    distinct (true of every [dict]). *)
#[local] Set Warnings "-register-all".

Inductive serializable (repr : Q -> string) (parse : string -> option Q)
  : pyval -> Prop :=
| ser_none : serializable repr parse PNone
| ser_bool (b : bool) : serializable repr parse (PBool b)
| ser_int (z : Z) : serializable repr parse (PInt z)
| ser_str (t : string) : serializable repr parse (PStr t)
| ser_float (q : Q) :
    float_reads_back repr parse q = true ->
    serializable repr parse (PFloat q)
| ser_list (l : list pyval) :
    Forall (serializable repr parse) l ->
    serializable repr parse (PList l)
| ser_dict (d : py_dict) :
    NoDup (dict_keys d) ->
    Forall (fun kv => serializable repr parse (snd kv)) d ->
    serializable repr parse (PDict d).

#[local] Set Warnings "+register-all".

(** The number of nodes of a value, one more for each element or member:
    the fuel the decoder needs for it. *)
Fixpoint size (v : pyval) : nat :=
  match v with
  | PList l => S (list_sum (map (fun x => S (size x)) l))
  | PDict d => S (list_sum (map (fun kv => S (size (snd kv))) d))
  | _ => 1
  end.

(** The value that the decoder builds from the text of [v]: [v] itself,
    with each float as its text reads. *)
Fixpoint as_read (repr : Q -> string) (parse : string -> option Q) (v : pyval)
  : pyval :=
  match v with
  | PFloat q =>
      match parse (repr q) with
      | Some q' => PFloat q'
      | None => v
      end
  | PList l => PList (map (as_read repr parse) l)
  | PDict d => PDict (map (fun kv => (fst kv, as_read repr parse (snd kv))) d)
  | _ => v
  end.

(** The decoder reads [v] back from its text, whatever safe text follows
    it, once it has fuel for the size of [v]. *)
Definition reads_back (repr : Q -> string) (parse : string -> option Q)
    (v : pyval) : Prop :=
  forall (level : nat) (rest : string) (fuel : nat),
    safe_rest rest -> (size v <= fuel)%nat ->
    Json.scan_once parse fuel (Json.encode repr level v ++ rest) =
    Some (as_read repr parse v, rest).

Definition all2 {A B : Type} (f : A -> B -> bool) : list A -> list B -> bool :=
  fix go (l : list A) (l' : list B) : bool :=
    match l, l' with
    | [], [] => true
    | a :: t, b :: t' => f a b && go t t'
    | _, _ => false
    end.

(** The same value: the same kind of value, the same elements in the same
    order, the same keys in the same order, and floats that are the same
    number. *)
Fixpoint same_value (a b : pyval) : bool :=
  match a, b with
  | PNone, PNone => true
  | PBool x, PBool y => Bool.eqb x y
  | PInt x, PInt y => x =? y
  | PFloat x, PFloat y => Qeq_bool x y
  | PStr x, PStr y => String.eqb x y
  | PList x, PList y => all2 same_value x y
  | PDict x, PDict y =>
      all2 (fun kv kv' => String.eqb (fst kv) (fst kv') && same_value (snd kv) (snd kv'))
        x y
  | _, _ => false
  end.

(** The floats of a value. *)
Fixpoint floats (v : pyval) : list Q :=
  match v with
  | PFloat q => [q]
  | PList l => flat_map floats l
  | PDict d => flat_map (fun kv => floats (snd kv)) d
  | _ => []
  end.

(** A result set as the harness holds them: the names of the results are
    distinct, and each result is a dictionary of numbers and strings under
    distinct field names. *)
Definition scalar (v : pyval) : bool :=
  match v with
  | PList _ | PDict _ => false
  | _ => true
  end.

Fixpoint distinct (l : list string) : bool :=
  match l with
  | [] => true
  | k :: l' => negb (existsb (String.eqb k) l') && distinct l'
  end.

Definition flat_record (v : pyval) : bool :=
  match v with
  | PDict fields =>
      distinct (dict_keys fields) && forallb (fun kv => scalar (snd kv)) fields
  | _ => false
  end.

Definition result_set (rs : py_dict) : bool :=
  distinct (dict_keys rs) && forallb (fun kv => flat_record (snd kv)) rs.

(** The state in which a run of the phases leaves a new tester when no
    server is listening. *)
Definition offline_run : pstate := snd (run_all_tests default_tester offline_world initial).

(** ** Scenarios of use *)

(** A caller subscribes to a topic and, holding a mock handle, cancels the
    subscription twice. *)
Definition subscribe_then_unsubscribe (self : VectraClient) (topic_ : string)
  : M unit :=
  sub <- subscribe_stream self topic_ ;;
  match sub with
  | MockSubscription handle => unsubscribe handle ;;; unsubscribe handle
  | NativeSubscription _ => ret tt
  end.

(** Whether an event is an interaction with the server or with the native
    client. *)
Definition is_remote (e : event) : bool := is_http e || is_native e.

(** Every call raises [KeyboardInterrupt]. *)
Definition interrupted_world : world :=
  sample_world (Raise (mk_exn KeyboardInterrupt "")) ticking no_preemption
    (failing_rust connection_refused).


Definition is_print (e : event) : bool :=
  match e with
  | Print _ => true
  | _ => false
  end.

(** Between [s] and [s'] nothing happened that an observer could see but
    printed lines. *)
Definition printing (s s' : pstate) : Prop :=
  exists lines, events s' = (events s ++ lines)%list /\ forallb is_print lines = true.

(** Nothing was recorded either. *)
Definition only_prints (s s' : pstate) : Prop :=
  results s' = results s /\ printing s s'.

(** ** Runs of the workers under any schedule *)

Definition finished (pc : worker_pc) : bool :=
  match pc with
  | Finished _ => true
  | _ => false
  end.

(** A worker that has stored its increment. *)
Definition counted (pc : worker_pc) : bool :=
  match pc with
  | Finished None => true
  | _ => false
  end.

(** The steps a worker has still to take. *)
Definition remaining (pc : worker_pc) : nat :=
  match pc with
  | Submitted => 3
  | Succeeded | Failed => 2
  | LoadedCompleted _ | LoadedFailed _ => 1
  | Finished _ => 0
  end.

(** The value a worker has loaded is a count that [a] completions or [b]
    failures allow. *)
Definition loaded_within (a b : Z) (pc : worker_pc) : Prop :=
  match pc with
  | LoadedCompleted v => 0 <= v <= a
  | LoadedFailed v => 0 <= v <= b
  | _ => True
  end.

(** The counters of a pool, and the values its workers have loaded, are
    bounded by the numbers [a] and [b] of the workers that have stored a
    completion and a failure; and the futures that are done are the workers
    that have finished. *)
Definition consistent (p : pool) : Prop :=
  exists a b,
    0 <= a /\ 0 <= b /\
    a + b = Z.of_nat (length (filter counted (workers p))) /\
    0 <= completed_operations p <= a /\
    0 <= failed_operations p <= b /\
    Forall (loaded_within a b) (workers p) /\
    length (done p) = length (filter finished (workers p)).

(** No worker of [ws'] is behind where it is in [ws]. *)
Definition no_regress (ws ws' : list worker_pc) : Prop :=
  Forall2 (fun pc pc' => (remaining pc' <= remaining pc)%nat) ws ws'.


(** ** What the phases record, and what the summary reads *)

(** The names under which the phases record their results. *)
Definition result_names : list string :=
  ["connection"; "table_creation";
   "data_insertion_100b"; "data_insertion_1000b"; "data_insertion_10000b";
   "query_1"; "query_2"; "query_3";
   "vector_search_5"; "vector_search_10"; "vector_search_20"; "vector_search_50";
   "concurrent_5"; "concurrent_10"; "concurrent_20";
   "memory_usage"; "stress_rapid_operations"; "stress_large_data"].

(** [v[k]] exists. *)
Definition present (v : pyval) (k : string) : bool :=
  match v with
  | PDict d => match dict_get d k with Some _ => true | None => false end
  | _ => false
  end.

(** [v[k]] exists and is a number, which the format [.2f] accepts. *)
Definition numeric (v : pyval) (k : string) : bool :=
  match v with
  | PDict d =>
      match dict_get d k with
      | Some (PFloat _) | Some (PInt _) | Some (PBool _) => true
      | _ => false
      end
  | _ => false
  end.

(** The fields that [print_summary] reads of the result [name], each with
    whether it is formatted as a number. *)
Definition fields_read (name : string) : list (string * bool) :=
  ((if String.eqb name "connection" then [("avg_time_ms", true)] else [])
   ++ (if String.eqb name "table_creation" then [("avg_time_ms", true)] else [])
   ++ (if is_prefix "data_insertion_" name
       then [("avg_time_ms", true); ("throughput_kbs", true)] else [])
   ++ (if is_prefix "query_" name then [("avg_time_ms", true)] else [])
   ++ (if is_prefix "vector_search_" name
       then [("limit", false); ("avg_time_ms", true)] else [])
   ++ (if is_prefix "concurrent_" name
       then [("concurrency_level", false); ("throughput_ops_per_sec", true)] else [])
   ++ (if String.eqb name "stress_rapid_operations" then [("avg_time_ms", true)] else [])
   ++ (if String.eqb name "stress_large_data"
       then [("data_size_kb", false); ("avg_time_ms", true)] else []))%list.

(** A result that holds every field the summary reads of it. *)
Definition summarizable (kv : string * pyval) : bool :=
  forallb
    (fun f : string * bool =>
       if snd f then numeric (snd kv) (fst f) else present (snd kv) (fst f))
    (fields_read (fst kv)).

(** A result as the phases record them: under one of their names, with
    the fields the summary reads, all its fields numbers and strings. *)
Definition well_formed (kv : string * pyval) : bool :=
  existsb (String.eqb (fst kv)) result_names && summarizable kv
  && flat_record (snd kv).

(** Every result of [s'] was a result of [s] already, or is well formed. *)
Definition recorded_since (s s' : pstate) : Prop :=
  forall kv, In kv (results s') -> In kv (results s) \/ well_formed kv = true.

(** A step of the summary, run on the results [R]: it returns, and does
    nothing but print. *)
Definition summary_step (R : py_dict) (m : M unit) : Prop :=
  forall w s, results s = R -> exists s', m w s = (Ok tt, s') /\ only_prints s s'.



(** ** The command-line tool *)

(** Whether every outcome of a computation satisfies [P], when it
    returns. *)
Definition returns_only {A : Type} (P : A -> Prop) (m : M A) : Prop :=
  forall w s, match fst (m w s) with Ok r => P r | Raise _ => True end.

(** The exits of a command of the tool: success, or the complaint about
    the JSON text. *)
Definition command_exit (r : Z * list cli.stderr_line) : Prop :=
  r = (0, []) \/ r = (1, [[Lit "Error: Invalid JSON data"]]).

(** The request that the interactive mode makes for the line [raw]. *)
Definition sql_request (client : VectraClient) (raw : string) : event :=
  HttpPost (base_url client ++ "/query") [("query", PStr (cli.strip raw))] 30.

(** The line [raw] is sent to the server as a query: without the white
    space around it, it begins with one of the five SQL words, in any
    case. *)
Definition sent_as_query (raw : string) : bool :=
  cli.starts_with_sql (cli.lower (cli.strip raw)).

(** The requests among [x] are queries for lines of [lines] that are sent
    as queries. *)
Definition requests_from (client : VectraClient) (lines : list (result string))
    (x : list event) : Prop :=
  Forall (fun e => exists raw, In (Ok raw) lines /\ sent_as_query raw = true /\
                               e = sql_request client raw)
    (filter is_http x).

(** An environment without the native bindings, in which the lines of
    [lines] are typed. *)
Definition sample_environment (lines : list (result string)) : cli.environment := {|
  cli.help_text := "usage: vectra [-h] [--host HOST] [--port PORT] ...";
  cli.json_loads := Json.loads sample_float_of_string;
  cli.package_health_check :=
    Raise (mk_exn ImportError "cannot import name 'health_check' from 'vectra'");
  cli.stdin := lines
|}.

(** The calls that a loop of measurements makes from the state [s], in
    order, each with its outcome.  The loop reads the clock and then makes
    the call; a call that returns is followed by a second reading of the
    clock, a call that raises an [Exception] by the printed message; after
    a call that raises anything else the loop makes no further call. *)
Fixpoint calls {A : Type} (l : list Z) (op : Z -> M A)
    (message : Z -> exn -> list fpart) (w : world) (s : pstate) : list (result A) :=
  match l with
  | [] => []
  | i :: l' =>
      let out := op i w (after_tick s) in
      fst out ::
      match fst out with
      | Ok _ => calls l' op message w (after_tick (snd out))
      | Raise e =>
          if is_Exception e
          then calls l' op message w (after_event (snd out) (Print (message i e)))
          else []
      end
  end.

(** How many of the calls returned. *)
Definition successful {A : Type} (outcomes : list (result A)) : Z :=
  Z.of_nat (length (filter (fun r => negb (raised r)) outcomes)).

(** The line printed by the connection phase before its first check, and
    the lines printed for a check, a query and a search that failed. *)
Definition connection_banner : event :=
  Print [Lit (nl ++ "🔌 Testing Connection Performance...")].

Definition connection_failed (i : Z) (e : exn) : list fpart :=
  [Lit "  Connection "; Fmt (PInt (i + 1)); Lit " failed: "; Lit (exn_msg e)].

Definition query_failed (i j : Z) (e : exn) : list fpart :=
  [Lit "  Query "; Fmt (PInt (i + 1)); Lit " execution "; Fmt (PInt (j + 1));
   Lit " failed: "; Lit (exn_msg e)].

Definition search_failed (i : Z) (e : exn) : list fpart :=
  [Lit "  Vector search "; Fmt (PInt (i + 1)); Lit " failed: "; Lit (exn_msg e)].

End Spec.

(* ================================================================== *)
(** * Properties of the client *)

Import client performance_test Spec.

Lemma skipn_length_app {A : Type} (l x : list A) : skipn (length l) (l ++ x) = x.
Proof. induction l; simpl; auto. Qed.

(** The events of a computation that appends [x] to the log. *)
Lemma events_of_appended {A : Type} (m : M A) (w : world) (s : pstate) (x : list event) :
  events (snd (m w s)) = (events s ++ x)%list -> events_of m w s = x.
Proof. intros H. unfold events_of. rewrite H. apply skipn_length_app. Qed.

Lemma over_http_outcome (url : string) (payload : py_dict) (prefix : string)
    (w : world) (s : pstate) :
  fst (over_http url payload prefix w s) =
  match exchange (requests_post w (tick s) url payload 30) with
  | Ok d => Ok d
  | Raise e =>
      if is_RequestException e then Raise (mk_exn RuntimeError (prefix ++ exn_msg e))
      else Raise e
  end.
Proof.
  unfold over_http, try_except, bind, post, emit, ask, call, raise, exchange. simpl.
  destruct (requests_post w (tick s) url payload 30) as [resp|e]; simpl.
  - destruct (raise_for_status resp) as [[]|e]; simpl.
    + destruct (json resp) as [d|e]; simpl; [reflexivity|].
      destruct (is_RequestException e); reflexivity.
    + destruct (is_RequestException e); reflexivity.
  - destruct (is_RequestException e); reflexivity.
Qed.

Lemma events_of_over_http (url : string) (payload : py_dict) (prefix : string)
    (w : world) (s : pstate) :
  events_of (over_http url payload prefix) w s = [HttpPost url payload 30].
Proof.
  apply events_of_appended.
  unfold over_http, try_except, bind, post, emit, ask, call, raise. simpl.
  destruct (requests_post w (tick s) url payload 30) as [resp|e]; simpl.
  - destruct (raise_for_status resp) as [[]|e]; simpl.
    + destruct (json resp) as [d|e]; simpl; [reflexivity|].
      destruct (is_RequestException e); reflexivity.
    + destruct (is_RequestException e); reflexivity.
  - destruct (is_RequestException e); reflexivity.
Qed.

Lemma execute_query_http (self : VectraClient) (sql : string) :
  embedded self = false ->
  execute_query self sql =
  over_http (base_url self ++ "/query") [("query", PStr sql)] "Failed to execute query: ".
Proof. intros H. unfold execute_query. rewrite H. reflexivity. Qed.




(** C5.  On the network transport, [subscribe_stream] builds the handle
    from the acknowledgement: its id is the acknowledgement's
    [subscription_id], its topic the requested topic, its status the
    acknowledgement's [status]; when the HTTP call fails, a [RuntimeError]
    whose message is [Failed to subscribe to stream: ] followed by the
    cause is raised. *)
Theorem subscribe_stream_handle_from_acknowledgement
    (self : VectraClient) (topic_ : string) (w : world) (s : pstate)
    (Hnet : embedded self = false) :
  let call_outcome :=
    exchange (requests_post w (tick s) (base_url self ++ "/stream/subscribe")
                [("topic", PStr topic_)] 30) in
  let outcome := fst (subscribe_stream self topic_ w s) in
  (forall ack sid st,
     call_outcome = Ok (PDict ack) ->
     dict_get ack "subscription_id" = Some sid ->
     dict_get ack "status" = Some st ->
     exists handle,
       outcome = Ok (MockSubscription handle) /\
       get_id handle = sid /\ get_topic handle = topic_ /\ get_status handle = st) /\
  (forall cause, call_outcome = Raise cause -> is_RequestException cause = true ->
     exists msg,
       outcome = Raise (mk_exn RuntimeError msg) /\
       msg = "Failed to subscribe to stream: " ++ exn_msg cause /\
       contains "Failed to subscribe to stream" msg = true).
Proof.
  intros call_outcome outcome. subst outcome call_outcome.
  unfold subscribe_stream. rewrite Hnet.
  unfold try_except, bind, post, emit, ask, call, raise, ret, exchange. simpl.
  destruct (requests_post w (tick s) (base_url self ++ "/stream/subscribe")
              [("topic", PStr topic_)] 30) as [resp|e]; simpl.
  - destruct (raise_for_status resp) as [[]|e]; simpl.
    + destruct (json resp) as [d|e]; simpl.
      * split; [|discriminate].
        intros ack sid st [= ->] Hid Hst. unfold get_or, ret, dict_get_default.
        rewrite Hid, Hst. eexists. split; [reflexivity|]. repeat split.
      * split; [discriminate|]. intros cause [= <-] Hreq. rewrite Hreq.
        eexists. repeat split.
    + split; [discriminate|]. intros cause [= <-] Hreq. rewrite Hreq.
      eexists. repeat split.
  - split; [discriminate|]. intros cause [= <-] Hreq. rewrite Hreq.
    eexists. repeat split.
Qed.

Lemma subscribe_stream_handle_from_acknowledgement_witness :
  embedded http_client = false /\
  fst (subscribe_stream http_client "topic_x" acknowledging_world initial) =
  Ok (MockSubscription
        (mk_MockStreamSubscription (PStr "sub_123") "topic_x" (PStr "active"))) /\
  fst (subscribe_stream http_client "topic_x" offline_world initial) =
  Raise (mk_exn RuntimeError "Failed to subscribe to stream: Connection refused").
Proof.
  split; [reflexivity|]. split.
  - destruct (subscribe_stream_handle_from_acknowledgement http_client "topic_x"
                acknowledging_world initial eq_refl) as (H & _).
    destruct (H _ (PStr "sub_123") (PStr "active") eq_refl eq_refl eq_refl)
      as (handle & -> & Hid & Htopic & Hst).
    destruct handle as [i t st]; simpl in *. now subst.
  - destruct (subscribe_stream_handle_from_acknowledgement http_client "topic_x"
                offline_world initial eq_refl) as (_ & H).
    destruct (H connection_refused eq_refl eq_refl) as (msg & -> & -> & _).
    reflexivity.
Defined.

(** ** The mock index *)

Lemma search_results (self : MockVectorIndex) (query_vector : list Q) (limit : pyval) :
  exists l, dict_get (search self query_vector limit) "results" = Some (PList l)
            /\ length l = 2%nat.
Proof. eexists. split; reflexivity. Qed.

Lemma search_limit_field (self : MockVectorIndex) (query_vector : list Q) (limit : pyval) :
  dict_get (search self query_vector limit) "limit" = Some (py_or limit (PInt 10)).
Proof. reflexivity. Qed.

(** C7.  [search] without a limit uses 10; with an explicit limit [n >= 1]
    the payload's [limit] is [n] and its [results] are not empty (two
    entries, the cap of the mock); with 5 the field is 5. *)
Theorem search_limit_default_and_explicit
    (self : MockVectorIndex) (query_vector : list Q) (n : Z) (Hn : 1 <= n) :
  dict_get (search self query_vector search_default_limit) "limit" = Some (PInt 10) /\
  dict_get (search self query_vector (PInt n)) "limit" = Some (PInt n) /\
  (exists l, dict_get (search self query_vector (PInt n)) "results" = Some (PList l)
             /\ (0 < length l <= 2)%nat) /\
  dict_get (search self query_vector (PInt 5)) "limit" = Some (PInt 5).
Proof.
  repeat split.
  - rewrite search_limit_field. unfold py_or, truthy.
    destruct (Z.eqb_spec n 0) as [->|_]; [lia|reflexivity].
  - destruct (search_results self query_vector (PInt n)) as (l & Hl & Hlen).
    exists l. split; [exact Hl|lia].
Qed.

Lemma search_limit_default_and_explicit_witness :
  (1 <= 5) /\
  dict_get (search (mk_MockVectorIndex "test_table" "embedding")
              [(1 # 10); (2 # 10); (3 # 10)]%Q (PInt 5)) "limit" = Some (PInt 5).
Proof.
  split; [lia|].
  apply (search_limit_default_and_explicit (mk_MockVectorIndex "test_table" "embedding")
           [(1 # 10); (2 # 10); (3 # 10)]%Q 5 ltac:(lia)).
Defined.

(** C10.  A limit that is false in a boolean context (0, [None], ...) is
    replaced by 10, whether or not it was passed explicitly. *)
Theorem search_falsy_limit_is_ten
    (self : MockVectorIndex) (query_vector : list Q) (limit : pyval)
    (Hfalsy : truthy limit = false) :
  dict_get (search self query_vector limit) "limit" = Some (PInt 10) /\
  dict_get (search self query_vector (PInt 0)) "limit" = Some (PInt 10) /\
  dict_get (search self query_vector PNone) "limit" = Some (PInt 10).
Proof.
  repeat split. rewrite search_limit_field. unfold py_or. now rewrite Hfalsy.
Qed.

Lemma search_falsy_limit_is_ten_witness :
  truthy (PInt 0) = false /\
  dict_get (search (mk_MockVectorIndex "test_table" "embedding") [] (PInt 0)) "limit"
  = Some (PInt 10).
Proof.
  split; [reflexivity|].
  apply (search_falsy_limit_is_ten (mk_MockVectorIndex "test_table" "embedding") []
           (PInt 0) eq_refl).
Defined.

(** ** Transport dispatch *)

Lemma events_of_native {A : Type} (method : string) (args : list pyval)
    (oracle : rust_bindings -> nat -> result A) (w : world) (s : pstate) :
  events_of (native method args oracle) w s = [RustCall method args].
Proof. apply events_of_appended. reflexivity. Qed.

Lemma events_of_native_then {A B : Type} (method : string) (args : list pyval)
    (oracle : rust_bindings -> nat -> result A) (f : A -> B) (w : world) (s : pstate) :
  events_of (o <- native method args oracle ;; ret (f o)) w s = [RustCall method args].
Proof.
  apply events_of_appended.
  unfold native, bind, emit, ask, ret. simpl.
  destruct (oracle (rust w) (tick s)); reflexivity.
Qed.

Lemma events_of_health_check (self : VectraClient) (w : world) (s : pstate) :
  events_of (health_check self) w s = [HttpGet (base_url self ++ "/health") 10].
Proof.
  apply events_of_appended.
  unfold health_check, try_except, bind, get, emit, ask, call, raise. simpl.
  destruct (requests_get w (tick s) (base_url self ++ "/health") 10) as [resp|e]; simpl.
  - destruct (raise_for_status resp) as [[]|e]; simpl.
    + destruct (json resp) as [d|e]; simpl; [reflexivity|].
      destruct (is_RequestException e); reflexivity.
    + destruct (is_RequestException e); reflexivity.
  - destruct (is_RequestException e); reflexivity.
Qed.

(** C9.  Whatever the transport mode, [health_check] issues the HTTP [GET]
    of [/health] with a timeout of 10 seconds, and nothing else; on a
    client with the embedded transport every other public operation goes
    to the native client instead, so [health_check] is the only one that
    does not. *)
Theorem health_check_always_over_http
    (self : VectraClient) (w : world) (s : pstate) :
  events_of (health_check self) w s = [HttpGet (base_url self ++ "/health") 10] /\
  (forall o : operation, embedded self = true ->
     (o = HealthCheck /\
      perform self o w s = [HttpGet (base_url self ++ "/health") 10]) \/
     (o <> HealthCheck /\
      exists method args, perform self o w s = [RustCall method args])).
Proof.
  split; [apply events_of_health_check|].
  intros o Hemb.
  destruct o; simpl;
    try (left; split; [reflexivity|apply events_of_health_check]);
    right; (split; [discriminate|]).
  - unfold execute_query. rewrite Hemb. eexists _, _. apply events_of_native.
  - unfold vector_search. rewrite Hemb. eexists _, _. apply events_of_native.
  - unfold subscribe_stream. rewrite Hemb. eexists _, _. apply events_of_native_then.
  - unfold create_table. rewrite Hemb. eexists _, _. apply events_of_native.
  - unfold insert_data. rewrite Hemb. eexists _, _. apply events_of_native.
  - unfold create_vector_index. rewrite Hemb. eexists _, _. apply events_of_native_then.
  - unfold list_tables. rewrite Hemb. eexists _, _. apply events_of_native.
  - unfold get_table_info. rewrite Hemb. eexists _, _. apply events_of_native.
  - unfold get_stats. rewrite Hemb. eexists _, _. apply events_of_native.
Qed.

Lemma health_check_always_over_http_witness :
  embedded rust_client = true /\
  perform rust_client HealthCheck offline_world initial
  = [HttpGet "http://localhost:8080/health" 10] /\
  perform rust_client GetStats offline_world initial = [RustCall "get_stats" []].
Proof.
  split; [reflexivity|].
  destruct (health_check_always_over_http rust_client offline_world initial) as (_ & H).
  split.
  - destruct (H HealthCheck eq_refl) as [(_ & E)|(N & _)]; [exact E|].
    exfalso. apply N. reflexivity.
  - destruct (H GetStats eq_refl) as [(E & _)|(_ & m & a & E)]; [discriminate E|].
    reflexivity.
Defined.

(* ================================================================== *)
(** * Properties of the harness *)

(** ** What every phase preserves

    A relation between states that is a preorder and that holds across a
    tick, across an event other than a file write, and across the recording
    of a result, holds across every phase. *)

Section Preservation.

Variable R : pstate -> pstate -> Prop.
Hypothesis R_refl : forall s, R s s.
Hypothesis R_trans : forall a b c, R a b -> R b c -> R a c.
Hypothesis R_tick : forall s,
  R s {| tick := S (tick s); events := events s; results := results s |}.
Hypothesis R_emit : forall s e, is_file_write e = false ->
  R s {| tick := tick s; events := (events s ++ [e])%list; results := results s |}.
Hypothesis R_record : forall s name value,
  R s {| tick := tick s; events := events s;
         results := dict_set (results s) name value |}.

Lemma preserves_ret {A : Type} (a : A) : preserves R (ret a).
Proof. intros w s. apply R_refl. Qed.

Lemma preserves_raise {A : Type} (c : exn_class) (msg : string) :
  preserves R (@raise A c msg).
Proof. intros w s. apply R_refl. Qed.

Lemma preserves_reraise {A : Type} (e : exn) : preserves R (@reraise A e).
Proof. intros w s. apply R_refl. Qed.

Lemma preserves_call {A : Type} (r : result A) : preserves R (call r).
Proof. intros w s. apply R_refl. Qed.

Lemma preserves_get_results : preserves R get_results.
Proof. intros w s. apply R_refl. Qed.

Lemma preserves_emit (e : event) : is_file_write e = false -> preserves R (emit e).
Proof. intros H w s. apply R_emit, H. Qed.

Lemma preserves_print (line : list fpart) : preserves R (print line).
Proof. apply preserves_emit. reflexivity. Qed.

Lemma preserves_ask {A : Type} (oracle : world -> nat -> result A) :
  preserves R (ask oracle).
Proof. intros w s. apply R_tick. Qed.

Lemma preserves_time_time : preserves R time_time.
Proof. apply preserves_ask. Qed.

Lemma preserves_bind {A B : Type} (m : M A) (k : A -> M B) :
  preserves R m -> (forall a, preserves R (k a)) -> preserves R (bind m k).
Proof.
  intros Hm Hk w s. unfold bind. specialize (Hm w s).
  destruct (m w s) as [[a|e] s']; simpl in *; [|exact Hm].
  eapply R_trans; [exact Hm|apply Hk].
Qed.

Lemma preserves_try_except {A : Type} (body : M A) (catches : exn -> bool)
    (handler : exn -> M A) :
  preserves R body -> (forall e, preserves R (handler e)) ->
  preserves R (try_except body catches handler).
Proof.
  intros Hb Hh w s. unfold try_except. specialize (Hb w s).
  destruct (body w s) as [[a|e] s']; simpl in *; [exact Hb|].
  destruct (catches e); simpl; [|exact Hb].
  eapply R_trans; [exact Hb|apply Hh].
Qed.

Lemma preserves_for_each {A S : Type} (l : list A) (body : A -> S -> M S) (acc : S) :
  (forall x a, preserves R (body x a)) -> preserves R (for_each l body acc).
Proof.
  intros Hb. revert acc. induction l as [|x l IH]; intros acc; simpl.
  - apply preserves_ret.
  - apply preserves_bind; [apply Hb|exact IH].
Qed.

Lemma preserves_for_ {A : Type} (l : list A) (body : A -> M unit) :
  (forall x, preserves R (body x)) -> preserves R (for_ l body).
Proof. intros Hb. apply preserves_for_each. intros x _. apply Hb. Qed.

Lemma preserves_truediv (a b : Q) : preserves R (truediv a b).
Proof.
  unfold truediv. destruct (Qeq_bool b 0); [apply preserves_raise|apply preserves_ret].
Qed.

Lemma preserves_timed {A : Type} (op : M A) (message : exn -> list fpart)
    (times : list Q) :
  preserves R op -> preserves R (timed op message times).
Proof.
  intros Hop. unfold timed.
  apply preserves_bind; [apply preserves_time_time|intros start_time].
  apply preserves_try_except.
  - apply preserves_bind; [exact Hop|intros _].
    apply preserves_bind; [apply preserves_time_time|intros now].
    apply preserves_ret.
  - intros e. apply preserves_bind; [apply preserves_print|intros _].
    apply preserves_ret.
Qed.

Lemma preserves_native {A : Type} (method : string) (args : list pyval)
    (oracle : rust_bindings -> nat -> result A) :
  preserves R (native method args oracle).
Proof.
  unfold native. apply preserves_bind; [now apply preserves_emit|intros _].
  apply preserves_ask.
Qed.

Lemma preserves_over_http (url : string) (payload : py_dict) (prefix : string) :
  preserves R (over_http url payload prefix).
Proof.
  unfold over_http. apply preserves_try_except.
  - apply preserves_bind.
    + unfold post. apply preserves_bind; [now apply preserves_emit|intros _].
      apply preserves_ask.
    + intros resp. apply preserves_bind; [apply preserves_call|intros _].
      apply preserves_call.
  - intros e. apply preserves_raise.
Qed.

Lemma preserves_execute_query (c : VectraClient) (sql : string) :
  preserves R (execute_query c sql).
Proof.
  unfold execute_query. destruct (embedded c).
  - apply preserves_native.
  - apply preserves_over_http.
Qed.

Lemma preserves_vector_search (c : VectraClient) (query : string) (limit : Z) :
  preserves R (vector_search c query limit).
Proof.
  unfold vector_search. destruct (embedded c).
  - apply preserves_native.
  - apply (preserves_over_http _ _ "Failed to perform vector search: ").
Qed.

Lemma preserves_get_stats (c : VectraClient) : preserves R (get_stats c).
Proof.
  unfold get_stats. destruct (embedded c); [apply preserves_native|apply preserves_ret].
Qed.

Lemma preserves_create_table (c : VectraClient) (name schema : string) :
  preserves R (create_table c name schema).
Proof.
  unfold create_table. destruct (embedded c);
    [apply preserves_native|apply preserves_print].
Qed.

Lemma preserves_insert_data (c : VectraClient) (args : list pyval) :
  preserves R (insert_data c args).
Proof.
  unfold insert_data.
  destruct args as [|a [|b [|d args]]]; try apply preserves_raise.
  destruct (embedded c); [apply preserves_native|apply preserves_print].
Qed.

Lemma preserves_health_check (c : VectraClient) : preserves R (health_check c).
Proof.
  unfold health_check. apply preserves_try_except.
  - apply preserves_bind.
    + unfold get. apply preserves_bind; [now apply preserves_emit|intros _].
      apply preserves_ask.
    + intros resp. apply preserves_bind; [apply preserves_call|intros _].
      apply preserves_call.
  - intros e. apply preserves_raise.
Qed.

Lemma preserves_worker_operation (c : VectraClient) (worker_id : Z) :
  preserves R (worker_operation c worker_id).
Proof.
  unfold worker_operation.
  destruct (worker_id mod 3 =? 0); [|destruct (worker_id mod 3 =? 1)];
    (apply preserves_bind; [|intros _; apply preserves_ret]).
  - apply preserves_execute_query.
  - apply preserves_vector_search.
  - apply preserves_get_stats.
Qed.

Lemma preserves_step (c : VectraClient) (i : nat) (p : pool) :
  preserves R (step c i p).
Proof.
  unfold step. destruct (nth_error (workers p) i) as [[| | | | |]|];
    try apply preserves_ret.
  intros w s. pose proof (preserves_worker_operation c (Z.of_nat i) w s) as H.
  destruct (worker_operation c (Z.of_nat i) w s) as [[u|e] s']; simpl in *.
  - exact H.
  - destruct (is_Exception e); exact H.
Qed.

Lemma preserves_run_workers (c : VectraClient) (level : Z) :
  preserves R (run_workers c level).
Proof.
  unfold run_workers. apply preserves_bind.
  - intros w s. apply (preserves_for_each (thread_schedule w level) (step c)).
    intros x a. apply preserves_step.
  - intros p1. unfold join_all. apply preserves_for_each.
    intros x a. apply preserves_step.
Qed.

Lemma preserves_collect (p : pool) : preserves R (collect p).
Proof.
  unfold collect. apply preserves_for_. intros [i [e|]]; simpl.
  - destruct (is_Exception e); [apply preserves_ret|apply preserves_reraise].
  - apply preserves_ret.
Qed.

Lemma preserves_record (name : string) (value : py_dict) :
  preserves R (record name value).
Proof. intros w s. apply R_record. Qed.

(** The goals of this section are solved by following the structure of the
    computation. *)
Lemma preserves_subscript (v : pyval) (k : string) : preserves R (subscript v k).
Proof.
  unfold subscript. destruct v; try apply preserves_raise.
  destruct (dict_get d k); [apply preserves_ret|apply preserves_raise].
Qed.

Lemma preserves_format_2f (v : pyval) : preserves R (format_2f v).
Proof.
  unfold format_2f. destruct v; first [apply preserves_ret|apply preserves_raise].
Qed.

Ltac preserve_step :=
  lazymatch goal with
  | |- preserves _ (subscript _ _) => apply preserves_subscript
  | |- preserves _ (format_2f _) => apply preserves_format_2f
  | |- preserves _ (ret _) => apply preserves_ret
  | |- preserves _ (raise _ _) => apply preserves_raise
  | |- preserves _ (print _) => apply preserves_print
  | |- preserves _ (record _ _) => apply preserves_record
  | |- preserves _ get_results => apply preserves_get_results
  | |- preserves _ time_time => apply preserves_time_time
  | |- preserves _ (truediv _ _) => apply preserves_truediv
  | |- preserves _ (health_check _) => apply preserves_health_check
  | |- preserves _ (create_table _ _ _) => apply preserves_create_table
  | |- preserves _ (insert_data _ _) => apply preserves_insert_data
  | |- preserves _ (execute_query _ _) => apply preserves_execute_query
  | |- preserves _ (vector_search _ _ _) => apply preserves_vector_search
  | |- preserves _ (get_stats _) => apply preserves_get_stats
  | |- preserves _ (run_workers _ _) => apply preserves_run_workers
  | |- preserves _ (collect _) => apply preserves_collect
  | |- preserves _ (timed _ _ _) => apply preserves_timed
  | |- preserves _ (try_except _ _ _) => apply preserves_try_except; [|intros ?]
  | |- preserves _ (for_each _ _ _) => apply preserves_for_each; intros ? ?
  | |- preserves _ (for_ _ _) => apply preserves_for_; intros ?
  | |- preserves _ (bind _ _) => apply preserves_bind; [|intros ?]
  | |- preserves _ (match ?x with _ => _ end) => destruct x
  end.

Ltac preserve := cbv zeta; repeat (preserve_step; cbv beta).

Lemma preserves_print_summary (self : PerformanceTester) :
  preserves R (print_summary self).
Proof. unfold print_summary, when_result, for_results_with. preserve. Qed.

Lemma preserves_test_connection_performance (self : PerformanceTester) :
  preserves R (test_connection_performance self).
Proof. unfold test_connection_performance, skipped. preserve. Qed.

Lemma preserves_test_table_operations (self : PerformanceTester) :
  preserves R (test_table_operations self).
Proof. unfold test_table_operations, skipped. preserve. Qed.

Lemma preserves_test_data_insertion_performance (self : PerformanceTester) :
  preserves R (test_data_insertion_performance self).
Proof.
  unfold test_data_insertion_performance, insertion_of_size, skipped. preserve.
Qed.

Lemma preserves_test_query_performance (self : PerformanceTester) :
  preserves R (test_query_performance self).
Proof. unfold test_query_performance, query_case, skipped. preserve. Qed.

Lemma preserves_test_vector_search_performance (self : PerformanceTester) :
  preserves R (test_vector_search_performance self).
Proof. unfold test_vector_search_performance, search_case, skipped. preserve. Qed.

Lemma preserves_test_concurrent_operations (self : PerformanceTester) :
  preserves R (test_concurrent_operations self).
Proof. unfold test_concurrent_operations, concurrent_level, skipped. preserve. Qed.

Lemma preserves_test_memory_usage (self : PerformanceTester) :
  preserves R (test_memory_usage self).
Proof. unfold test_memory_usage, skipped. preserve. Qed.

Lemma preserves_test_stress_scenarios (self : PerformanceTester) :
  preserves R (test_stress_scenarios self).
Proof. unfold test_stress_scenarios, skipped. preserve. Qed.

Lemma preserves_phases (self : PerformanceTester) (phase : PerformanceTester -> M unit) :
  In phase phases -> preserves R (phase self).
Proof.
  unfold phases. simpl. intros H.
  repeat (destruct H as [<-|H]);
    [ apply preserves_test_connection_performance
    | apply preserves_test_table_operations
    | apply preserves_test_data_insertion_performance
    | apply preserves_test_query_performance
    | apply preserves_test_vector_search_performance
    | apply preserves_test_concurrent_operations
    | apply preserves_test_memory_usage
    | apply preserves_test_stress_scenarios
    | contradiction ].
Qed.

Lemma preserves_run_all_tests (self : PerformanceTester) :
  preserves R (run_all_tests self).
Proof.
  unfold run_all_tests.
  repeat lazymatch goal with
    | |- preserves _ (bind _ _) => apply preserves_bind; [|intros ?]
    | |- preserves _ (print _) => apply preserves_print
    | |- preserves _ get_results => apply preserves_get_results
    | |- preserves _ (_ self) => apply preserves_phases; unfold phases; simpl; auto 10
    end.
Qed.

End Preservation.

(** ** The relations that the phases preserve *)

Lemma dict_set_keeps_keys (d : py_dict) (name : string) (v : pyval) (k : string) :
  In k (dict_keys d) -> In k (dict_keys (dict_set d name v)).
Proof.
  unfold dict_keys. induction d as [|[k' v'] d IH]; simpl; [tauto|].
  destruct (String.eqb name k'); simpl; tauto.
Qed.

Lemma files_written_app (s : pstate) (e : event) :
  files_written (after_event s e) =
  (files_written s ++ match e with FileWrite f c => [(f, c)] | _ => [] end)%list.
Proof.
  unfold files_written, after_event. simpl. rewrite flat_map_app. simpl.
  now rewrite app_nil_r.
Qed.

Lemma files_written_emit (s : pstate) (e : event) :
  is_file_write e = false -> files_written (after_event s e) = files_written s.
Proof.
  intros H. rewrite files_written_app. destruct e; try discriminate; apply app_nil_r.
Qed.

Section Instances.

Context {A : Type} (m : M A).

Lemma keeps_results_of :
  (forall R : pstate -> pstate -> Prop,
     (forall s, R s s) ->
     (forall a b c, R a b -> R b c -> R a c) ->
     (forall s, R s (after_tick s)) ->
     (forall s e, is_file_write e = false -> R s (after_event s e)) ->
     (forall s name value,
        R s {| tick := tick s; events := events s;
               results := dict_set (results s) name value |}) ->
     preserves R m) ->
  preserves keeps_results m.
Proof.
  intros H. apply H; unfold keeps_results; simpl; auto.
  intros s name value k. apply dict_set_keeps_keys.
Qed.

Lemma writes_nothing_of :
  (forall R : pstate -> pstate -> Prop,
     (forall s, R s s) ->
     (forall a b c, R a b -> R b c -> R a c) ->
     (forall s, R s (after_tick s)) ->
     (forall s e, is_file_write e = false -> R s (after_event s e)) ->
     (forall s name value,
        R s {| tick := tick s; events := events s;
               results := dict_set (results s) name value |}) ->
     preserves R m) ->
  preserves writes_nothing m.
Proof.
  intros H. apply H; unfold writes_nothing; simpl; auto.
  - intros a b c Hab Hbc. now rewrite Hbc.
  - intros s e He. apply (files_written_emit s e He).
Qed.

Lemma untouched_of :
  (forall R : pstate -> pstate -> Prop,
     (forall s, R s s) ->
     (forall a b c, R a b -> R b c -> R a c) ->
     (forall s, R s (after_tick s)) ->
     (forall s e, is_file_write e = false -> R s (after_event s e)) ->
     preserves R m) ->
  preserves untouched m.
Proof.
  intros H. apply H; unfold untouched; simpl; auto.
  - intros a b c [H1 H2] [H3 H4]. split; congruence.
  - intros s e He. split; [reflexivity|apply (files_written_emit s e He)].
Qed.

End Instances.

Lemma phases_keep_results (self : PerformanceTester)
    (phase : PerformanceTester -> M unit) :
  In phase phases -> preserves keeps_results (phase self).
Proof.
  intros Hin. apply keeps_results_of. intros R H1 H2 H3 H4 H5.
  now apply preserves_phases.
Qed.

Lemma dict_set_keys (d : py_dict) (name : string) (v : pyval) :
  dict_keys (dict_set d name v) =
  if existsb (String.eqb name) (dict_keys d) then dict_keys d
  else (dict_keys d ++ [name])%list.
Proof.
  unfold dict_keys. induction d as [|[k' v'] d IH]; simpl; [reflexivity|].
  destruct (String.eqb name k'); simpl; [reflexivity|].
  rewrite IH. now destruct (existsb (String.eqb name) (map fst d)).
Qed.

Lemma dict_set_distinct (d : py_dict) (name : string) (v : pyval) :
  NoDup (dict_keys d) -> NoDup (dict_keys (dict_set d name v)).
Proof.
  intros H. rewrite dict_set_keys.
  destruct (existsb (String.eqb name) (dict_keys d)) eqn:E; [exact H|].
  apply NoDup_app; [exact H|repeat constructor; simpl; tauto|].
  intros k Hk [->|[]].
  assert (existsb (String.eqb k) (dict_keys d) = true); [|congruence].
  apply existsb_exists. exists k. split; [exact Hk|apply String.eqb_refl].
Qed.

(** The result names stay distinct, as the keys of a [dict] are. *)
Lemma phases_keep_names_distinct (self : PerformanceTester)
    (phase : PerformanceTester -> M unit) :
  In phase phases -> preserves distinct_names (phase self).
Proof.
  intros Hin. apply preserves_phases; unfold distinct_names; simpl; auto.
  intros s name value. apply dict_set_distinct.
Qed.

Lemma run_all_tests_writes_nothing (self : PerformanceTester) :
  preserves writes_nothing (run_all_tests self).
Proof.
  apply writes_nothing_of. intros R H1 H2 H3 H4 H5.
  now apply preserves_run_all_tests.
Qed.

Lemma print_summary_untouched (self : PerformanceTester) :
  preserves untouched (print_summary self).
Proof.
  apply untouched_of. intros R H1 H2 H3 H4.
  now apply preserves_print_summary.
Qed.

(** ** The measuring pattern *)

(** A call that raises an [Exception] is caught and logged; it adds no
    sample. *)
Lemma timed_catches {A : Type} (op : M A) (message : exn -> list fpart)
    (times : list Q) (w : world) (s s1 : pstate) (e : exn) :
  op w (after_tick s) = (Raise e, s1) ->
  is_Exception e = true ->
  timed op message times w s = (Ok times, after_event s1 (Print (message e))).
Proof.
  intros Hop He. unfold timed, bind, time_time, ask, try_except. simpl.
  fold (after_tick s). rewrite Hop. simpl. rewrite He. reflexivity.
Qed.

(** A call that returns adds the elapsed time, in milliseconds. *)
Lemma timed_measures {A : Type} (op : M A) (message : exn -> list fpart)
    (times : list Q) (w : world) (s s1 : pstate) (a : A) :
  op w (after_tick s) = (Ok a, s1) ->
  timed op message times w s =
  (Ok (times ++ [((wall_clock w (tick s1) - wall_clock w (tick s)) * 1000)%Q])%list,
   after_tick s1).
Proof.
  intros Hop. unfold timed, bind, time_time, ask, try_except, ret. simpl.
  fold (after_tick s). rewrite Hop. reflexivity.
Qed.

(** A loop of measurements whose every call raises the same [Exception]
    without touching the results collects no sample and records nothing. *)
Lemma measuring_loop_of_failures {A : Type} (l : list Z) (op : Z -> M A)
    (message : Z -> exn -> list fpart) (e : exn) (w : world) :
  (forall i s0, op i w s0 = (Raise e, s0)) ->
  is_Exception e = true ->
  forall (times : list Q) (s : pstate),
  exists s',
    for_each l (fun i => timed (op i) (message i)) times w s = (Ok times, s') /\
    results s' = results s /\ files_written s' = files_written s.
Proof.
  intros Hop He. induction l as [|i l IH]; intros times s; simpl.
  - exists s. repeat split.
  - unfold bind. rewrite (timed_catches _ _ _ _ _ _ _ (Hop i _) He).
    destruct (IH times (after_event (after_tick s) (Print (message i e))))
      as (s' & Hrun & Hres & Hfiles).
    exists s'. split; [exact Hrun|]. split; [exact Hres|].
    rewrite Hfiles. now rewrite files_written_emit.
Qed.

(** ** The insertion phase *)

Lemma generate_test_data_padded (size_bytes : Z) :
  50 < size_bytes ->
  _generate_test_data size_bytes =
  [("id", PInt 1);
   ("data", PStr (str_mul "x" (size_bytes - 50)));
   ("timestamp", PStr "2024-01-01T00:00:00Z")].
Proof.
  intros H. unfold _generate_test_data.
  destruct (Z.leb_spec (size_bytes - 50) 0); [lia|reflexivity].
Qed.

Lemma generate_test_data_minimal (size_bytes : Z) :
  size_bytes <= 50 ->
  _generate_test_data size_bytes = [("id", PInt 1); ("data", PStr "small")].
Proof.
  intros H. unfold _generate_test_data.
  destruct (Z.leb_spec (size_bytes - 50) 0); [reflexivity|lia].
Qed.

Lemma length_str_repeat (c : ascii) (n : nat) :
  String.length (str_repeat (String c "") n) = n.
Proof. induction n; simpl; auto. Qed.

Lemma generate_test_data_length (size_bytes : Z) :
  50 < size_bytes ->
  exists data,
    dict_get (_generate_test_data size_bytes) "data" = Some (PStr data) /\
    Z.of_nat (String.length data) = size_bytes - 50.
Proof.
  intros H. rewrite (generate_test_data_padded _ H). eexists. split; [reflexivity|].
  unfold str_mul. rewrite length_str_repeat. lia.
Qed.

(** The call of the insertion loop passes three positional arguments to a
    method of two parameters. *)
Lemma insert_data_three_arguments (c : VectraClient) (table key data : pyval)
    (w : world) (s : pstate) :
  insert_data c [table; key; data] w s =
  (Raise (mk_exn TypeError
            "VectraClient.insert_data() takes 3 positional arguments but 4 were given"),
   s).
Proof. reflexivity. Qed.

Lemma insertion_of_size_records_nothing (c : VectraClient) (size : Z) (w : world)
    (s : pstate) :
  exists s',
    insertion_of_size c size w s = (Ok tt, s') /\
    results s' = results s /\ files_written s' = files_written s.
Proof.
  unfold insertion_of_size. cbv zeta.
  destruct (measuring_loop_of_failures (range 10)
              (fun i => insert_data c
                 [PStr "perf_test_table";
                  PStr ("key_" ++ str_of_int size ++ "_" ++ str_of_int i);
                  PDict (_generate_test_data size)])
              (fun i e => [Lit "  Data insertion "; Fmt (PInt (i + 1));
                           Lit " failed: "; Lit (exn_msg e)])
              _ w
              (fun i s0 => insert_data_three_arguments c _ _ _ w s0)
              eq_refl [] s) as (s' & Hrun & Hres & Hfiles).
  exists s'. unfold bind. rewrite Hrun. simpl. auto.
Qed.

(** C6.  The generator pads the [data] field to the target size minus 50
    and falls back to a minimal payload below that (see
    [generate_test_data_length] and [generate_test_data_minimal]), and the
    phase calls [insert_data] ten times per size; but each of these calls
    passes three positional arguments to a method that takes two, so each
    raises [TypeError], no latency is collected, and the phase records no
    result for any size: no average latency, no throughput. *)
Theorem insertion_phase_never_records
    (self : PerformanceTester) (w : world) (s : pstate) :
  (forall size, 50 < size ->
     exists data,
       dict_get (_generate_test_data size) "data" = Some (PStr data) /\
       Z.of_nat (String.length data) = size - 50) /\
  (forall size, size <= 50 ->
     _generate_test_data size = [("id", PInt 1); ("data", PStr "small")]) /\
  fst (test_data_insertion_performance self w s) = Ok tt /\
  results (snd (test_data_insertion_performance self w s)) = results s /\
  dict_get (results (snd (run (main true default_arguments) healthy_world)))
    "data_insertion_100b" = None.
Proof.
  split; [exact generate_test_data_length|].
  split; [exact generate_test_data_minimal|].
  assert (H : exists s',
             test_data_insertion_performance self w s = (Ok tt, s') /\
             results s' = results s).
  { unfold test_data_insertion_performance, bind, print, emit. simpl.
    destruct (pt_client self) as [c|].
    - unfold for_, data_sizes, for_each, bind.
      match goal with |- context [insertion_of_size c 100 w ?s0] =>
        destruct (insertion_of_size_records_nothing c 100 w s0) as (s1 & -> & R1 & _)
      end.
      destruct (insertion_of_size_records_nothing c 1000 w s1) as (s2 & -> & R2 & _).
      destruct (insertion_of_size_records_nothing c 10000 w s2) as (s3 & -> & R3 & _).
      exists s3. split; [reflexivity|]. simpl in R1. congruence.
    - eexists. split; reflexivity. }
  destruct H as (s' & -> & Hres). split; [reflexivity|]. split; [exact Hres|].
  vm_compute. reflexivity.
Qed.

(** ** The run as a whole *)

Lemma for_app {A : Type} (l1 l2 : list A) (body : A -> M unit) (w : world) (s : pstate) :
  for_ (l1 ++ l2) body w s =
  match for_ l1 body w s with
  | (Ok _, s') => for_ l2 body w s'
  | (Raise e, s') => (Raise e, s')
  end.
Proof.
  unfold for_. revert s. induction l1 as [|x l1 IH]; intros s; simpl; [reflexivity|].
  unfold bind. destruct (body x w s) as [[[]|e] s']; [apply IH|reflexivity].
Qed.

(** [run_all_tests] is the loop over [phases] between its banners. *)
Lemma run_all_tests_is_a_loop (self : PerformanceTester) (w : world) (s : pstate) :
  run_all_tests self w s =
  (print [Lit "🚀 Starting VectraEdge Performance Tests"] ;;;
   print [Lit banner] ;;;
   for_ phases (fun phase => phase self) ;;;
   print [Lit (nl ++ banner)] ;;;
   print [Lit "✅ All performance tests completed!"] ;;;
   get_results) w s.
Proof.
  unfold run_all_tests, phases, for_, for_each, bind, print, emit, ret. simpl.
  repeat match goal with
         | |- context [match ?phase self w ?s0 with _ => _ end] =>
             destruct (phase self w s0) as [[[]|?] ?]; simpl
         end; reflexivity.
Qed.

(** The state in which the first phase starts. *)
Lemma run_all_tests_stops_at_failure (self : PerformanceTester) (w : world)
    (s sk s' : pstate) (before after : list (PerformanceTester -> M unit))
    (phase : PerformanceTester -> M unit) (e : exn) :
  phases = (before ++ phase :: after)%list ->
  for_ before (fun ph => ph self) w
    (after_event (after_event s (Print [Lit "🚀 Starting VectraEdge Performance Tests"]))
       (Print [Lit banner])) = (Ok tt, sk) ->
  phase self w sk = (Raise e, s') ->
  run_all_tests self w s = (Raise e, s').
Proof.
  intros Hsplit Hbefore Hphase. rewrite run_all_tests_is_a_loop, Hsplit.
  unfold bind at 1 2 3. unfold print, emit. simpl.
  fold (after_event s (Print [Lit "🚀 Starting VectraEdge Performance Tests"])).
  match goal with |- context [for_ _ _ w ?s0] =>
    change s0 with
      (after_event (after_event s (Print [Lit "🚀 Starting VectraEdge Performance Tests"]))
         (Print [Lit banner]))
  end.
  rewrite for_app, Hbefore. unfold for_ at 1. simpl. unfold bind at 1.
  rewrite Hphase. reflexivity.
Qed.

Lemma bind_raise {A B : Type} (m : M A) (k : A -> M B) (w : world) (s s1 : pstate)
    (e : exn) :
  m w s = (Raise e, s1) -> bind m k w s = (Raise e, s1).
Proof. intros H. unfold bind. now rewrite H. Qed.

Lemma bind_ok {A B : Type} (m : M A) (k : A -> M B) (w : world) (s s1 : pstate)
    (a : A) :
  m w s = (Ok a, s1) -> bind m k w s = k a w s1.
Proof. intros H. unfold bind. now rewrite H. Qed.

Lemma benchmark_after_failure (tester : PerformanceTester) (args : arguments)
    (w : world) (s s1 : pstate) (e : exn) :
  run_all_tests tester w s = (Raise e, s1) ->
  raised (fst (benchmark tester args w s)) = true /\
  files_written (snd (benchmark tester args w s)) = files_written s /\
  results (snd (benchmark tester args w s)) = results s1 /\
  (is_KeyboardInterrupt e || is_Exception e = true ->
   fst (benchmark tester args w s) = Raise (mk_exn SystemExit "1")).
Proof.
  intros Hrun.
  pose proof (run_all_tests_writes_nothing tester w s) as Hfiles.
  unfold writes_nothing in Hfiles. rewrite Hrun in Hfiles. simpl in Hfiles.
  unfold benchmark, try_except2. rewrite (bind_raise _ _ _ _ _ _ Hrun).
  destruct (is_KeyboardInterrupt e); [|destruct (is_Exception e)]; simpl;
    repeat split; auto; try discriminate;
    rewrite <- Hfiles; apply (files_written_emit s1 (Print _) eq_refl).
Qed.

Lemma benchmark_after_summary_failure (tester : PerformanceTester)
    (args : arguments) (w : world) (s s1 s2 : pstate) (r : py_dict) (e : exn) :
  run_all_tests tester w s = (Ok r, s1) ->
  print_summary tester w s1 = (Raise e, s2) ->
  raised (fst (benchmark tester args w s)) = true /\
  files_written (snd (benchmark tester args w s)) = files_written s.
Proof.
  intros Hrun Hsum.
  pose proof (run_all_tests_writes_nothing tester w s) as Hfiles.
  unfold writes_nothing in Hfiles. rewrite Hrun in Hfiles. simpl in Hfiles.
  destruct (print_summary_untouched tester w s1) as [_ Hfiles2].
  rewrite Hsum in Hfiles2. simpl in Hfiles2.
  unfold benchmark, try_except2.
  rewrite (bind_ok _ _ _ _ _ _ Hrun), (bind_raise _ _ _ _ _ _ Hsum).
  destruct (is_KeyboardInterrupt e); [|destruct (is_Exception e)]; simpl;
    split; auto; rewrite <- Hfiles, <- Hfiles2;
    first [reflexivity | apply (files_written_emit s2 (Print _) eq_refl)].
Qed.

Lemma benchmark_after_success (tester : PerformanceTester) (args : arguments)
    (w : world) (s s1 s2 : pstate) (r : py_dict) :
  run_all_tests tester w s = (Ok r, s1) ->
  print_summary tester w s1 = (Ok tt, s2) ->
  open_for_writing w (tick s2) (arg_output args) = Ok tt ->
  fst (benchmark tester args w s) = Ok tt /\
  files_written (snd (benchmark tester args w s)) =
  (files_written s ++
   [(arg_output args, Json.dumps (float_repr w) (PDict (results s1)))])%list.
Proof.
  intros Hrun Hsum Hopen.
  pose proof (run_all_tests_writes_nothing tester w s) as Hfiles.
  unfold writes_nothing in Hfiles. rewrite Hrun in Hfiles. simpl in Hfiles.
  destruct (print_summary_untouched tester w s1) as [Hres Hfiles2].
  rewrite Hsum in Hres, Hfiles2. simpl in Hres, Hfiles2.
  unfold benchmark, try_except2.
  rewrite (bind_ok _ _ _ _ _ _ Hrun), (bind_ok _ _ _ _ _ _ Hsum).
  unfold save_results, bind, ask, emit, print. simpl. rewrite Hopen. simpl.
  split; [reflexivity|].
  unfold files_written. simpl. repeat rewrite flat_map_app. simpl.
  repeat rewrite app_nil_r. fold (files_written s2).
  rewrite Hfiles2, Hfiles, Hres. reflexivity.
Qed.

(** C2, as the code has it.  A transport call that raises an [Exception]
    inside a measuring loop is caught and logged there and adds no sample;
    no phase removes a result recorded before it.  But nothing catches an
    exception that escapes a phase: [run_all_tests] stops at that phase, in
    the state the phase left, so the remaining phases do not run; and the
    driver writes the output file only when every phase and the summary
    completed; when [run_all_tests] raised, it writes no file and the
    process ends with a raised exit (status 1 for an [Exception] or a
    keyboard interrupt). *)
Theorem escaping_exception_aborts_run_without_report
    (tester : PerformanceTester) (args : arguments) (w : world) (s : pstate) :
  (forall (A : Type) (op : M A) (message : exn -> list fpart) (times : list Q)
          (e : exn) (s1 : pstate),
     op w (after_tick s) = (Raise e, s1) -> is_Exception e = true ->
     timed op message times w s = (Ok times, after_event s1 (Print (message e)))) /\
  (forall phase, In phase phases -> keeps_results s (snd (phase tester w s))) /\
  (forall before phase after sk s' e,
     phases = (before ++ phase :: after)%list ->
     for_ before (fun ph => ph tester) w
       (after_event
          (after_event s (Print [Lit "🚀 Starting VectraEdge Performance Tests"]))
          (Print [Lit banner])) = (Ok tt, sk) ->
     phase tester w sk = (Raise e, s') ->
     run_all_tests tester w s = (Raise e, s')) /\
  (forall e s1,
     run_all_tests tester w s = (Raise e, s1) ->
     raised (fst (benchmark tester args w s)) = true /\
     files_written (snd (benchmark tester args w s)) = files_written s /\
     results (snd (benchmark tester args w s)) = results s1 /\
     (is_KeyboardInterrupt e || is_Exception e = true ->
      fst (benchmark tester args w s) = Raise (mk_exn SystemExit "1") /\
      exit_status (fst (benchmark tester args w s)) = 1)) /\
  (forall r s1 s2 e,
     run_all_tests tester w s = (Ok r, s1) ->
     print_summary tester w s1 = (Raise e, s2) ->
     raised (fst (benchmark tester args w s)) = true /\
     files_written (snd (benchmark tester args w s)) = files_written s) /\
  (forall r s1 s2,
     run_all_tests tester w s = (Ok r, s1) ->
     print_summary tester w s1 = (Ok tt, s2) ->
     open_for_writing w (tick s2) (arg_output args) = Ok tt ->
     fst (benchmark tester args w s) = Ok tt /\
     files_written (snd (benchmark tester args w s)) =
     (files_written s ++
      [(arg_output args, Json.dumps (float_repr w) (PDict (results s1)))])%list).
Proof.
  split; [|split; [|split; [|split; [|split]]]].
  - intros A op message times e s1. apply timed_catches.
  - intros phase Hin. apply (phases_keep_results tester phase Hin w s).
  - intros before phase after sk s' e. apply run_all_tests_stops_at_failure.
  - intros e s1 Hrun.
    destruct (benchmark_after_failure tester args w s s1 e Hrun) as (H1 & H2 & H3 & H4).
    split; [exact H1|]. split; [exact H2|]. split; [exact H3|].
    intros H. split; [exact (H4 H)|]. rewrite (H4 H). reflexivity.
  - intros r s1 s2 e. apply benchmark_after_summary_failure.
  - intros r s1 s2. apply benchmark_after_success.
Qed.

Lemma escaping_exception_aborts_run_without_report_witness :
  (exists s1,
     run_all_tests default_tester stuck_world initial =
     (Raise (mk_exn ZeroDivisionError "float division by zero"), s1)) /\
  files_written (snd (benchmark default_tester default_arguments stuck_world initial))
  = [] /\
  exit_status (fst (benchmark default_tester default_arguments stuck_world initial)) = 1.
Proof.
  assert (E : run_all_tests default_tester stuck_world initial =
              (Raise (mk_exn ZeroDivisionError "float division by zero"),
               snd (run_all_tests default_tester stuck_world initial))).
  { vm_compute. reflexivity. }
  split; [eexists; exact E|].
  destruct (escaping_exception_aborts_run_without_report default_tester
              default_arguments stuck_world initial) as (_ & _ & _ & H & _).
  destruct (H _ _ E) as (_ & Hfiles & _ & Hexit).
  split; [exact Hfiles|]. apply Hexit. reflexivity.
Defined.

(** C2, as the claim states it, fails.  With a clock too coarse to advance
    during the run, the concurrency phase divides by an elapsed time of
    zero.  Nothing catches the [ZeroDivisionError]: the memory and stress
    phases never start, and the driver exits with status 1 without writing
    the results that the earlier phases recorded. *)
Lemma failing_phase_stops_run_and_report :
  let r := run (main true default_arguments) stuck_world in
  fst r = Raise (mk_exn SystemExit "1") /\
  exit_status (fst r) = 1 /\
  files_written (snd r) = [] /\
  dict_keys (results (snd r)) =
    ["connection"; "table_creation"; "query_1"; "query_2"; "query_3";
     "vector_search_5"; "vector_search_10"; "vector_search_20"; "vector_search_50"] /\
  printed (nl ++ "⚡ Testing Concurrent Operations...") (snd r) = true /\
  printed (nl ++ "❌ Performance testing failed: ") (snd r) = true /\
  printed (nl ++ "💾 Testing Memory Usage...") (snd r) = false /\
  printed (nl ++ "🔥 Testing Stress Scenarios...") (snd r) = false.
Proof. vm_compute. repeat split. Qed.

(** ** The concurrency phase *)

(** *** Runs without preemption

    When no worker is preempted, the workers run one after the other and
    every increment is kept: the counts are then those the specification
    states.  The lemmas of this part are about such runs only. *)

Lemma for_each_app {A S : Type} (l1 l2 : list A) (body : A -> S -> M S) (acc : S)
    (w : world) (s : pstate) :
  for_each (l1 ++ l2) body acc w s =
  match for_each l1 body acc w s with
  | (Ok a, s') => for_each l2 body a w s'
  | (Raise e, s') => (Raise e, s')
  end.
Proof.
  revert acc s. induction l1 as [|x l1 IH]; intros acc s; simpl; [reflexivity|].
  unfold bind. destruct (body x acc w s) as [[a|e] s']; [apply IH|reflexivity].
Qed.

Lemma nth_error_middle {A : Type} (l1 l2 : list A) (x : A) :
  nth_error (l1 ++ x :: l2) (length l1) = Some x.
Proof. induction l1; simpl; auto. Qed.

Lemma update_middle {A : Type} (l1 l2 : list A) (x y : A) :
  (firstn (length l1) (l1 ++ x :: l2) ++ y :: skipn (S (length l1)) (l1 ++ x :: l2))%list
  = (l1 ++ y :: l2)%list.
Proof.
  induction l1 as [|a l1 IH]; [reflexivity|].
  change (a :: firstn (length l1) (l1 ++ x :: l2)
            ++ y :: skipn (S (length l1)) (l1 ++ x :: l2)
          = a :: l1 ++ y :: l2)%list.
  now rewrite IH.
Qed.

Lemma combine_snoc {A B : Type} (l1 : list A) (l2 : list B) (a : A) (b : B) :
  length l1 = length l2 ->
  combine (l1 ++ [a]) (l2 ++ [b]) = (combine l1 l2 ++ [(a, b)])%list.
Proof.
  revert l2. induction l1 as [|x l1 IH]; intros [|y l2] H; simpl in *;
    try discriminate; [reflexivity|].
  now rewrite IH by lia.
Qed.

Lemma pool_after_snoc (n : nat) (rs : list (result unit)) (r : result unit) :
  (length rs < n)%nat ->
  pool_after n (rs ++ [r]) =
  mk_pool
    (completed_operations (pool_after n rs) + (if succeeded r then 1 else 0))
    (failed_operations (pool_after n rs) + (if caught r then 1 else 0))
    (map (fun r => Finished (escaped r)) rs
       ++ Finished (escaped r) :: repeat Submitted (n - S (length rs)))%list
    (done (pool_after n rs) ++ [(length rs, escaped r)])%list.
Proof.
  intros Hlt. unfold pool_after. cbn [completed_operations failed_operations done].
  rewrite !filter_app, !length_app, !map_app. cbn [length map filter].
  rewrite Nat.add_1_r. f_equal.
  - destruct (succeeded r); cbn [length]; lia.
  - destruct (caught r); cbn [length]; lia.
  - now rewrite <- app_assoc.
  - rewrite seq_S. apply combine_snoc. now rewrite length_seq, length_map.
Qed.

(** The three steps of the next worker, taken in a row. *)
Lemma worker_runs_to_its_end (c : VectraClient) (n : nat) (rs : list (result unit))
    (w : world) (s : pstate) :
  (length rs < n)%nat ->
  let k := length rs in
  for_each [k; k; k] (step c) (pool_after n rs) w s =
  (Ok (pool_after n (rs ++ [fst (worker_operation c (Z.of_nat k) w s)])),
   snd (worker_operation c (Z.of_nat k) w s)).
Proof.
  intros Hlt k. rewrite (pool_after_snoc n rs _ Hlt).
  assert (Hw : workers (pool_after n rs) =
               (map (fun r => Finished (escaped r)) rs
                  ++ Submitted :: repeat Submitted (n - S k))%list).
  { unfold pool_after. simpl. fold k. replace (n - k)%nat with (S (n - S k)) by lia.
    reflexivity. }
  assert (Hk : length (map (fun r => Finished (escaped r)) rs) = k)
    by apply length_map.
  assert (Hupd : forall p pc l2 x,
            workers p = (map (fun r => Finished (escaped r)) rs ++ x :: l2)%list ->
            workers (set_worker p k pc)
            = (map (fun r => Finished (escaped r)) rs ++ pc :: l2)%list).
  { intros p pc l2 x Hp. unfold set_worker. cbn [workers]. rewrite Hp, <- Hk.
    apply update_middle. }
  assert (Hnth : forall p l2 x,
            workers p = (map (fun r => Finished (escaped r)) rs ++ x :: l2)%list ->
            nth_error (workers p) k = Some x).
  { intros p l2 x Hp. rewrite Hp, <- Hk. apply nth_error_middle. }
  assert (Hpure : forall p pc s0,
            nth_error (workers p) k = Some pc ->
            step c k p w s0 =
            match pc with
            | Submitted => step c k p w s0
            | Succeeded =>
                (Ok (set_worker p k (LoadedCompleted (completed_operations p))), s0)
            | Failed => (Ok (set_worker p k (LoadedFailed (failed_operations p))), s0)
            | LoadedCompleted v =>
                (Ok (finish (mk_pool (v + 1) (failed_operations p) (workers p) (done p))
                       k None), s0)
            | LoadedFailed v =>
                (Ok (finish (mk_pool (completed_operations p) (v + 1) (workers p)
                               (done p)) k None), s0)
            | Finished _ => (Ok p, s0)
            end).
  { intros p pc s0 Hp. destruct pc; try reflexivity; unfold step; rewrite Hp;
      reflexivity. }
  assert (Hfirst : step c k (pool_after n rs) w s =
                   match worker_operation c (Z.of_nat k) w s with
                   | (Ok _, s') => (Ok (set_worker (pool_after n rs) k Succeeded), s')
                   | (Raise e, s') =>
                       if is_Exception e
                       then (Ok (set_worker (pool_after n rs) k Failed), s')
                       else (Ok (finish (pool_after n rs) k (Some e)), s')
                   end).
  { unfold step. rewrite (Hnth _ _ _ Hw). reflexivity. }
  cbn [for_each].
  destruct (worker_operation c (Z.of_nat k) w s) as [[[]|e] s1] eqn:E; cbn [fst snd].
  - pose proof (Hupd _ Succeeded _ _ Hw) as H1.
    pose proof (Hupd _ (LoadedCompleted
                          (completed_operations
                             (set_worker (pool_after n rs) k Succeeded))) _ _ H1) as H2.
    rewrite (bind_ok _ _ _ _ _ _ Hfirst).
    rewrite (bind_ok _ _ _ _ _ _ (Hpure _ _ s1 (Hnth _ _ _ H1))).
    rewrite (bind_ok _ _ _ _ _ _ (Hpure _ _ s1 (Hnth _ _ _ H2))).
    unfold ret. f_equal. f_equal. unfold finish.
    match goal with
    | |- context [workers (set_worker ?P k (Finished ?x))] =>
        rewrite (Hupd P (Finished x) _ _ ltac:(cbn [workers]; exact H2))
    end.
    unfold set_worker.
    cbn [completed_operations failed_operations done succeeded caught escaped].
    rewrite ?He, ?Z.add_0_r. reflexivity.
  - destruct (is_Exception e) eqn:He.
    + pose proof (Hupd _ Failed _ _ Hw) as H1.
      pose proof (Hupd _ (LoadedFailed
                            (failed_operations
                               (set_worker (pool_after n rs) k Failed))) _ _ H1) as H2.
      rewrite (bind_ok _ _ _ _ _ _ Hfirst).
      rewrite (bind_ok _ _ _ _ _ _ (Hpure _ _ s1 (Hnth _ _ _ H1))).
      rewrite (bind_ok _ _ _ _ _ _ (Hpure _ _ s1 (Hnth _ _ _ H2))).
      unfold ret. f_equal. f_equal. unfold finish.
      match goal with
      | |- context [workers (set_worker ?P k (Finished ?x))] =>
          rewrite (Hupd P (Finished x) _ _ ltac:(cbn [workers]; exact H2))
      end.
      unfold set_worker.
      cbn [completed_operations failed_operations done succeeded caught escaped].
      rewrite ?He, ?Z.add_0_r. reflexivity.
    + assert (H1 : workers (finish (pool_after n rs) k (Some e))
                   = (map (fun r => Finished (escaped r)) rs
                        ++ Finished (Some e) :: repeat Submitted (n - S k))%list).
      { unfold finish. cbn [workers]. apply (Hupd _ _ _ _ Hw). }
      rewrite (bind_ok _ _ _ _ _ _ Hfirst).
      rewrite (bind_ok _ _ _ _ _ _ (Hpure _ _ s1 (Hnth _ _ _ H1))).
      rewrite (bind_ok _ _ _ _ _ _ (Hpure _ _ s1 (Hnth _ _ _ H1))).
      unfold ret. f_equal. f_equal. unfold finish.
      rewrite (Hupd _ (Finished (Some e)) _ _ Hw).
      unfold set_worker.
      cbn [completed_operations failed_operations done succeeded caught escaped].
      rewrite ?He, ?Z.add_0_r. reflexivity.
Qed.

Section Serial.

Variable c : VectraClient.
Variable w : world.
Variable allowed : result unit -> Prop.
Hypothesis every_call : forall i s, allowed (fst (worker_operation c (Z.of_nat i) w s)).

Lemma join_runs_the_rest (n m : nat) :
  forall (rs : list (result unit)) (s : pstate),
    (length rs + m = n)%nat -> Forall allowed rs ->
    exists rs' s',
      for_each (flat_map (fun i => [i; i; i]) (seq (length rs) m)) (step c)
        (pool_after n rs) w s = (Ok (pool_after n rs'), s') /\
      length rs' = n /\ Forall allowed rs'.
Proof.
  induction m as [|m IH]; intros rs s Hlen Hrs.
  - exists rs, s. split; [reflexivity|]. split; [lia|exact Hrs].
  - cbn [seq flat_map]. rewrite for_each_app.
    rewrite (worker_runs_to_its_end c n rs w s) by lia.
    destruct (IH (rs ++ [fst (worker_operation c (Z.of_nat (length rs)) w s)])%list
                (snd (worker_operation c (Z.of_nat (length rs)) w s)))
      as (rs' & s' & Hrun & Hlen' & Hall).
    + rewrite length_app. simpl. lia.
    + apply Forall_app. split; [exact Hrs|]. constructor; [apply every_call|constructor].
    + rewrite length_app in Hrun. simpl in Hrun. rewrite Nat.add_1_r in Hrun.
      exists rs', s'. auto.
Qed.

(** Without preemption the workers leave the pool that [pool_after]
    describes, for the outcomes of their calls. *)
Lemma run_workers_without_preemption (level : Z) (s : pstate) :
  thread_schedule w level = [] ->
  exists rs s',
    run_workers c level w s = (Ok (pool_after (Z.to_nat level) rs), s') /\
    length rs = Z.to_nat level /\ Forall allowed rs.
Proof.
  intros Hsched. unfold run_workers, join_all. cbv zeta. unfold bind at 1.
  rewrite Hsched. cbn [for_each]. unfold ret at 1.
  destruct (join_runs_the_rest (Z.to_nat level) (Z.to_nat level) [] s eq_refl
              (Forall_nil _)) as (rs & s' & Hrun & Hlen & Hall).
  unfold pool_after in Hrun at 1. cbn [filter length map combine seq app] in Hrun.
  rewrite Nat.sub_0_r in Hrun. exists rs, s'. auto.
Qed.

End Serial.

Lemma filter_all {A : Type} (f : A -> bool) (l : list A) :
  Forall (fun x => f x = true) l -> filter f l = l.
Proof. induction 1 as [|x l Hx _ IH]; simpl; [reflexivity|]. now rewrite Hx, IH. Qed.

Lemma filter_none {A : Type} (f : A -> bool) (l : list A) :
  Forall (fun x => f x = false) l -> filter f l = [].
Proof. induction 1 as [|x l Hx _ IH]; simpl; [reflexivity|]. now rewrite Hx. Qed.

(** When no exception escapes a worker, every worker is counted once. *)
Lemma counted_once (rs : list (result unit)) :
  Forall (fun r => escaped r = None) rs ->
  (length (filter succeeded rs) + length (filter caught rs) = length rs)%nat.
Proof.
  induction 1 as [|r rs Hr _ IH]; [reflexivity|].
  destruct r as [u|e]; simpl in *.
  - lia.
  - destruct (is_Exception e); [simpl; lia|discriminate].
Qed.

Lemma collect_nothing (n : nat) (rs : list (result unit)) (w : world) (s : pstate) :
  Forall (fun r => escaped r = None) rs ->
  collect (pool_after n rs) w s = (Ok tt, s).
Proof.
  intros H. unfold collect, pool_after. cbn [done]. unfold for_.
  generalize 0%nat. induction H as [|r rs Hr _ IH]; intros k; [reflexivity|].
  cbn [length seq map combine for_each snd]. rewrite Hr. unfold bind, ret. apply IH.
Qed.

(** X22.  Without preemption every increment is kept.  If no
    exception escapes a worker, the counts add up to the level; if every
    call succeeds, all operations are completed; if every call fails, all
    are failed. *)
Lemma counts_without_preemption (c : VectraClient) (w : world) (level : Z)
    (s : pstate) :
  0 <= level ->
  thread_schedule w level = [] ->
  ((forall i s0, escaped (fst (worker_operation c (Z.of_nat i) w s0)) = None) ->
   exists p s', run_workers c level w s = (Ok p, s') /\
                completed_operations p + failed_operations p = level /\
                0 <= completed_operations p) /\
  ((forall i s0, succeeded (fst (worker_operation c (Z.of_nat i) w s0)) = true) ->
   exists p s', run_workers c level w s = (Ok p, s') /\
                completed_operations p = level /\ failed_operations p = 0) /\
  ((forall i s0, caught (fst (worker_operation c (Z.of_nat i) w s0)) = true) ->
   exists p s', run_workers c level w s = (Ok p, s') /\
                completed_operations p = 0 /\ failed_operations p = level).
Proof.
  intros Hlevel Hsched. repeat split.
  - intros Hall.
    destruct (run_workers_without_preemption c w (fun r => escaped r = None) Hall level s Hsched)
      as (rs & s' & Hrun & Hlen & Hrs).
    exists (pool_after (Z.to_nat level) rs), s'. split; [exact Hrun|].
    unfold pool_after. cbn [completed_operations failed_operations].
    pose proof (counted_once rs Hrs). lia.
  - intros Hall.
    destruct (run_workers_without_preemption c w (fun r => succeeded r = true) Hall level s Hsched)
      as (rs & s' & Hrun & Hlen & Hrs).
    exists (pool_after (Z.to_nat level) rs), s'. split; [exact Hrun|].
    unfold pool_after. cbn [completed_operations failed_operations].
    rewrite (filter_all _ _ Hrs), filter_none; [simpl; lia|].
    eapply Forall_impl; [|exact Hrs]. intros [u|e]; simpl; [reflexivity|discriminate].
  - intros Hall.
    destruct (run_workers_without_preemption c w (fun r => caught r = true) Hall level s Hsched)
      as (rs & s' & Hrun & Hlen & Hrs).
    exists (pool_after (Z.to_nat level) rs), s'. split; [exact Hrun|].
    unfold pool_after. cbn [completed_operations failed_operations].
    rewrite (filter_all _ _ Hrs), filter_none; [simpl; lia|].
    eapply Forall_impl; [|exact Hrs]. intros [u|e]; simpl; [discriminate|reflexivity].
Qed.

Lemma run_workers_later (c : VectraClient) (level : Z) :
  preserves later (run_workers c level).
Proof. apply preserves_run_workers; unfold later; simpl; intros; lia. Qed.

Lemma dict_get_set (d : py_dict) (k : string) (v : pyval) :
  dict_get (dict_set d k v) k = Some v.
Proof.
  induction d as [|[k' v'] d IH]; simpl.
  - now rewrite String.eqb_refl.
  - destruct (String.eqb k k') eqn:E; simpl; rewrite E; [reflexivity|exact IH].
Qed.

(** X23.  What the phase records at one level when no worker is preempted
    and the clock advances: with a transport on which every call succeeds,
    all operations completed and a positive throughput; with one on which
    every call fails, all operations failed and a throughput of zero. *)
Lemma concurrent_level_without_preemption (c : VectraClient) (w : world)
    (level : Z) (s : pstate) (every : bool) :
  0 < level ->
  thread_schedule w level = [] ->
  (forall n m, (n < m)%nat -> (wall_clock w n < wall_clock w m)%Q) ->
  (forall i s0, fst (worker_operation c (Z.of_nat i) w s0) = Ok tt /\ every = true
                \/ caught (fst (worker_operation c (Z.of_nat i) w s0)) = true
                   /\ every = false) ->
  exists s' total throughput,
    concurrent_level c level w s = (Ok tt, s') /\
    dict_get (results s') ("concurrent_" ++ str_of_int level) =
    Some (PDict
            [("concurrency_level", PInt level);
             ("total_time_s", PFloat total);
             ("completed_operations", PInt (if every then level else 0));
             ("failed_operations", PInt (if every then 0 else level));
             ("throughput_ops_per_sec", PFloat throughput)]) /\
    (0 < total)%Q /\
    (if every then 0 < throughput else throughput == 0)%Q.
Proof.
  intros Hlevel Hsched Hclock Hall.
  set (s0 := after_tick (after_event s (Print [Lit "  Testing "; Fmt (PInt level);
                                                Lit " concurrent operations..."]))).
  destruct (run_workers_without_preemption c w
              (fun r => if every then r = Ok tt else caught r = true)
              ltac:(intros i x; destruct (Hall i x) as [[H ->]|[H ->]]; exact H)
              level s0 Hsched) as (rs & s2 & Hrun & Hlen & Hrs).
  assert (Hesc : Forall (fun r => escaped r = None) rs).
  { eapply Forall_impl; [|exact Hrs]. intros r Hr. destruct every.
    - now subst r.
    - destruct r as [u|e]; simpl in *; [reflexivity|now rewrite Hr]. }
  assert (Hcompleted : completed_operations (pool_after (Z.to_nat level) rs)
                       = if every then level else 0).
  { unfold pool_after. cbn [completed_operations]. destruct every.
    - rewrite filter_all; [lia|]. eapply Forall_impl; [|exact Hrs].
      now intros r ->.
    - rewrite filter_none; [reflexivity|]. eapply Forall_impl; [|exact Hrs].
      intros [u|e]; simpl; [discriminate|reflexivity]. }
  assert (Hfailed : failed_operations (pool_after (Z.to_nat level) rs)
                    = if every then 0 else level).
  { unfold pool_after. cbn [failed_operations]. destruct every.
    - rewrite filter_none; [reflexivity|]. eapply Forall_impl; [|exact Hrs].
      now intros r ->.
    - rewrite filter_all; [lia|exact Hrs]. }
  pose proof (run_workers_later c level w s0) as Hlater.
  rewrite Hrun in Hlater. unfold later in Hlater. cbn [snd] in Hlater.
  set (total := (wall_clock w (tick s2) - wall_clock w (tick s))%Q).
  assert (Htotal : (0 < total)%Q).
  { unfold total. apply (proj1 (Qlt_minus_iff _ _)). apply Hclock.
    unfold s0, after_tick in *. simpl in *. lia. }
  assert (Hnz : Qeq_bool total 0 = false).
  { destruct (Qeq_bool total 0) eqn:E; [|reflexivity].
    apply Qeq_bool_eq in E. rewrite E in Htotal. discriminate Htotal. }
  exists (after_event
            (after_event
               (mk_pstate (tick (after_tick s2)) (events (after_tick s2))
                  (dict_set (results s2) ("concurrent_" ++ str_of_int level)
                     (PDict
                        [("concurrency_level", PInt level);
                         ("total_time_s", PFloat total);
                         ("completed_operations", PInt (if every then level else 0));
                         ("failed_operations", PInt (if every then 0 else level));
                         ("throughput_ops_per_sec",
                          PFloat (inject_Z (if every then level else 0) / total))])))
               (Print [Lit "    Completed: "; Fmt (PInt (if every then level else 0));
                       Lit "/"; Fmt (PInt level); Lit " operations"]))
            (Print [Lit "    Throughput: ";
                    Fmt2f (inject_Z (if every then level else 0) / total);
                    Lit " ops/sec"])),
    total, (inject_Z (if every then level else 0) / total)%Q.
  split; [|split; [|split]].
  - unfold concurrent_level, bind, print, emit, time_time, ask. cbn [fst snd tick].
    fold (after_event s (Print [Lit "  Testing "; Fmt (PInt level);
                                Lit " concurrent operations..."])).
    match goal with |- context [run_workers c level w ?x] => change x with s0 end.
    rewrite Hrun, (collect_nothing _ rs w s2 Hesc), Hcompleted, Hfailed.
    unfold truediv. fold total. rewrite Hnz. reflexivity.
  - cbn [results after_event]. apply dict_get_set.
  - exact Htotal.
  - destruct every.
    + apply Qlt_shift_div_l; [exact Htotal|]. rewrite Qmult_0_l.
      change (inject_Z 0 < inject_Z level)%Q. rewrite <- Zlt_Qlt. exact Hlevel.
    + unfold Qdiv. apply Qmult_0_l.
Qed.

(** X24.  The operation of worker [i] is the one [i mod 3] selects: a
    query for 0, a vector search with limit 5 for 1, the statistics for 2.
    On a client with the embedded transport it is the one call that the
    worker makes into the native client. *)
Lemma worker_operation_mix (c : VectraClient) (i : Z) (w : world) (s : pstate) :
  embedded c = true ->
  events_of (worker_operation c i) w s =
  if i mod 3 =? 0 then
    [RustCall "execute_query" [PStr "SELECT * FROM perf_test_table LIMIT 1"]]
  else if i mod 3 =? 1 then [RustCall "vector_search" [PStr "test"; PInt 5]]
  else [RustCall "get_stats" []].
Proof.
  intros Hemb. unfold worker_operation.
  destruct (i mod 3 =? 0); [|destruct (i mod 3 =? 1)]; apply events_of_appended.
  - unfold execute_query. rewrite Hemb. unfold native, bind, emit, ask, ret. simpl.
    now destruct (rs_execute_query _ _ _).
  - unfold vector_search. rewrite Hemb. unfold native, bind, emit, ask, ret. simpl.
    now destruct (rs_vector_search _ _ _ _).
  - unfold get_stats. rewrite Hemb. unfold native, bind, emit, ask, ret. simpl.
    now destruct (rs_get_stats _ _).
Qed.

(** *** Runs with preemption *)

(** C1.  The counters are plain [nonlocal] variables that the workers
    update without a lock, so the counts add up to the level only in the
    runs of [counts_without_preemption].  At level 5, with a server that
    answers every call, let worker 0 be preempted between the load and the
    store of [completed_operations += 1] while worker 3 runs: both store 1.
    All five workers complete, none fails, and the phase records 4
    completed and 0 failed operations: [completed + failed] is not the
    level. *)
Theorem unsynchronized_counters_lose_an_increment :
  (exists p,
     fst (run (run_workers http_client 5) racing_world) = Ok p /\
     workers p = repeat (Finished None) 5 /\
     completed_operations p = 4 /\
     failed_operations p = 0 /\
     completed_operations p + failed_operations p <> 5) /\
  (exists fields,
     dict_get (results (snd (run (concurrent_level http_client 5) racing_world)))
       "concurrent_5" = Some (PDict fields) /\
     dict_get fields "concurrency_level" = Some (PInt 5) /\
     dict_get fields "completed_operations" = Some (PInt 4) /\
     dict_get fields "failed_operations" = Some (PInt 0)).
Proof.
  split.
  - eexists. split; [vm_compute; reflexivity|]. repeat split. discriminate.
  - eexists. split; [vm_compute; reflexivity|]. repeat split.
Qed.

(** C4.  Worker [i] performs the operation that [i mod 3] selects, once
    (see [worker_operation]), and without preemption the counts are those
    of the claim ([concurrent_level_without_preemption]); but they do not
    hold in every run.  At level 10 with a server that answers every call,
    a preemption of worker 0 between its load and its store of the counter
    leaves 9 completed operations; with a native client on which every call
    fails, the same preemption leaves 9 failed ones. *)
Theorem concurrent_counts_miss_the_level :
  (exists fields,
     dict_get (results (snd (run (concurrent_level http_client 10) preempting_world)))
       "concurrent_10" = Some (PDict fields) /\
     dict_get fields "completed_operations" = Some (PInt 9) /\
     dict_get fields "failed_operations" = Some (PInt 0)) /\
  (exists fields,
     dict_get (results (snd (run (concurrent_level rust_client 10) preempting_world)))
       "concurrent_10" = Some (PDict fields) /\
     dict_get fields "completed_operations" = Some (PInt 0) /\
     dict_get fields "failed_operations" = Some (PInt 9)).
Proof.
  split; (eexists; split; [vm_compute; reflexivity|]); repeat split.
Qed.

(* ================================================================== *)
(** * The report reads back *)

Import Json.

(** ** Strings *)

Lemma str_app_assoc (a b c : string) : (a ++ b) ++ c = a ++ (b ++ c).
Proof. induction a as [|x a IH]; simpl; [reflexivity|now rewrite IH]. Qed.

Lemma str_length_app (a b : string) :
  String.length (a ++ b) = (String.length a + String.length b)%nat.
Proof. induction a as [|x a IH]; simpl; [reflexivity|now rewrite IH]. Qed.

(** ** Numbers *)

Lemma number_char_digit (c : ascii) : number_char c = false -> is_digit c = false.
Proof.
  unfold number_char. intros H.
  repeat (apply Bool.orb_false_iff in H; destruct H as [H ?]). exact H.
Qed.

Lemma safe_rest_span (rest : string) : safe_rest rest -> span_digits rest = ("", rest).
Proof.
  destruct rest as [|c rest]; simpl; [reflexivity|].
  intros H. now rewrite (number_char_digit c H).
Qed.

(** In the next three lemmas [rest] only has to begin with something other
    than a digit. *)
Lemma span_digits_app (a rest d r : string) :
  span_digits a = (d, r) -> span_digits rest = ("", rest) ->
  span_digits (a ++ rest) = (d, r ++ rest).
Proof.
  intros Ha Hrest. revert d r Ha. induction a as [|c a IH]; intros d r Ha; simpl in *.
  - injection Ha as <- <-. exact Hrest.
  - destruct (is_digit c).
    + destruct (span_digits a) as [d' r'] eqn:E. injection Ha as <- <-.
      now rewrite (IH d' r' eq_refl).
    + injection Ha as <- <-. reflexivity.
Qed.

Lemma scan_natural_app (a rest d r : string) :
  scan_natural a = Some (d, r) -> span_digits rest = ("", rest) ->
  scan_natural (a ++ rest) = Some (d, r ++ rest).
Proof.
  intros Ha Hrest. destruct a as [|c a]; simpl in *; [discriminate|].
  destruct (Ascii.eqb c "0").
  - injection Ha as <- <-. reflexivity.
  - destruct (is_digit c); [|discriminate].
    destruct (span_digits a) as [d' r'] eqn:E. injection Ha as <- <-.
    now rewrite (span_digits_app a rest d' r' E Hrest).
Qed.

Lemma scan_integer_app (a rest d r : string) :
  scan_integer a = Some (d, r) -> span_digits rest = ("", rest) ->
  scan_integer (a ++ rest) = Some (d, r ++ rest).
Proof.
  intros Ha Hrest. destruct a as [|c a]; [discriminate|].
  unfold scan_integer in *. cbn [append].
  destruct (Ascii.eqb c "-").
  - destruct (scan_natural a) as [[d' r']|] eqn:E; [|discriminate].
    injection Ha as <- <-. now rewrite (scan_natural_app a rest d' r' E Hrest).
  - apply (scan_natural_app (String c a) rest d r Ha Hrest).
Qed.

Lemma number_char_marks (c : ascii) :
  number_char c = false ->
  Ascii.eqb c "." = false /\ Ascii.eqb c "e" = false /\ Ascii.eqb c "E" = false /\
  Ascii.eqb c "+" = false /\ Ascii.eqb c "-" = false.
Proof.
  unfold number_char. intros H.
  repeat (apply Bool.orb_false_iff in H; destruct H as [H ?]). auto.
Qed.

Lemma scan_digits_after_app (c : ascii) (a' a rest d r : string) :
  scan_digits_after c a' a = (d, r) -> safe_rest rest ->
  scan_digits_after c (a' ++ rest) (a ++ rest) = (d, r ++ rest).
Proof.
  unfold scan_digits_after. intros Ha Hrest.
  destruct (span_digits a') as [d' r'] eqn:E.
  rewrite (span_digits_app a' rest d' r' E (safe_rest_span rest Hrest)).
  destruct d'; injection Ha as <- <-; reflexivity.
Qed.

Lemma scan_fraction_app (a rest f r : string) :
  scan_fraction a = (f, r) -> safe_rest rest ->
  scan_fraction (a ++ rest) = (f, r ++ rest).
Proof.
  intros Ha Hrest. destruct a as [|c a]; simpl in *.
  - injection Ha as <- <-. destruct rest as [|c rest]; simpl; [reflexivity|].
    simpl in Hrest. destruct (number_char_marks c Hrest) as (-> & _). reflexivity.
  - destruct (Ascii.eqb c ".").
    + apply (scan_digits_after_app c a (String c a) rest f r Ha Hrest).
    + injection Ha as <- <-. reflexivity.
Qed.

Lemma scan_signed_digits_app (a rest d r : string) :
  scan_signed_digits a = (d, r) -> safe_rest rest ->
  scan_signed_digits (a ++ rest) = (d, r ++ rest).
Proof.
  intros Ha Hrest. destruct a as [|c a]; simpl in *.
  - injection Ha as <- <-. destruct rest as [|c rest]; simpl; [reflexivity|].
    simpl in Hrest. destruct (number_char_marks c Hrest) as (_ & _ & _ & -> & ->).
    simpl. now rewrite (number_char_digit c Hrest).
  - destruct (Ascii.eqb c "+" || Ascii.eqb c "-").
    + apply (scan_digits_after_app c a (String c a) rest d r Ha Hrest).
    + apply (span_digits_app (String c a) rest d r Ha (safe_rest_span rest Hrest)).
Qed.

Lemma scan_exponent_app (a rest e r : string) :
  scan_exponent a = (e, r) -> safe_rest rest ->
  scan_exponent (a ++ rest) = (e, r ++ rest).
Proof.
  intros Ha Hrest. destruct a as [|c a]; simpl in *.
  - injection Ha as <- <-. destruct rest as [|c rest]; simpl; [reflexivity|].
    simpl in Hrest. destruct (number_char_marks c Hrest) as (_ & -> & -> & _).
    reflexivity.
  - destruct (Ascii.eqb c "e" || Ascii.eqb c "E").
    + destruct (scan_signed_digits a) as [d' r'] eqn:E.
      rewrite (scan_signed_digits_app a rest d' r' E Hrest).
      destruct d'; injection Ha as <- <-; reflexivity.
    + injection Ha as <- <-. reflexivity.
Qed.

Lemma scan_number_app (a rest i f e r : string) :
  scan_number a = Some (i, f, e, r) -> safe_rest rest ->
  scan_number (a ++ rest) = Some (i, f, e, r ++ rest).
Proof.
  unfold scan_number. intros Ha Hrest.
  destruct (scan_integer a) as [[i' r1]|] eqn:E1; [|discriminate].
  rewrite (scan_integer_app a rest i' r1 E1 (safe_rest_span rest Hrest)).
  destruct (scan_fraction r1) as [f' r2] eqn:E2.
  rewrite (scan_fraction_app r1 rest f' r2 E2 Hrest).
  destruct (scan_exponent r2) as [e' r3] eqn:E3.
  rewrite (scan_exponent_app r2 rest e' r3 E3 Hrest).
  now injection Ha as <- <- <- <-.
Qed.

(** What a scanner returns, put together, is the text it was given. *)
Lemma span_digits_eq (a d r : string) : span_digits a = (d, r) -> a = d ++ r.
Proof.
  revert d r. induction a as [|c a IH]; intros d r H; simpl in H.
  - now injection H as <- <-.
  - destruct (is_digit c).
    + destruct (span_digits a) as [d' r'] eqn:E. injection H as <- <-.
      simpl. now rewrite <- (IH d' r' eq_refl).
    + now injection H as <- <-.
Qed.

Lemma scan_digits_after_eq (c : ascii) (a d r : string) :
  scan_digits_after c a (String c a) = (d, r) -> String c a = d ++ r.
Proof.
  unfold scan_digits_after. intros H.
  destruct (span_digits a) as [d' r'] eqn:E. apply span_digits_eq in E.
  destruct d'; injection H as <- <-; simpl; [reflexivity|]. now rewrite E.
Qed.

Lemma scan_natural_eq (a d r : string) : scan_natural a = Some (d, r) -> a = d ++ r.
Proof.
  destruct a as [|c a]; simpl; [discriminate|]. intros H.
  destruct (Ascii.eqb_spec c "0") as [->|_].
  - now injection H as <- <-.
  - destruct (is_digit c); [|discriminate].
    destruct (span_digits a) as [d' r'] eqn:E. apply span_digits_eq in E.
    injection H as <- <-. simpl. now rewrite E.
Qed.

Lemma scan_integer_eq (a d r : string) : scan_integer a = Some (d, r) -> a = d ++ r.
Proof.
  destruct a as [|c a]; [discriminate|]. unfold scan_integer. intros H.
  destruct (Ascii.eqb c "-").
  - destruct (scan_natural a) as [[d' r']|] eqn:E; [|discriminate].
    apply scan_natural_eq in E. injection H as <- <-. simpl. now rewrite E.
  - now apply scan_natural_eq.
Qed.

Lemma scan_fraction_eq (a f r : string) : scan_fraction a = (f, r) -> a = f ++ r.
Proof.
  destruct a as [|c a]; simpl; intros H.
  - now injection H as <- <-.
  - destruct (Ascii.eqb c ".").
    + now apply scan_digits_after_eq.
    + now injection H as <- <-.
Qed.

Lemma scan_signed_digits_eq (a d r : string) :
  scan_signed_digits a = (d, r) -> a = d ++ r.
Proof.
  destruct a as [|c a]; simpl; intros H.
  - now injection H as <- <-.
  - destruct (Ascii.eqb c "+" || Ascii.eqb c "-").
    + now apply scan_digits_after_eq.
    + now apply (span_digits_eq (String c a)).
Qed.

Lemma scan_exponent_eq (a e r : string) : scan_exponent a = (e, r) -> a = e ++ r.
Proof.
  destruct a as [|c a]; simpl; intros H.
  - now injection H as <- <-.
  - destruct (Ascii.eqb c "e" || Ascii.eqb c "E").
    + destruct (scan_signed_digits a) as [d' r'] eqn:E.
      apply scan_signed_digits_eq in E.
      destruct d'; injection H as <- <-; simpl; [reflexivity|].
      simpl in E. now rewrite E.
    + now injection H as <- <-.
Qed.

Lemma scan_number_eq (a i f e r : string) :
  scan_number a = Some (i, f, e, r) -> a = i ++ f ++ e ++ r.
Proof.
  unfold scan_number. intros H.
  destruct (scan_integer a) as [[i' r1]|] eqn:E1; [|discriminate].
  destruct (scan_fraction r1) as [f' r2] eqn:E2.
  destruct (scan_exponent r2) as [e' r3] eqn:E3.
  injection H as <- <- <- <-.
  apply scan_integer_eq in E1. apply scan_fraction_eq in E2.
  apply scan_exponent_eq in E3. now subst.
Qed.

Lemma str_app_nil_r (a : string) : a ++ "" = a.
Proof. induction a as [|c a IH]; simpl; [reflexivity|now rewrite IH]. Qed.

(** A float literal followed by a safe text is decoded by [parse]. *)
Lemma decode_number_float (parse : string -> option Q) (t rest : string) (q : Q) :
  float_literal t = true -> parse t = Some q -> safe_rest rest ->
  decode_number parse (t ++ rest) = Some (PFloat q, rest).
Proof.
  unfold float_literal, decode_number. intros Hlit Hparse Hrest.
  destruct (scan_number t) as [[[[i f] e] r]|] eqn:E; [|discriminate].
  destruct r; [|discriminate].
  rewrite (scan_number_app t rest i f e "" E Hrest). simpl.
  apply Bool.negb_true_iff in Hlit. rewrite Hlit.
  apply scan_number_eq in E. rewrite str_app_nil_r in E. rewrite <- E, Hparse.
  reflexivity.
Qed.

(** The decimal text of an integer. *)
Lemma span_digits_uint (d : Decimal.uint) (rest : string) :
  span_digits rest = ("", rest) ->
  span_digits (NilEmpty.string_of_uint d ++ rest) = (NilEmpty.string_of_uint d, rest).
Proof.
  intros Hrest. induction d; simpl; try (rewrite IHd; reflexivity).
  exact Hrest.
Qed.

Lemma scan_natural_uint (d : Decimal.uint) (rest : string) :
  d <> Decimal.Nil -> (forall d', d <> Decimal.D0 d') ->
  span_digits rest = ("", rest) ->
  scan_natural (NilEmpty.string_of_uint d ++ rest)
  = Some (NilEmpty.string_of_uint d, rest).
Proof.
  intros Hnil Hzero Hrest.
  destruct d; try congruence; try (exfalso; apply (Hzero d); reflexivity);
    simpl; rewrite (span_digits_uint d rest Hrest); reflexivity.
Qed.

Lemma to_uint_leading (p : positive) (d' : Decimal.uint) :
  Pos.to_uint p <> Decimal.D0 d'.
Proof.
  intros H.
  assert (Hn : Decimal.unorm (Pos.to_uint p) = Pos.to_uint p).
  { rewrite <- DecimalPos.Unsigned.to_of, DecimalPos.Unsigned.of_to. reflexivity. }
  unfold Decimal.unorm in Hn.
  destruct (Decimal.nzhead (Pos.to_uint p)) eqn:E;
    try (rewrite <- Hn in H; discriminate H).
  - apply (DecimalPos.Unsigned.to_uint_nonzero p). now rewrite <- Hn.
  - apply (DecimalFacts.nzhead_nonzero _ _ E).
Qed.

Lemma scan_integer_of_int (z : Z) (rest : string) :
  span_digits rest = ("", rest) ->
  scan_integer (str_of_int z ++ rest) = Some (str_of_int z, rest).
Proof.
  intros Hrest. unfold str_of_int. destruct z as [|p|p]; simpl.
  - reflexivity.
  - pose proof (DecimalPos.Unsigned.to_uint_nonnil p) as Hnil.
    pose proof (to_uint_leading p) as Hlead.
    unfold NilZero.string_of_uint.
    destruct (Pos.to_uint p) eqn:E; try congruence;
      try (exfalso; apply (Hlead u); reflexivity);
      rewrite <- E in *;
      pose proof (scan_natural_uint (Pos.to_uint p) rest Hnil Hlead Hrest) as H;
      rewrite E in *; simpl in *; exact H.
  - pose proof (DecimalPos.Unsigned.to_uint_nonnil p) as Hnil.
    pose proof (to_uint_leading p) as Hlead.
    unfold NilZero.string_of_uint.
    destruct (Pos.to_uint p) eqn:E; try congruence;
      try (exfalso; apply (Hlead u); reflexivity);
      rewrite <- E in *;
      pose proof (scan_natural_uint (Pos.to_uint p) rest Hnil Hlead Hrest) as H;
      rewrite E in *; simpl in *; rewrite H; reflexivity.
Qed.

Lemma scan_fraction_safe (rest : string) : safe_rest rest -> scan_fraction rest = ("", rest).
Proof. intros H. apply (scan_fraction_app "" rest "" "" eq_refl H). Qed.

Lemma scan_exponent_safe (rest : string) : safe_rest rest -> scan_exponent rest = ("", rest).
Proof. intros H. apply (scan_exponent_app "" rest "" "" eq_refl H). Qed.

Lemma int_of_string_of_int (z : Z) :
  NilZero.int_of_string (str_of_int z) = Some (Z.to_int z).
Proof.
  unfold str_of_int. apply NilZero.isi.
  - destruct z as [|p|p]; simpl; try discriminate.
    intros [= H]. apply (DecimalPos.Unsigned.to_uint_nonnil p H).
  - destruct z as [|p|p]; simpl; try discriminate.
    intros [= H]. apply (DecimalPos.Unsigned.to_uint_nonnil p H).
Qed.

Lemma decode_number_int (parse : string -> option Q) (z : Z) (rest : string) :
  safe_rest rest ->
  decode_number parse (str_of_int z ++ rest) = Some (PInt z, rest).
Proof.
  intros Hrest. unfold decode_number, scan_number.
  rewrite (scan_integer_of_int z rest (safe_rest_span rest Hrest)),
    (scan_fraction_safe rest Hrest),
    (scan_exponent_safe rest Hrest). simpl.
  now rewrite int_of_string_of_int, DecimalZ.of_to.
Qed.

(** ** Strings *)

Lemma scanstring_escape_char (c : ascii) (t : string) :
  scanstring (escape_char c ++ t) =
  match scanstring t with
  | Some (u, r) => Some (String c u, r)
  | None => None
  end.
Proof.
  destruct c as [[] [] [] [] [] [] [] []]; reflexivity.
Qed.

Lemma scanstring_escape_chars (s rest : string) :
  scanstring (escape_chars s ++ String dquote rest) = Some (s, rest).
Proof.
  induction s as [|c s IH]; [reflexivity|].
  cbn [escape_chars]. rewrite str_app_assoc, scanstring_escape_char, IH. reflexivity.
Qed.

Lemma encode_basestring_ascii_app (s rest : string) :
  encode_basestring_ascii s ++ rest
  = String dquote (escape_chars s ++ String dquote rest).
Proof. unfold encode_basestring_ascii. simpl. now rewrite str_app_assoc. Qed.

(** ** White space and the first character of a value *)

Lemma skip_whitespace_start (c : ascii) (a : string) :
  is_whitespace c = false -> skip_whitespace (String c a) = String c a.
Proof. intros H. simpl. now rewrite H. Qed.

Lemma skip_whitespace_spaces (n : nat) (t : string) :
  skip_whitespace (str_repeat " " n ++ t) = skip_whitespace t.
Proof. induction n as [|n IH]; [reflexivity|exact IH]. Qed.

Lemma skip_whitespace_newline_indent (level : nat) (t : string) :
  skip_whitespace (newline_indent level ++ t) = skip_whitespace t.
Proof.
  unfold newline_indent. rewrite str_app_assoc. cbn [newline append].
  change (skip_whitespace (String (ascii_of_nat 10) ?x)) with (skip_whitespace x).
  apply skip_whitespace_spaces.
Qed.

Lemma safe_rest_newline_indent (level : nat) (t : string) :
  safe_rest (newline_indent level ++ t).
Proof. reflexivity. Qed.

Lemma value_start_not_whitespace (c : ascii) :
  value_start c = true -> is_whitespace c = false.
Proof.
  unfold value_start. destruct (is_whitespace c); [discriminate|reflexivity].
Qed.

Lemma value_start_marks (c : ascii) :
  value_start c = true ->
  Ascii.eqb c "]" = false /\ Ascii.eqb c "}" = false /\ Ascii.eqb c "," = false.
Proof.
  unfold value_start.
  destruct (is_whitespace c), (Ascii.eqb c "]"), (Ascii.eqb c "}"), (Ascii.eqb c ",");
    simpl; intros H; try discriminate H; auto.
Qed.

(** The first character of a number. *)
Lemma scan_integer_start (t i r : string) :
  scan_integer t = Some (i, r) ->
  exists c a, t = String c a /\ (Ascii.eqb c "-" || is_digit c) = true.
Proof.
  destruct t as [|c a]; [discriminate|]. intros H. exists c, a. split; [reflexivity|].
  unfold scan_integer in H. destruct (Ascii.eqb c "-"); [reflexivity|].
  simpl in H. destruct (Ascii.eqb c "0") eqn:E.
  - apply Ascii.eqb_eq in E. subst. reflexivity.
  - destruct (is_digit c); [reflexivity|discriminate].
Qed.

Lemma number_start_value_start (c : ascii) :
  (Ascii.eqb c "-" || is_digit c) = true -> value_start c = true.
Proof. destruct c as [[] [] [] [] [] [] [] []]; intros H; try discriminate H; reflexivity. Qed.

Lemma scan_once_number (parse : string -> option Q) (fuel : nat) (c : ascii)
    (a : string) :
  (Ascii.eqb c "-" || is_digit c) = true ->
  scan_once parse (S fuel) (String c a) = decode_number parse (String c a).
Proof.
  destruct c as [[] [] [] [] [] [] [] []]; intros H; try discriminate H; reflexivity.
Qed.

Lemma float_literal_start (t : string) :
  float_literal t = true ->
  exists c a, t = String c a /\ (Ascii.eqb c "-" || is_digit c) = true.
Proof.
  unfold float_literal, scan_number. intros H.
  destruct (scan_integer t) as [[i r]|] eqn:E; [|discriminate].
  apply (scan_integer_start t i r E).
Qed.

Lemma str_of_int_start (z : Z) :
  exists c a, str_of_int z = String c a /\ (Ascii.eqb c "-" || is_digit c) = true.
Proof.
  pose proof (scan_integer_of_int z "" eq_refl) as H. rewrite str_app_nil_r in H.
  apply (scan_integer_start _ _ _ H).
Qed.

Section Roundtrip.

Variable repr : Q -> string.
Variable parse : string -> option Q.

Lemma float_reads_back_parts (q : Q) :
  float_reads_back repr parse q = true ->
  float_literal (repr q) = true /\
  exists q', parse (repr q) = Some q' /\ (q' == q)%Q.
Proof.
  unfold float_reads_back. intros H. apply andb_prop in H. destruct H as (Hlit & H).
  split; [exact Hlit|]. destruct (parse (repr q)) as [q'|]; [|discriminate H].
  exists q'. split; [reflexivity|]. apply Qeq_bool_iff, H.
Qed.

Lemma encode_list_cons (level : nat) (x : pyval) (l : list pyval) :
  encode repr level (PList (x :: l)) =
  "[" ++ newline_indent (S level)
      ++ join ("," ++ newline_indent (S level)) (map (encode repr (S level)) (x :: l))
      ++ newline_indent level ++ "]".
Proof. reflexivity. Qed.

Lemma encode_dict_cons (level : nat) (kv : string * pyval) (d : py_dict) :
  encode repr level (PDict (kv :: d)) =
  "{" ++ newline_indent (S level)
      ++ join ("," ++ newline_indent (S level))
           (map (fun kv => encode_basestring_ascii (fst kv) ++ ": "
                             ++ encode repr (S level) (snd kv)) (kv :: d))
      ++ newline_indent level ++ "}".
Proof. reflexivity. Qed.

(** Every encoded value begins with a character that starts a value. *)
Lemma encode_start (level : nat) (v : pyval) :
  serializable repr parse v ->
  exists c a, encode repr level v = String c a /\ value_start c = true.
Proof.
  intros H. destruct H as [|b|z|t|q Hq|l Hl|d Hnd Hd].
  - eexists _, _. split; reflexivity.
  - destruct b; eexists _, _; split; reflexivity.
  - destruct (str_of_int_start z) as (c & a & E & Hc). exists c, a.
    split; [exact E|apply number_start_value_start, Hc].
  - eexists _, _. split; reflexivity.
  - destruct (float_reads_back_parts q Hq) as (Hlit & _).
    destruct (float_literal_start _ Hlit) as (c & a & E & Hc). exists c, a.
    split; [exact E|apply number_start_value_start, Hc].
  - destruct l; eexists _, _; split; reflexivity.
  - destruct d; eexists _, _; split; reflexivity.
Qed.

Lemma skip_whitespace_encode (level : nat) (v : pyval) (t : string) :
  serializable repr parse v ->
  skip_whitespace (encode repr level v ++ t) = encode repr level v ++ t.
Proof.
  intros H. destruct (encode_start level v H) as (c & a & -> & Hc).
  apply skip_whitespace_start, value_start_not_whitespace, Hc.
Qed.

End Roundtrip.

(** Induction on values, with the hypothesis for every element of a list
    and every member of a dictionary. *)
Lemma pyval_nested_ind (P : pyval -> Prop) :
  P PNone ->
  (forall b, P (PBool b)) ->
  (forall z, P (PInt z)) ->
  (forall q, P (PFloat q)) ->
  (forall s, P (PStr s)) ->
  (forall l, Forall P l -> P (PList l)) ->
  (forall d, Forall (fun kv => P (snd kv)) d -> P (PDict d)) ->
  forall v, P v.
Proof.
  intros Hnone Hbool Hint Hfloat Hstr Hlist Hdict.
  fix IH 1. intros [|b|z|q|s|l|d].
  - exact Hnone.
  - apply Hbool.
  - apply Hint.
  - apply Hfloat.
  - apply Hstr.
  - apply Hlist. induction l as [|x l IHl]; constructor; [apply IH|exact IHl].
  - apply Hdict. induction d as [|[k x] d IHd]; constructor; [apply IH|exact IHd].
Qed.

Lemma dict_set_fresh (acc : py_dict) (k : string) (v : pyval) :
  ~ In k (dict_keys acc) -> dict_set acc k v = (acc ++ [(k, v)])%list.
Proof.
  unfold dict_keys. induction acc as [|[k' v'] acc IH]; simpl; intros H; [reflexivity|].
  destruct (String.eqb_spec k k') as [->|_]; [tauto|].
  rewrite IH; [reflexivity|tauto].
Qed.

Lemma join_cons2 (sep a b : string) (l : list string) :
  join sep (a :: b :: l) = a ++ sep ++ join sep (b :: l).
Proof. reflexivity. Qed.

Lemma is_prefix_head (c c' : ascii) (t : string) :
  is_prefix (String c "") (String c' t) = Ascii.eqb c c'.
Proof. simpl. apply Bool.andb_true_r. Qed.

Section Values.

Variable repr : Q -> string.
Variable parse : string -> option Q.

Lemma elements_S (fuel : nat) (s : string) :
  elements parse (S fuel) s =
  match scan_once parse fuel s with
  | Some (v, r) =>
      if is_prefix "]" (skip_whitespace r) then Some ([v], tail (skip_whitespace r))
      else if is_prefix "," (skip_whitespace r) then
        match elements parse fuel (skip_whitespace (tail (skip_whitespace r))) with
        | Some (l, r2) => Some (v :: l, r2)
        | None => None
        end
      else None
  | None => None
  end.
Proof. reflexivity. Qed.

Lemma members_S (fuel : nat) (s : string) (acc : py_dict) :
  members parse (S fuel) (String dquote s) acc =
  match scanstring s with
  | Some (key, r) =>
      if is_prefix ":" (skip_whitespace r) then
        match scan_once parse fuel (skip_whitespace (tail (skip_whitespace r))) with
        | Some (v, r2) =>
            if is_prefix "}" (skip_whitespace r2) then
              Some (dict_set acc key v, tail (skip_whitespace r2))
            else if is_prefix "," (skip_whitespace r2) then
              members parse fuel (skip_whitespace (tail (skip_whitespace r2)))
                (dict_set acc key v)
            else None
        | None => None
        end
      else None
  | None => None
  end.
Proof. reflexivity. Qed.

(** The text of the elements of a list, up to the closing bracket. *)
Lemma elements_encode (level : nat) (l : list pyval) :
  l <> [] ->
  Forall (serializable repr parse) l ->
  Forall (reads_back repr parse) l ->
  forall (rest : string) (fuel : nat),
    (list_sum (map (fun x => S (size x)) l) <= fuel)%nat ->
    elements parse fuel
      (join ("," ++ newline_indent (S level)) (map (encode repr (S level)) l)
         ++ newline_indent level ++ "]" ++ rest)
    = Some (map (as_read repr parse) l, rest).
Proof.
  induction l as [|x l IH]; [congruence|].
  intros _ Hser Hrb rest fuel Hfuel.
  inversion Hser as [|? ? Hx Hl]; subst. inversion Hrb as [|? ? Rx Rl]; subst.
  simpl in Hfuel. destruct fuel as [|fuel]; [lia|].
  rewrite elements_S. destruct l as [|y l].
  - cbn [map join].
    rewrite (Rx (S level) _ fuel (safe_rest_newline_indent level _)); [|lia].
    rewrite skip_whitespace_newline_indent. cbn [append].
    rewrite (skip_whitespace_start "]" _ eq_refl), is_prefix_head. reflexivity.
  - cbn [map]. rewrite join_cons2, !str_app_assoc. cbn [append].
    rewrite (Rx (S level) _ fuel); [|reflexivity|lia].
    rewrite (skip_whitespace_start "," _ eq_refl), !is_prefix_head.
    change (Ascii.eqb "]" ",") with false. change (Ascii.eqb "," ",") with true.
    cbn iota. cbn [tail].
    rewrite skip_whitespace_newline_indent.
    assert (Hskip : forall t,
              skip_whitespace
                (join ("," ++ newline_indent (S level))
                   (encode repr (S level) y :: map (encode repr (S level)) l) ++ t)
              = join ("," ++ newline_indent (S level))
                  (encode repr (S level) y :: map (encode repr (S level)) l) ++ t).
    { intros t. inversion Hl as [|? ? Hy _]; subst.
      destruct l as [|z l]; cbn [map join].
      - apply (skip_whitespace_encode repr parse), Hy.
      - rewrite !str_app_assoc. apply (skip_whitespace_encode repr parse), Hy. }
    rewrite Hskip.
    change (encode repr (S level) y :: map (encode repr (S level)) l)
      with (map (encode repr (S level)) (y :: l)).
    assert (E := IH ltac:(discriminate) Hl Rl rest fuel ltac:(simpl in Hfuel |- *; lia)).
    cbn [append] in E |- *. rewrite E. reflexivity.
Qed.

End Values.

Section Members.

Variable repr : Q -> string.
Variable parse : string -> option Q.

(** The text of the members of a dictionary, up to the closing brace. *)
Lemma members_encode (level : nat) (d : py_dict) :
  d <> [] ->
  NoDup (dict_keys d) ->
  Forall (fun kv => serializable repr parse (snd kv)) d ->
  Forall (fun kv => reads_back repr parse (snd kv)) d ->
  forall (acc : py_dict) (rest : string) (fuel : nat),
    (forall k, In k (dict_keys d) -> ~ In k (dict_keys acc)) ->
    (list_sum (map (fun kv => S (size (snd kv))) d) <= fuel)%nat ->
    members parse fuel
      (join ("," ++ newline_indent (S level))
         (map (fun kv => encode_basestring_ascii (fst kv) ++ ": "
                           ++ encode repr (S level) (snd kv)) d)
         ++ newline_indent level ++ "}" ++ rest) acc
    = Some ((acc ++ map (fun kv => (fst kv, as_read repr parse (snd kv))) d)%list, rest).
Proof.
  induction d as [|[k v] d IH]; [congruence|].
  intros _ Hnd Hser Hrb acc rest fuel Hfresh Hfuel.
  inversion Hser as [|? ? Hv Hd]; subst. inversion Hrb as [|? ? Rv Rd]; subst.
  inversion Hnd as [|? ? Hk Hnd']; subst.
  simpl in Hv, Rv. simpl in Hfuel. destruct fuel as [|fuel]; [lia|].
  assert (Hkey : dict_set acc k (as_read repr parse v) =
                 (acc ++ [(k, as_read repr parse v)])%list).
  { apply dict_set_fresh, Hfresh. left. reflexivity. }
  destruct d as [|[k2 v2] d].
  - cbn [map join fst snd]. rewrite !str_app_assoc, encode_basestring_ascii_app.
    rewrite members_S, scanstring_escape_chars. cbn [append].
    rewrite (skip_whitespace_start ":" _ eq_refl), is_prefix_head.
    change (Ascii.eqb ":" ":") with true. cbn iota. cbn [tail].
    change (skip_whitespace (String " " ?t)) with (skip_whitespace t).
    rewrite (skip_whitespace_encode repr parse _ _ _ Hv).
    rewrite (Rv (S level) _ fuel (safe_rest_newline_indent level _)); [|lia].
    rewrite skip_whitespace_newline_indent.
    rewrite (skip_whitespace_start "}" _ eq_refl), is_prefix_head.
    change (Ascii.eqb "}" "}") with true. cbn iota. cbn [tail].
    now rewrite Hkey.
  - cbn [map]. rewrite join_cons2. cbn [fst snd].
    rewrite !str_app_assoc, encode_basestring_ascii_app.
    rewrite members_S, scanstring_escape_chars. cbn [append].
    rewrite (skip_whitespace_start ":" _ eq_refl), is_prefix_head.
    change (Ascii.eqb ":" ":") with true. cbn iota. cbn [tail].
    change (skip_whitespace (String " " ?t)) with (skip_whitespace t).
    rewrite (skip_whitespace_encode repr parse _ _ _ Hv).
    rewrite (Rv (S level) _ fuel); [|reflexivity|lia].
    rewrite (skip_whitespace_start "," _ eq_refl), !is_prefix_head.
    change (Ascii.eqb "}" ",") with false. change (Ascii.eqb "," ",") with true.
    cbn iota. cbn [tail]. rewrite skip_whitespace_newline_indent.
    assert (E := IH ltac:(discriminate) Hnd' Hd Rd
                   (dict_set acc k (as_read repr parse v)) rest fuel).
    cbn [map] in E. rewrite join_cons2 in E || idtac.
    assert (Hskip : forall t a, skip_whitespace (encode_basestring_ascii a ++ t)
                                = encode_basestring_ascii a ++ t).
    { intros t a. rewrite encode_basestring_ascii_app.
      apply skip_whitespace_start. reflexivity. }
    assert (Hhead : forall l t,
              skip_whitespace
                (join ("," ++ newline_indent (S level))
                   ((encode_basestring_ascii k2 ++ ": " ++ encode repr (S level) v2)
                      :: l) ++ t)
              = join ("," ++ newline_indent (S level))
                  ((encode_basestring_ascii k2 ++ ": " ++ encode repr (S level) v2)
                     :: l) ++ t).
    { intros l t. destruct l; cbn [join]; rewrite !str_app_assoc; apply Hskip. }
    cbn [fst snd] in E |- *. cbn [append] in E |- *.
    cbn [append] in Hhead. rewrite Hhead.
    rewrite E.
    + rewrite Hkey, <- app_assoc. reflexivity.
    + intros k' Hin. rewrite Hkey. unfold dict_keys. rewrite map_app, in_app_iff.
      simpl. intros [Hacc|[<-|[]]].
      * apply (Hfresh k'); [right; exact Hin|exact Hacc].
      * apply Hk. exact Hin.
    + simpl in Hfuel |- *. lia.
Qed.

End Members.

Section Values_read_back.

Variable repr : Q -> string.
Variable parse : string -> option Q.

Lemma scan_once_string (fuel : nat) (s : string) :
  scan_once parse (S fuel) (String dquote s) =
  match scanstring s with
  | Some (t, r) => Some (PStr t, r)
  | None => None
  end.
Proof. reflexivity. Qed.

Lemma scan_once_list (fuel : nat) (s : string) :
  scan_once parse (S fuel) (String "[" s) =
  if is_prefix "]" (skip_whitespace s) then Some (PList [], tail (skip_whitespace s))
  else
    match elements parse fuel (skip_whitespace s) with
    | Some (l, r) => Some (PList l, r)
    | None => None
    end.
Proof. reflexivity. Qed.

Lemma scan_once_dict (fuel : nat) (s : string) :
  scan_once parse (S fuel) (String "{" s) =
  if is_prefix "}" (skip_whitespace s) then Some (PDict [], tail (skip_whitespace s))
  else
    match members parse fuel (skip_whitespace s) [] with
    | Some (d, r) => Some (PDict d, r)
    | None => None
    end.
Proof. reflexivity. Qed.

(** Every serializable value is read back from its text. *)
Lemma encode_reads_back (v : pyval) :
  serializable repr parse v -> reads_back repr parse v.
Proof.
  induction v as [|b|z|q|s|l IH|d IH] using pyval_nested_ind;
    intros Hser level rest fuel Hrest Hfuel;
    (destruct fuel as [|fuel]; [simpl in Hfuel; lia|]).
  - reflexivity.
  - destruct b; reflexivity.
  - destruct (str_of_int_start z) as (c & a & E & Hc).
    cbn [encode]. rewrite E. cbn [append]. rewrite (scan_once_number _ _ _ _ Hc).
    change (String c (a ++ rest)) with (String c a ++ rest). rewrite <- E.
    apply decode_number_int, Hrest.
  - inversion Hser as [| | | |? Hq| |]; subst.
    destruct (float_reads_back_parts repr parse q Hq) as (Hlit & q' & Hparse & _).
    destruct (float_literal_start _ Hlit) as (c & a & E & Hc).
    cbn [encode as_read]. rewrite Hparse, E. cbn [append].
    rewrite (scan_once_number _ _ _ _ Hc).
    change (String c (a ++ rest)) with (String c a ++ rest). rewrite <- E.
    apply (decode_number_float parse _ rest q' Hlit Hparse Hrest).
  - cbn [encode]. rewrite encode_basestring_ascii_app, scan_once_string.
    now rewrite scanstring_escape_chars.
  - inversion Hser as [| | | | |? Hl|]; subst.
    assert (Rl : Forall (reads_back repr parse) l).
    { clear Hfuel Hser. induction IH as [|x l Hx _ IHl]; constructor.
      - apply Hx. now inversion Hl.
      - apply IHl. now inversion Hl. }
    destruct l as [|x l]; [reflexivity|].
    rewrite encode_list_cons, !str_app_assoc. cbn [append].
    rewrite scan_once_list, skip_whitespace_newline_indent.
    assert (Hhead : forall t,
              exists c a,
                join (String "," (newline_indent (S level)))
                  (map (encode repr (S level)) (x :: l)) ++ t = String c a /\
                value_start c = true).
    { intros t. inversion Hl as [|? ? Hx _]; subst.
      destruct (encode_start repr parse (S level) x Hx) as (c & a & E & Hc).
      destruct l; cbn [map join]; rewrite ?str_app_assoc, E; eexists _, _;
        (split; [reflexivity|exact Hc]). }
    destruct (Hhead (newline_indent level ++ String "]" rest)) as (c & a & E & Hc).
    assert (E' := elements_encode repr parse level (x :: l) ltac:(discriminate)
                    Hl Rl rest fuel ltac:(simpl in Hfuel |- *; lia)).
    cbn [append] in E'. rewrite E in E' |- *.
    rewrite (skip_whitespace_start c a (value_start_not_whitespace c Hc)), is_prefix_head.
    destruct (value_start_marks c Hc) as (H1 & _). rewrite Ascii.eqb_sym, H1, E'.
    reflexivity.
  - inversion Hser as [| | | | | |? Hnd Hd]; subst.
    assert (Rd : Forall (fun kv => reads_back repr parse (snd kv)) d).
    { clear Hfuel Hser Hnd. induction IH as [|x l Hx _ IHl]; constructor.
      - apply Hx. now inversion Hd.
      - apply IHl. now inversion Hd. }
    destruct d as [|[k x] d]; [reflexivity|].
    rewrite encode_dict_cons, !str_app_assoc. cbn [append].
    rewrite scan_once_dict, skip_whitespace_newline_indent.
    assert (E' := members_encode repr parse level ((k, x) :: d) ltac:(discriminate)
                    Hnd Hd Rd [] rest fuel ltac:(intros ? ? [])
                    ltac:(simpl in Hfuel |- *; lia)).
    cbn [append] in E'.
    assert (Hhead : forall t,
              exists a,
                join (String "," (newline_indent (S level)))
                  (map (fun kv => encode_basestring_ascii (fst kv) ++
                                  String ":" (String " " (encode repr (S level) (snd kv))))
                     ((k, x) :: d)) ++ t = String dquote a).
    { intros t. destruct d; cbn [map join fst snd];
        rewrite ?str_app_assoc, encode_basestring_ascii_app; eexists; reflexivity. }
    destruct (Hhead (newline_indent level ++ String "}" rest)) as (a & E).
    rewrite E in E' |- *.
    rewrite (skip_whitespace_start dquote a eq_refl), is_prefix_head.
    change (Ascii.eqb "}" dquote) with false. cbn iota. rewrite E'. reflexivity.
Qed.

End Values_read_back.

Lemma join_length {A : Type} (f : A -> string) (g : A -> nat) (sep : string)
    (l : list A) :
  l <> [] -> (1 <= String.length sep)%nat ->
  Forall (fun x => (g x <= String.length (f x))%nat) l ->
  (list_sum (map (fun x => S (g x)) l) <= String.length (join sep (map f l)) + 1)%nat.
Proof.
  intros Hne Hsep Hall. induction l as [|x l IH]; [congruence|].
  inversion Hall as [|? ? Hx Hl]; subst. destruct l as [|y l].
  - simpl. lia.
  - cbn [map]. rewrite join_cons2, !str_length_app.
    specialize (IH ltac:(discriminate) Hl). cbn [map] in IH.
    change (list_sum (S (g x) :: ?t)) with (S (g x) + list_sum t)%nat. lia.
Qed.

Lemma newline_indent_length (level : nat) : (1 <= String.length (newline_indent level))%nat.
Proof. unfold newline_indent. rewrite str_length_app. simpl. lia. Qed.

Section Lengths.

Variable repr : Q -> string.
Variable parse : string -> option Q.

(** The text of a value is at least as long as the value is large, so the
    fuel [loads] takes from the length of the text is enough. *)
Lemma size_le_length (v : pyval) :
  serializable repr parse v ->
  forall level, (size v <= String.length (encode repr level v))%nat.
Proof.
  induction v as [|b|z|q|s|l IH|d IH] using pyval_nested_ind; intros Hser level;
    try (destruct (encode_start repr parse level _ Hser) as (c & a & -> & _);
         simpl; lia).
  - inversion Hser as [| | | | |? Hl|]; subst.
    destruct l as [|x l]; [simpl; lia|].
    rewrite encode_list_cons, !str_length_app.
    pose proof (newline_indent_length (S level)) as H1.
    assert (H2 : (list_sum (map (fun x => S (size x)) (x :: l))
                  <= String.length
                       (join ("," ++ newline_indent (S level))
                          (map (encode repr (S level)) (x :: l))) + 1)%nat).
    { apply join_length; [discriminate|simpl; lia|].
      clear Hser. induction IH as [|y l' Hy _ IHl]; constructor.
      - apply Hy. now inversion Hl.
      - apply IHl. now inversion Hl. }
    change (size (PList (x :: l)))
      with (S (list_sum (map (fun x => S (size x)) (x :: l)))).
    simpl String.length at 1. lia.
  - inversion Hser as [| | | | | |? Hnd Hd]; subst.
    destruct d as [|kv d]; [simpl; lia|].
    rewrite encode_dict_cons, !str_length_app.
    pose proof (newline_indent_length (S level)) as H1.
    assert (H2 : (list_sum (map (fun kv => S (size (snd kv))) (kv :: d))
                  <= String.length
                       (join ("," ++ newline_indent (S level))
                          (map (fun kv => encode_basestring_ascii (fst kv) ++ ": "
                                            ++ encode repr (S level) (snd kv))
                             (kv :: d))) + 1)%nat).
    { apply (join_length _ (fun kv => size (snd kv))); [discriminate|simpl; lia|].
      clear Hser Hnd. induction IH as [|y l' Hy _ IHl]; constructor.
      - rewrite !str_length_app. specialize (Hy ltac:(now inversion Hd) (S level)). lia.
      - apply IHl. now inversion Hd. }
    change (size (PDict (kv :: d)))
      with (S (list_sum (map (fun kv => S (size (snd kv))) (kv :: d)))).
    simpl String.length at 1. lia.
Qed.

(** [json.loads(json.dumps(v, indent=2)) == v] *)
Lemma loads_dumps (v : pyval) :
  serializable repr parse v ->
  loads parse (dumps repr v) = Some (as_read repr parse v).
Proof.
  intros Hser. unfold loads, dumps.
  rewrite <- (str_app_nil_r (encode repr 0%nat v)) at 2.
  rewrite (skip_whitespace_encode repr parse 0%nat v "" Hser).
  rewrite (encode_reads_back repr parse v Hser 0%nat "" _ I); [reflexivity|].
  pose proof (size_le_length v Hser 0%nat). lia.
Qed.

End Lengths.

(* ================================================================== *)
(** * Further properties of the client *)

Lemma vector_search_http (self : VectraClient) (query : string) (limit : Z) :
  embedded self = false ->
  vector_search self query limit =
  over_http (base_url self ++ "/vector/search")
    [("query", PStr query); ("limit", PInt limit)] "Failed to perform vector search: ".
Proof. intros H. unfold vector_search. rewrite H. reflexivity. Qed.

(** X1.  On the network transport, [vector_search] makes exactly one
    request: the POST of [{"query": query, "limit": limit}] to
    [base_url/vector/search] with a timeout of 30 seconds.  It returns the
    decoded body unchanged, and a failure of the request library is raised
    as a [RuntimeError] whose message is [Failed to perform vector search: ]
    followed by the cause. *)
Theorem vector_search_posts_query_and_limit
    (self : VectraClient) (query : string) (limit : Z) (w : world) (s : pstate)
    (Hnet : embedded self = false) :
  let url := base_url self ++ "/vector/search" in
  let payload := [("query", PStr query); ("limit", PInt limit)] in
  let call_outcome := exchange (requests_post w (tick s) url payload 30) in
  events_of (vector_search self query limit) w s = [HttpPost url payload 30] /\
  (forall body, call_outcome = Ok body ->
     fst (vector_search self query limit w s) = Ok body) /\
  (forall cause, call_outcome = Raise cause -> is_RequestException cause = true ->
     fst (vector_search self query limit w s) =
     Raise (mk_exn RuntimeError ("Failed to perform vector search: " ++ exn_msg cause))).
Proof.
  intros url payload call_outcome.
  rewrite (vector_search_http self query limit Hnet).
  split; [apply events_of_over_http|].
  rewrite over_http_outcome. fold url payload call_outcome.
  split.
  - intros body ->. reflexivity.
  - intros cause -> Hreq. now rewrite Hreq.
Qed.

Lemma vector_search_posts_query_and_limit_witness :
  embedded http_client = false /\
  events_of (vector_search http_client "machine learning" 5) offline_world initial =
  [HttpPost "http://localhost:8080/vector/search"
     [("query", PStr "machine learning"); ("limit", PInt 5)] 30] /\
  fst (vector_search http_client "machine learning" 5 offline_world initial) =
  Raise (mk_exn RuntimeError "Failed to perform vector search: Connection refused").
Proof.
  split; [reflexivity|].
  destruct (vector_search_posts_query_and_limit http_client "machine learning" 5
              offline_world initial eq_refl) as (He & _ & Hr).
  split; [exact He|].
  exact (Hr connection_refused eq_refl eq_refl).
Defined.

Lemma subscribe_stream_outcome (self : VectraClient) (topic_ : string) (w : world)
    (s : pstate) :
  embedded self = false ->
  subscribe_stream self topic_ w s =
  (match exchange (requests_post w (tick s) (base_url self ++ "/stream/subscribe")
                     [("topic", PStr topic_)] 30) with
   | Ok (PDict data) =>
       Ok (MockSubscription
             (mk_MockStreamSubscription
                (dict_get_default data "subscription_id" (PStr "unknown"))
                topic_
                (dict_get_default data "status" (PStr "unknown"))))
   | Ok data =>
       Raise (mk_exn AttributeError
                ("'" ++ type_name data ++ "' object has no attribute 'get'"))
   | Raise e =>
       if is_RequestException e
       then Raise (mk_exn RuntimeError ("Failed to subscribe to stream: " ++ exn_msg e))
       else Raise e
   end,
   after_tick (after_event s (HttpPost (base_url self ++ "/stream/subscribe")
                                [("topic", PStr topic_)] 30))).
Proof.
  intros Hnet. unfold subscribe_stream. rewrite Hnet.
  unfold try_except, bind, post, emit, ask, call, raise, ret, exchange, after_tick,
    after_event. simpl.
  destruct (requests_post w (tick s) (base_url self ++ "/stream/subscribe")
              [("topic", PStr topic_)] 30) as [resp|e]; simpl.
  - destruct (raise_for_status resp) as [[]|e]; simpl.
    + destruct (json resp) as [d|e]; simpl; [destruct d; reflexivity|].
      destruct (is_RequestException e); reflexivity.
    + destruct (is_RequestException e); reflexivity.
  - destruct (is_RequestException e); reflexivity.
Qed.

Lemma health_check_result (self : VectraClient) (w : world) (s : pstate) :
  health_check self w s =
  (match exchange (requests_get w (tick s) (base_url self ++ "/health") 10) with
   | Ok d => Ok d
   | Raise e =>
       if is_RequestException e
       then Raise (mk_exn RuntimeError ("Health check failed: " ++ exn_msg e))
       else Raise e
   end,
   after_tick (after_event s (HttpGet (base_url self ++ "/health") 10))).
Proof.
  unfold health_check, try_except, bind, get, emit, ask, call, raise, exchange,
    after_tick, after_event. simpl.
  destruct (requests_get w (tick s) (base_url self ++ "/health") 10) as [resp|e]; simpl.
  - destruct (raise_for_status resp) as [[]|e]; simpl.
    + destruct (json resp) as [d|e]; simpl; [reflexivity|].
      destruct (is_RequestException e); reflexivity.
    + destruct (is_RequestException e); reflexivity.
  - destruct (is_RequestException e); reflexivity.
Qed.

(** X2.  The four methods that talk HTTP catch only the exceptions of the
    request library.  An exception of any other class raised by the call,
    by the status check or by the decoding of the body (a
    [KeyboardInterrupt], a [ValueError], ...) leaves [execute_query],
    [vector_search], [subscribe_stream] and [health_check] unchanged: it is
    not wrapped in a [RuntimeError]. *)
Theorem foreign_exceptions_are_not_wrapped
    (self : VectraClient) (w : world) (s : pstate) (e : exn)
    (Hnet : embedded self = false) (He : is_RequestException e = false) :
  (forall sql,
     exchange (requests_post w (tick s) (base_url self ++ "/query")
                 [("query", PStr sql)] 30) = Raise e ->
     fst (execute_query self sql w s) = Raise e) /\
  (forall query limit,
     exchange (requests_post w (tick s) (base_url self ++ "/vector/search")
                 [("query", PStr query); ("limit", PInt limit)] 30) = Raise e ->
     fst (vector_search self query limit w s) = Raise e) /\
  (forall topic_,
     exchange (requests_post w (tick s) (base_url self ++ "/stream/subscribe")
                 [("topic", PStr topic_)] 30) = Raise e ->
     fst (subscribe_stream self topic_ w s) = Raise e) /\
  (exchange (requests_get w (tick s) (base_url self ++ "/health") 10) = Raise e ->
   fst (health_check self w s) = Raise e).
Proof.
  repeat split.
  - intros sql H. rewrite (execute_query_http self sql Hnet), over_http_outcome, H.
    now rewrite He.
  - intros query limit H.
    rewrite (vector_search_http self query limit Hnet), over_http_outcome, H.
    now rewrite He.
  - intros topic_ H. rewrite (subscribe_stream_outcome self topic_ w s Hnet). simpl.
    rewrite H. now rewrite He.
  - intros H. rewrite health_check_result. simpl. rewrite H. now rewrite He.
Qed.

Lemma foreign_exceptions_are_not_wrapped_witness :
  embedded http_client = false /\
  is_RequestException (mk_exn KeyboardInterrupt "") = false /\
  fst (execute_query http_client "SELECT 1" interrupted_world initial) =
  Raise (mk_exn KeyboardInterrupt "") /\
  fst (health_check http_client interrupted_world initial) =
  Raise (mk_exn KeyboardInterrupt "").
Proof.
  split; [reflexivity|]. split; [reflexivity|].
  destruct (foreign_exceptions_are_not_wrapped http_client interrupted_world initial
              (mk_exn KeyboardInterrupt "") eq_refl eq_refl) as (Hq & _ & _ & Hh).
  split; [exact (Hq "SELECT 1" eq_refl)|exact (Hh eq_refl)].
Defined.

(** X3.  On the network transport, [subscribe_stream] makes one POST of
    [{"topic": topic}] to [base_url/stream/subscribe] and reads the decoded
    body with [data.get(..., "unknown")].  When the body is a dictionary the
    handle carries the requested topic, and its id and its status are those
    of the body, or the text [unknown] for a field the body lacks.  When the
    body is any other value (the body [null], a list, a number, a string)
    the lookup of [get] raises [AttributeError], which is not an exception
    of the request library: it leaves [subscribe_stream] as it is, and no
    handle is returned. *)
Theorem subscribe_stream_missing_fields_are_unknown
    (self : VectraClient) (topic_ : string) (w : world) (s : pstate) (body : pyval)
    (Hnet : embedded self = false)
    (Hack : exchange (requests_post w (tick s) (base_url self ++ "/stream/subscribe")
                        [("topic", PStr topic_)] 30) = Ok body) :
  (forall ack, body = PDict ack ->
     exists handle,
       fst (subscribe_stream self topic_ w s) = Ok (MockSubscription handle) /\
       get_topic handle = topic_ /\
       (dict_get ack "subscription_id" = None -> get_id handle = PStr "unknown") /\
       (dict_get ack "status" = None -> get_status handle = PStr "unknown") /\
       (forall v, dict_get ack "subscription_id" = Some v -> get_id handle = v) /\
       (forall v, dict_get ack "status" = Some v -> get_status handle = v)) /\
  ((forall ack, body <> PDict ack) ->
     fst (subscribe_stream self topic_ w s) =
     Raise (mk_exn AttributeError
              ("'" ++ type_name body ++ "' object has no attribute 'get'"))) /\
  events_of (subscribe_stream self topic_) w s =
  [HttpPost (base_url self ++ "/stream/subscribe") [("topic", PStr topic_)] 30].
Proof.
  split; [|split].
  - intros ack ->. eexists. split.
    + rewrite (subscribe_stream_outcome self topic_ w s Hnet). simpl. rewrite Hack.
      reflexivity.
    + unfold get_topic, get_id, get_status, dict_get_default. simpl.
      split; [reflexivity|].
      split; [now intros ->|]. split; [now intros ->|].
      split; [now intros v ->|]. now intros v ->.
  - intros Hother. rewrite (subscribe_stream_outcome self topic_ w s Hnet). simpl.
    rewrite Hack. destruct body; try reflexivity. now destruct (Hother d).
  - apply events_of_appended.
    rewrite (subscribe_stream_outcome self topic_ w s Hnet). reflexivity.
Qed.

Lemma subscribe_stream_missing_fields_are_unknown_witness :
  embedded http_client = false /\
  fst (subscribe_stream http_client "orders" healthy_world initial) =
  Ok (MockSubscription
        (mk_MockStreamSubscription (PStr "unknown") "orders" (PStr "healthy"))) /\
  fst (subscribe_stream http_client "orders" null_body_world initial) =
  Raise (mk_exn AttributeError "'NoneType' object has no attribute 'get'").
Proof.
  split; [reflexivity|]. split.
  - destruct (subscribe_stream_missing_fields_are_unknown http_client "orders"
                healthy_world initial (PDict [("status", PStr "healthy")])
                eq_refl eq_refl) as (H & _ & _).
    destruct (H _ eq_refl) as (handle & -> & Htopic & Hid & _ & _ & Hst).
    destruct handle as [i t st]. simpl in *.
    rewrite Htopic, (Hid eq_refl), (Hst _ eq_refl). reflexivity.
  - destruct (subscribe_stream_missing_fields_are_unknown http_client "orders"
                null_body_world initial PNone eq_refl eq_refl) as (_ & H & _).
    rewrite H; [reflexivity|discriminate].
Defined.

(** X4.  Whatever the transport mode of the client, [health_check] makes
    one world interaction, returns the decoded body of the [GET] unchanged,
    raises a failure of the request library as a [RuntimeError] whose
    message is [Health check failed: ] followed by the cause, and lets any
    other exception through unchanged.  It consults the native client
    never. *)
Theorem health_check_returns_body_or_raises
    (self : VectraClient) (w : world) (s : pstate) :
  let call_outcome :=
    exchange (requests_get w (tick s) (base_url self ++ "/health") 10) in
  let outcome := fst (health_check self w s) in
  (forall body, call_outcome = Ok body -> outcome = Ok body) /\
  (forall cause, call_outcome = Raise cause -> is_RequestException cause = true ->
     outcome = Raise (mk_exn RuntimeError ("Health check failed: " ++ exn_msg cause))) /\
  (forall cause, call_outcome = Raise cause -> is_RequestException cause = false ->
     outcome = Raise cause) /\
  raised outcome = raised call_outcome /\
  tick (snd (health_check self w s)) = S (tick s) /\
  filter is_native (events_of (health_check self) w s) = [].
Proof.
  intros call_outcome outcome. subst outcome.
  rewrite events_of_health_check, health_check_result. simpl. fold call_outcome.
  repeat split.
  - now intros body ->.
  - intros cause -> H. now rewrite H.
  - intros cause -> H. now rewrite H.
  - destruct call_outcome as [d|e]; [reflexivity|].
    now destruct (is_RequestException e).
Qed.

(** X5.  On a client with the embedded transport, every forwarded method
    returns what the native method returned and raises what it raised: the
    exception is not wrapped, and the arguments reach the native client as
    they were given.  No HTTP request is made by any operation other than
    the health check. *)
Theorem embedded_calls_return_the_native_outcome
    (self : VectraClient) (w : world) (s : pstate) (Hemb : embedded self = true) :
  (forall sql,
     fst (execute_query self sql w s) = rs_execute_query (rust w) (tick s) sql) /\
  (forall query limit,
     fst (vector_search self query limit w s) =
     rs_vector_search (rust w) (tick s) query limit) /\
  (forall topic_,
     fst (subscribe_stream self topic_ w s) =
     match rs_subscribe_stream (rust w) (tick s) topic_ with
     | Ok o => Ok (NativeSubscription o)
     | Raise e => Raise e
     end) /\
  (forall name schema,
     fst (create_table self name schema w s) =
     rs_create_table (rust w) (tick s) name schema) /\
  (forall table data,
     fst (insert_data self [table; data] w s) =
     rs_insert_data (rust w) (tick s) table data) /\
  (forall table column,
     fst (create_vector_index self table column w s) =
     match rs_create_vector_index (rust w) (tick s) table column with
     | Ok o => Ok (NativeIndex o)
     | Raise e => Raise e
     end) /\
  fst (list_tables self w s) = rs_list_tables (rust w) (tick s) /\
  (forall table,
     fst (get_table_info self table w s) = rs_get_table_info (rust w) (tick s) table) /\
  fst (get_stats self w s) = rs_get_stats (rust w) (tick s) /\
  (forall o, o <> HealthCheck -> filter is_http (perform self o w s) = []).
Proof.
  unfold execute_query, vector_search, subscribe_stream, create_table, insert_data,
    create_vector_index, list_tables, get_table_info, get_stats.
  rewrite Hemb.
  repeat split; intros; unfold native, bind, emit, ask, ret; simpl;
    try reflexivity.
  - now destruct (rs_subscribe_stream _ _ _).
  - now destruct (rs_create_vector_index _ _ _ _).
  - destruct o; simpl; try congruence.
    + unfold execute_query. rewrite Hemb. now rewrite events_of_native.
    + unfold vector_search. rewrite Hemb. now rewrite events_of_native.
    + unfold subscribe_stream. rewrite Hemb. now rewrite events_of_native_then.
    + unfold create_table. rewrite Hemb. now rewrite events_of_native.
    + unfold insert_data. rewrite Hemb. now rewrite events_of_native.
    + unfold create_vector_index. rewrite Hemb. now rewrite events_of_native_then.
    + unfold list_tables. rewrite Hemb. now rewrite events_of_native.
    + unfold get_table_info. rewrite Hemb. now rewrite events_of_native.
    + unfold get_stats. rewrite Hemb. now rewrite events_of_native.
Qed.

Lemma embedded_calls_return_the_native_outcome_witness :
  embedded rust_client = true /\
  fst (execute_query rust_client "SELECT 1" offline_world initial) =
  Raise connection_refused /\
  filter is_http (perform rust_client (ExecuteQuery "SELECT 1") offline_world initial)
  = [].
Proof.
  split; [reflexivity|].
  destruct (embedded_calls_return_the_native_outcome rust_client offline_world initial
              eq_refl) as (Hq & _ & _ & _ & _ & _ & _ & _ & _ & Hh).
  split; [exact (Hq "SELECT 1")|].
  apply Hh. discriminate.
Defined.

(** X6.  On the network transport, [create_table], [insert_data],
    [create_vector_index], [list_tables], [get_table_info] and [get_stats]
    are placeholders: whatever the world, they return normally, they make
    no HTTP request and no native call, and they ask the world nothing.
    [list_tables] and [get_stats] return fixed data, [get_table_info]
    echoes the table name it was given, and [create_vector_index] returns
    a mock index on the given table and column. *)
Theorem http_placeholders_never_reach_the_server
    (self : VectraClient) (w : world) (s : pstate) (Hnet : embedded self = false) :
  (forall name schema, fst (create_table self name schema w s) = Ok tt) /\
  (forall table data, fst (insert_data self [table; data] w s) = Ok tt) /\
  (forall table column,
     fst (create_vector_index self table column w s) =
     Ok (MockIndex (mk_MockVectorIndex table column))) /\
  list_tables self w s = (Ok ["docs"; "users"; "products"], s) /\
  (forall table, exists info,
     get_table_info self table w s = (Ok info, s) /\
     dict_get info "name" = Some (PStr table) /\
     dict_keys info = ["name"; "rows"; "size_bytes"; "created_at"]) /\
  (exists stats,
     get_stats self w s = (Ok stats, s) /\
     dict_keys stats = ["total_tables"; "total_rows"; "total_size_bytes"]) /\
  (forall o,
     match o with
     | ExecuteQuery _ | VectorSearch _ _ | SubscribeStream _ | HealthCheck => True
     | _ => filter is_remote (perform self o w s) = []
     end) /\
  (forall (name schema : string) (table data : pyval) (column : string),
     tick (snd (create_table self name schema w s)) = tick s /\
     tick (snd (insert_data self [table; data] w s)) = tick s /\
     tick (snd (create_vector_index self name column w s)) = tick s).
Proof.
  unfold create_table, insert_data, create_vector_index, list_tables, get_table_info,
    get_stats.
  rewrite Hnet. repeat split.
  - intros table. eexists. repeat split.
  - eexists. repeat split.
  - intros o. destruct o; simpl; try exact I;
      unfold create_table, insert_data, create_vector_index, list_tables,
        get_table_info, get_stats, events_of;
      rewrite Hnet; unfold print, emit, bind, ret; simpl;
      rewrite ?skipn_length_app, ?skipn_all; reflexivity.
Qed.

Lemma http_placeholders_never_reach_the_server_witness :
  embedded http_client = false /\
  list_tables http_client offline_world initial =
  (Ok ["docs"; "users"; "products"], initial) /\
  fst (create_table http_client "users" "id INT" offline_world initial) = Ok tt.
Proof.
  split; [reflexivity|].
  destruct (http_placeholders_never_reach_the_server http_client offline_world initial
              eq_refl) as (Hc & _ & _ & Hl & _).
  split; [exact Hl|exact (Hc "users" "id INT")].
Defined.

(** X7.  [quick_query] and [quick_search] build a client without the
    native transport and so always go over HTTP: each makes exactly one
    POST, to [http://host:port/query] and [http://host:port/vector/search]
    (the port in decimal), and behaves as the method of a client
    constructed with the same host and port.  [connect] returns what the
    constructor returns; without the native transport it cannot fail and
    asks the world nothing. *)
Theorem quick_calls_go_over_http
    (sql query : string) (limit : Z) (host_ : string) (port_ : Z) (w : world)
    (s : pstate) :
  let base := "http://" ++ host_ ++ ":" ++ str_of_int port_ in
  let c := mk_VectraClient host_ port_ base false None in
  connect host_ port_ false w s = (Ok c, s) /\
  quick_query sql host_ port_ w s = execute_query c sql w s /\
  quick_search query limit host_ port_ w s = vector_search c query limit w s /\
  events_of (quick_query sql host_ port_) w s =
  [HttpPost (base ++ "/query") [("query", PStr sql)] 30] /\
  events_of (quick_search query limit host_ port_) w s =
  [HttpPost (base ++ "/vector/search")
     [("query", PStr query); ("limit", PInt limit)] 30].
Proof.
  intros base c.
  assert (Hq : quick_query sql host_ port_ w s = execute_query c sql w s)
    by reflexivity.
  assert (Hs : quick_search query limit host_ port_ w s = vector_search c query limit w s)
    by reflexivity.
  repeat split.
  - unfold events_of. rewrite Hq.
    apply (events_of_over_http (base ++ "/query") [("query", PStr sql)]
             "Failed to execute query: " w s).
  - unfold events_of. rewrite Hs.
    apply (events_of_over_http (base ++ "/vector/search")
             [("query", PStr query); ("limit", PInt limit)]
             "Failed to perform vector search: " w s).
Qed.

(** X8.  The mock index does not validate or enforce the limit: any limit
    other than 0, negative ones included, is echoed in the payload, and the
    results are the same two entries whatever the limit and the query
    vector, so a limit of 1 is answered with two results. *)
Theorem search_echoes_but_does_not_enforce_the_limit
    (self : MockVectorIndex) (v1 v2 : list Q) (n : Z) (other : pyval)
    (Hn : n <> 0) :
  dict_get (search self v1 (PInt n)) "limit" = Some (PInt n) /\
  dict_get (search self v1 (PInt n)) "results" =
  dict_get (search self v2 other) "results" /\
  (exists l, dict_get (search self v1 (PInt 1)) "results" = Some (PList l) /\
             (1 < length l)%nat) /\
  dict_keys (search self v1 (PInt n)) = ["results"; "limit"].
Proof.
  split.
  - rewrite search_limit_field. unfold py_or, truthy.
    destruct (Z.eqb_spec n 0) as [E|_]; [contradiction|reflexivity].
  - split; [reflexivity|]. split; [|reflexivity].
    destruct (search_results self v1 (PInt 1)) as (l & Hl & Hlen).
    exists l. split; [exact Hl|lia].
Qed.

Lemma search_echoes_but_does_not_enforce_the_limit_witness :
  (-3 <> 0) /\
  dict_get (search (mk_MockVectorIndex "docs" "embedding") [] (PInt (-3))) "limit" =
  Some (PInt (-3)).
Proof.
  split; [lia|].
  apply (search_echoes_but_does_not_enforce_the_limit
           (mk_MockVectorIndex "docs" "embedding") [] [] (-3) PNone ltac:(lia)).
Defined.

(** X9.  Cancelling a subscription is local: after a successful
    [subscribe_stream] on the network transport, calling [unsubscribe] on
    the handle, twice, never raises and tells the server nothing.  The only
    request of the whole exchange is the POST that subscribed, followed by
    two printed lines that name the topic. *)
Theorem unsubscribe_never_reaches_the_server
    (self : VectraClient) (topic_ : string) (w : world) (s : pstate) (ack : py_dict)
    (Hnet : embedded self = false)
    (Hack : exchange (requests_post w (tick s) (base_url self ++ "/stream/subscribe")
                        [("topic", PStr topic_)] 30) = Ok (PDict ack)) :
  fst (subscribe_then_unsubscribe self topic_ w s) = Ok tt /\
  events_of (subscribe_then_unsubscribe self topic_) w s =
  [HttpPost (base_url self ++ "/stream/subscribe") [("topic", PStr topic_)] 30;
   Print [Lit "Unsubscribing from topic: "; Fmt (PStr topic_)];
   Print [Lit "Unsubscribing from topic: "; Fmt (PStr topic_)]] /\
  tick (snd (subscribe_then_unsubscribe self topic_ w s)) = S (tick s).
Proof.
  unfold subscribe_then_unsubscribe, events_of, bind.
  rewrite (subscribe_stream_outcome self topic_ w s Hnet), Hack.
  unfold unsubscribe, print, emit, after_tick, after_event. simpl.
  repeat split.
  rewrite <- !app_assoc. apply skipn_length_app.
Qed.

Lemma unsubscribe_never_reaches_the_server_witness :
  embedded http_client = false /\
  fst (subscribe_then_unsubscribe http_client "orders" acknowledging_world initial) =
  Ok tt /\
  length (filter is_http
            (events_of (subscribe_then_unsubscribe http_client "orders")
               acknowledging_world initial)) = 1%nat.
Proof.
  split; [reflexivity|].
  destruct (unsubscribe_never_reaches_the_server http_client "orders"
              acknowledging_world initial
              [("subscription_id", PStr "sub_123"); ("status", PStr "active")]
              eq_refl eq_refl) as (Hr & He & _).
  split; [exact Hr|]. rewrite He. reflexivity.
Defined.

(* ================================================================== *)
(** * Further properties of the harness *)

(** ** Samples and statistics *)

(** The measuring pattern around one call, by the outcome of the call. *)
Lemma timed_outcome {A : Type} (op : M A) (message : exn -> list fpart)
    (times : list Q) (w : world) (s : pstate) :
  timed op message times w s =
  match op w (after_tick s) with
  | (Ok _, s1) =>
      (Ok (times ++ [((wall_clock w (tick s1) - wall_clock w (tick s)) * 1000)%Q])%list,
       after_tick s1)
  | (Raise e, s1) =>
      if is_Exception e then (Ok times, after_event s1 (Print (message e)))
      else (Raise e, s1)
  end.
Proof.
  destruct (op w (after_tick s)) as [[a|e] s1] eqn:Hop.
  - apply (timed_measures op message times w s s1 a Hop).
  - destruct (is_Exception e) eqn:He.
    + apply (timed_catches op message times w s s1 e Hop He).
    + unfold timed, bind, time_time, ask, try_except. simpl.
      fold (after_tick s). rewrite Hop. simpl. now rewrite He.
Qed.

(** X10.  The measuring pattern around one call.  A call that returns adds
    exactly one sample, the difference of the clock readings taken after
    and before the call, in milliseconds; the sample is not negative when
    the clock did not go back between the two readings.  A call that raises
    an [Exception] adds no sample and prints the failure message; any other
    exception ([KeyboardInterrupt], [SystemExit]) leaves the pattern,
    without a second reading of the clock. *)
Theorem timed_sample_is_the_elapsed_time {A : Type} (op : M A)
    (message : exn -> list fpart) (times : list Q) (w : world) (s : pstate) :
  match op w (after_tick s) with
  | (Ok _, s1) =>
      let sample := ((wall_clock w (tick s1) - wall_clock w (tick s)) * 1000)%Q in
      timed op message times w s = (Ok (times ++ [sample])%list, after_tick s1) /\
      ((wall_clock w (tick s) <= wall_clock w (tick s1))%Q -> (0 <= sample)%Q) /\
      ((wall_clock w (tick s1) < wall_clock w (tick s))%Q -> (sample < 0)%Q)
  | (Raise e, s1) =>
      (is_Exception e = true ->
       timed op message times w s = (Ok times, after_event s1 (Print (message e)))) /\
      (is_Exception e = false -> timed op message times w s = (Raise e, s1))
  end.
Proof.
  rewrite timed_outcome.
  destruct (op w (after_tick s)) as [[a|e] s1]; cbv zeta.
  - split; [reflexivity|]. split; intros Hclock; lra.
  - split; intros He; rewrite He; reflexivity.
Qed.

(** A loop of measurements adds at most one sample for each call, keeps
    the samples it was given, and is left only by an exception that is not
    an [Exception]. *)
Lemma measuring_loop_samples {A : Type} (l : list Z) (op : Z -> M A)
    (message : Z -> exn -> list fpart) (w : world) :
  forall (times : list Q) (s : pstate),
    match for_each l (fun i => timed (op i) (message i)) times w s with
    | (Ok ts, _) => exists new, ts = (times ++ new)%list /\ (length new <= length l)%nat
    | (Raise e, _) => is_Exception e = false
    end.
Proof.
  induction l as [|i l IH]; intros times s; simpl.
  - exists []. split; [now rewrite app_nil_r|simpl; lia].
  - unfold bind at 1.
    pose proof (timed_outcome (op i) (message i) times w s) as Ht.
    destruct (op i w (after_tick s)) as [[a|e] s1].
    + rewrite Ht. specialize (IH (times ++ [((wall_clock w (tick s1) - wall_clock w (tick s)) * 1000)%Q])%list (after_tick s1)).
      destruct (for_each l _ _ w (after_tick s1)) as [[ts|e'] s2]; [|exact IH].
      destruct IH as (new & -> & Hlen). eexists. rewrite <- app_assoc.
      split; [reflexivity|simpl; lia].
    + rewrite Ht. destruct (is_Exception e) eqn:He; [|exact He].
      specialize (IH times (after_event s1 (Print (message i e)))).
      destruct (for_each l _ _ w _) as [[ts|e'] s2]; [|exact IH].
      destruct IH as (new & -> & Hlen). exists new. split; [reflexivity|lia].
Qed.

(** A loop of measurements that returns made every one of its calls, and
    added one sample for each call that returned. *)
Lemma measuring_loop_counts {A : Type} (l : list Z) (op : Z -> M A)
    (message : Z -> exn -> list fpart) (w : world) :
  forall (times : list Q) (s : pstate) (ts : list Q) (s' : pstate),
    for_each l (fun i => timed (op i) (message i)) times w s = (Ok ts, s') ->
    length (calls l op message w s) = length l /\
    Z.of_nat (length ts) =
    Z.of_nat (length times) + successful (calls l op message w s).
Proof.
  unfold successful.
  induction l as [|i l IH]; intros times s ts s' Hloop.
  - cbn in Hloop. injection Hloop as <- _. cbn. split; [reflexivity|lia].
  - cbn [for_each] in Hloop. unfold bind in Hloop.
    rewrite timed_outcome in Hloop. cbn [calls]. cbv zeta.
    destruct (op i w (after_tick s)) as [[a|e] s1]; cbn [fst snd].
    + destruct (IH _ _ _ _ Hloop) as (Hlen & Hn).
      cbn [filter raised negb length]. rewrite Hlen. split; [reflexivity|].
      rewrite Hn, length_app. cbn [length]. lia.
    + destruct (is_Exception e); [|discriminate Hloop].
      destruct (IH _ _ _ _ Hloop) as (Hlen & Hn).
      cbn [filter raised negb length]. rewrite Hlen. split; [reflexivity|exact Hn].
Qed.

Lemma successful_bound {A : Type} (outcomes : list (result A)) :
  0 <= successful outcomes <= Z.of_nat (length outcomes).
Proof.
  unfold successful. pose proof (filter_length_le (fun r : result A => negb (raised r)) outcomes).
  lia.
Qed.

(** The minimum and the maximum of a list bound each of its elements. *)
Lemma py_min_le (l : list Q) :
  forall x, (py_min x l <= x)%Q /\ Forall (fun y => (py_min x l <= y)%Q) l.
Proof.
  unfold py_min. induction l as [|a l IH]; intros x; simpl.
  - split; [lra|constructor].
  - destruct (IH (Qmin2 x a)) as (H1 & H2).
    assert (Hx : (Qmin2 x a <= x)%Q /\ (Qmin2 x a <= a)%Q).
    { unfold Qmin2. destruct (Qle_bool x a) eqn:E.
      - apply Qle_bool_iff in E. split; lra.
      - split; [|lra]. destruct (Qlt_le_dec a x) as [L|L]; [lra|].
        apply Qle_bool_iff in L. congruence. }
    split; [lra|]. constructor; [lra|exact H2].
Qed.

Lemma py_max_ge (l : list Q) :
  forall x, (x <= py_max x l)%Q /\ Forall (fun y => (y <= py_max x l)%Q) l.
Proof.
  unfold py_max. induction l as [|a l IH]; intros x; simpl.
  - split; [lra|constructor].
  - destruct (IH (Qmax2 x a)) as (H1 & H2).
    assert (Hx : (x <= Qmax2 x a)%Q /\ (a <= Qmax2 x a)%Q).
    { unfold Qmax2. destruct (Qle_bool x a) eqn:E.
      - apply Qle_bool_iff in E. split; lra.
      - split; [lra|]. destruct (Qlt_le_dec a x) as [L|L]; [lra|].
        apply Qle_bool_iff in L. congruence. }
    split; [lra|]. constructor; [lra|exact H2].
Qed.

(** The sum of a list whose elements lie between [lo] and [hi]. *)
Lemma Qsum_bounds (lo hi : Q) (l : list Q) :
  Forall (fun y => (lo <= y)%Q /\ (y <= hi)%Q) l ->
  forall a,
    (a + inject_Z (Z.of_nat (length l)) * lo <= fold_left Qplus l a)%Q /\
    (fold_left Qplus l a <= a + inject_Z (Z.of_nat (length l)) * hi)%Q.
Proof.
  induction 1 as [|y l (Hlo & Hhi) Hl IH]; intros a.
  - cbn [fold_left length]. change (inject_Z (Z.of_nat 0)) with 0%Q. split; lra.
  - cbn [fold_left length]. destruct (IH (a + y)%Q) as (H1 & H2).
    rewrite Nat2Z.inj_succ. unfold Z.succ. rewrite inject_Z_plus.
    set (k := inject_Z (Z.of_nat (length l))) in *.
    change (inject_Z 1) with 1%Q.
    split; [eapply Qle_trans; [|exact H1]|eapply Qle_trans; [exact H2|]]; lra.
Qed.

(** The mean of a non-empty list lies between its minimum and its
    maximum. *)
Lemma mean_between (x : Q) (l : list Q) :
  (py_min x l <= mean (x :: l))%Q /\ (mean (x :: l) <= py_max x l)%Q.
Proof.
  destruct (py_min_le l x) as (Hx & Hl). destruct (py_max_ge l x) as (Hx' & Hl').
  assert (Hall : Forall (fun y => (py_min x l <= y)%Q /\ (y <= py_max x l)%Q) (x :: l)).
  { constructor; [split; assumption|].
    rewrite Forall_forall in *. intros y Hy. split; [apply Hl|apply Hl']; exact Hy. }
  destruct (Qsum_bounds _ _ _ Hall 0%Q) as (H1 & H2).
  assert (Hpos : (0 < inject_Z (Z.of_nat (length (x :: l))))%Q).
  { change 0%Q with (inject_Z 0). rewrite <- Zlt_Qlt. simpl. lia. }
  unfold mean, Qsum. split.
  - apply Qle_shift_div_l; [exact Hpos|]. lra.
  - apply Qle_shift_div_r; [exact Hpos|]. lra.
Qed.

Lemma health_check_untouched (c : VectraClient) :
  preserves untouched (health_check c).
Proof.
  apply untouched_of. intros R H1 H2 H3 H4. now apply preserves_health_check.
Qed.

Lemma measuring_loop_untouched {A : Type} (l : list Z) (op : Z -> M A)
    (message : Z -> exn -> list fpart) (times : list Q) :
  (forall i, preserves untouched (op i)) ->
  preserves untouched (for_each l (fun i => timed (op i) (message i)) times).
Proof.
  intros Hop.
  assert (Hrefl : forall s, untouched s s) by (intros s; split; reflexivity).
  assert (Htrans : forall a b c, untouched a b -> untouched b c -> untouched a c).
  { intros a b c (H1 & H2) (H3 & H4). split; congruence. }
  apply preserves_for_each; [exact Hrefl|exact Htrans|].
  intros i acc. apply preserves_timed; [exact Hrefl|exact Htrans| | |apply Hop].
  - intros s. split; reflexivity.
  - intros s e He. split; [reflexivity|apply (files_written_emit s e He)].
Qed.

(** X11.  The connection phase.  It is left only by an exception that is
    not an [Exception], and it writes no file.  When it returns it has made
    its ten health checks.  If none of them returned it records nothing;
    otherwise it sets the result [connection] to four fields whose
    [samples] is the number of checks that returned, between 1 and 10, and
    whose [min_time_ms], [avg_time_ms] and [max_time_ms] are in that
    order. *)
Theorem connection_statistics_are_ordered
    (self : PerformanceTester) (c : VectraClient) (w : world) (s : pstate)
    (Hc : pt_client self = Some c) :
  let out := test_connection_performance self w s in
  let checks :=
    calls (range 10) (fun _ => health_check c) connection_failed w
      (after_event s connection_banner) in
  let n := successful checks in
  match fst out with
  | Ok _ =>
      length checks = 10%nat /\ 0 <= n <= 10 /\
      (n = 0 -> results (snd out) = results s) /\
      (1 <= n ->
       exists avg lo hi,
         results (snd out) =
         dict_set (results s) "connection"
           (PDict [("avg_time_ms", PFloat avg); ("min_time_ms", PFloat lo);
                   ("max_time_ms", PFloat hi); ("samples", PInt n)]) /\
         (lo <= avg)%Q /\ (avg <= hi)%Q)
  | Raise e => is_Exception e = false /\ results (snd out) = results s
  end /\
  files_written (snd out) = files_written s.
Proof.
  cbv zeta. remember (test_connection_performance self w s) as out eqn:Hout.
  unfold test_connection_performance in Hout. rewrite Hc in Hout.
  erewrite bind_ok in Hout; [|reflexivity].
  change {| tick := tick s;
            events := (events s ++ [Print [Lit (nl ++ "🔌 Testing Connection Performance...")]])%list;
            results := results s |} with (after_event s connection_banner) in Hout.
  set (s0 := after_event s connection_banner) in *.
  assert (H0 : untouched s s0).
  { split; [reflexivity|]. apply (files_written_emit s). reflexivity. }
  change (fun (i : Z) (times : list Q) =>
            timed (health_check c)
              (fun e : exn => [Lit "  Connection "; Fmt (PInt (i + 1)); Lit " failed: ";
                               Lit (exn_msg e)]) times)
    with (fun (i : Z) => timed (health_check c) (connection_failed i)) in Hout.
  pose proof (measuring_loop_samples (range 10) (fun _ => health_check c)
                connection_failed w [] s0) as Hshape.
  pose proof (measuring_loop_untouched (range 10) (fun _ => health_check c)
                connection_failed [] (fun _ => health_check_untouched c) w s0) as Hsame.
  pose proof (measuring_loop_counts (range 10) (fun _ => health_check c)
                connection_failed w [] s0) as Hcount.
  pose proof (successful_bound
                (calls (range 10) (fun _ => health_check c) connection_failed w s0))
    as Hbound.
  destruct (for_each (range 10) (fun i => timed (health_check c) (connection_failed i))
              [] w s0)
    as [[ts|e] s1] eqn:Hloop;
    simpl in Hsame; destruct Hsame as (Hr & Hf); destruct H0 as (Hr0 & Hf0).
  - erewrite bind_ok in Hout; [|exact Hloop].
    destruct (Hcount ts s1 eq_refl) as (Hlen & Hn). clear Hcount Hshape.
    rewrite Hlen in Hbound. change (length (range 10)) with 10%nat in Hlen, Hbound.
    change (Z.of_nat (length [])) with 0 in Hn. rewrite Z.add_0_l in Hn.
    rewrite <- Hn in *. clear Hn.
    destruct ts as [|t0 rest].
    + subst out. cbn [fst snd ret].
      split; [|congruence].
      split; [exact Hlen|]. split; [lia|]. split; [intros _; congruence|].
      cbn [length]. intros Hpos. lia.
    + subst out. unfold bind, record, print, emit. cbn [fst snd results events tick].
      split.
      * split; [exact Hlen|]. split; [lia|]. split.
        -- cbn [length]. intros Hz. lia.
        -- intros _. eexists _, _, _.
           split; [rewrite Hr, Hr0; reflexivity|].
           destruct (mean_between t0 rest) as (H1 & H2). split; assumption.
      * unfold files_written in *. cbn [events]. rewrite !flat_map_app. simpl.
        rewrite !app_nil_r. congruence.
  - erewrite bind_raise in Hout; [|exact Hloop].
    subst out. simpl. split; [split; [exact Hshape|]|]; congruence.
Qed.

Lemma connection_statistics_are_ordered_witness :
  pt_client default_tester = Some http_client /\
  exists avg lo hi,
    dict_get (results (snd (test_connection_performance default_tester healthy_world
                              initial))) "connection" =
    Some (PDict [("avg_time_ms", PFloat avg); ("min_time_ms", PFloat lo);
                 ("max_time_ms", PFloat hi); ("samples", PInt 10)]) /\
    (lo <= avg)%Q /\ (avg <= hi)%Q.
Proof.
  split; [reflexivity|].
  pose proof (connection_statistics_are_ordered default_tester http_client healthy_world
                initial eq_refl) as H.
  cbv zeta in H. destruct H as (H & _).
  remember (test_connection_performance default_tester healthy_world initial) as out
    eqn:E.
  assert (Hok : fst out = Ok tt) by (subst out; vm_compute; reflexivity).
  rewrite Hok in H. destruct H as (_ & _ & _ & H).
  assert (Hn : successful
                 (calls (range 10) (fun _ => health_check http_client) connection_failed
                    healthy_world (after_event initial connection_banner)) = 10)
    by (vm_compute; reflexivity).
  rewrite Hn in H. destruct (H ltac:(lia)) as (avg & lo & hi & Hres & Hlo & Hhi).
  exists avg, lo, hi. rewrite Hres. repeat split; assumption.
Defined.

(** ** Phases that never reach the server *)

Lemma printing_refl (s : pstate) : printing s s.
Proof. exists []. split; [now rewrite app_nil_r|reflexivity]. Qed.

Lemma printing_trans (a b c : pstate) : printing a b -> printing b c -> printing a c.
Proof.
  intros (x & Hx & Px) (y & Hy & Py).
  exists (x ++ y)%list. split; [rewrite Hy, Hx; apply eq_sym, app_assoc|].
  rewrite forallb_app, Px, Py. reflexivity.
Qed.

Lemma printing_print (s : pstate) (line : list fpart) :
  printing s (after_event s (Print line)).
Proof. exists [Print line]. split; reflexivity. Qed.

Lemma only_prints_refl (s : pstate) : only_prints s s.
Proof. split; [reflexivity|apply printing_refl]. Qed.

Lemma only_prints_trans (a b c : pstate) :
  only_prints a b -> only_prints b c -> only_prints a c.
Proof.
  intros (H1 & P1) (H2 & P2). split; [congruence|].
  eapply printing_trans; eassumption.
Qed.

Lemma only_prints_tick (s : pstate) : only_prints s (after_tick s).
Proof.
  split; [reflexivity|]. exists []. split; [simpl; now rewrite app_nil_r|reflexivity].
Qed.

Lemma only_prints_print (s : pstate) (line : list fpart) :
  only_prints s (after_event s (Print line)).
Proof. split; [reflexivity|apply printing_print]. Qed.

(** Printed lines are neither requests, nor native calls, nor files. *)
Lemma printing_is_local (s s' : pstate) :
  printing s s' ->
  filter is_remote (skipn (length (events s)) (events s')) = [] /\
  files_written s' = files_written s.
Proof.
  intros (x & Hx & Px). unfold files_written.
  rewrite Hx, skipn_length_app, flat_map_app.
  assert (H : filter is_remote x = [] /\
              flat_map (fun e => match e with FileWrite f c => [(f, c)] | _ => [] end) x
              = []).
  { clear Hx. induction x as [|e x IH]; [split; reflexivity|].
    simpl in Px. apply andb_prop in Px. destruct Px as (Pe & Px).
    destruct e; try discriminate Pe. simpl. exact (IH Px). }
  destruct H as (-> & ->). split; [reflexivity|apply app_nil_r].
Qed.

(** One measurement of a call that returns and only prints. *)
Lemma timed_of_success {A : Type} (op : M A) (message : exn -> list fpart)
    (times : list Q) (w : world) (s : pstate) :
  (forall s0, exists a s1, op w s0 = (Ok a, s1) /\ only_prints s0 s1) ->
  exists t s',
    timed op message times w s = (Ok (times ++ [t])%list, s') /\ only_prints s s'.
Proof.
  intros Hop. destruct (Hop (after_tick s)) as (a & s1 & E & H).
  rewrite timed_outcome, E. eexists _, _. split; [reflexivity|].
  eapply only_prints_trans; [apply only_prints_tick|].
  eapply only_prints_trans; [exact H|apply only_prints_tick].
Qed.

(** One measurement of a call that raises an [Exception] and only
    prints. *)
Lemma timed_of_failure {A : Type} (op : M A) (message : exn -> list fpart)
    (times : list Q) (w : world) (s : pstate) :
  (forall s0, exists e s1,
     op w s0 = (Raise e, s1) /\ is_Exception e = true /\ only_prints s0 s1) ->
  exists s', timed op message times w s = (Ok times, s') /\ only_prints s s'.
Proof.
  intros Hop. destruct (Hop (after_tick s)) as (e & s1 & E & He & H).
  rewrite timed_outcome, E, He. eexists. split; [reflexivity|].
  eapply only_prints_trans; [apply only_prints_tick|].
  eapply only_prints_trans; [exact H|apply only_prints_print].
Qed.

Lemma measuring_loop_of_successes {A : Type} (l : list Z) (op : Z -> M A)
    (message : Z -> exn -> list fpart) (w : world) :
  (forall i s0, exists a s1, op i w s0 = (Ok a, s1) /\ only_prints s0 s1) ->
  forall (times : list Q) (s : pstate),
  exists new s',
    for_each l (fun i => timed (op i) (message i)) times w s = (Ok (times ++ new)%list, s')
    /\ length new = length l /\ only_prints s s'.
Proof.
  intros Hop. induction l as [|i l IH]; intros times s.
  - exists [], s. simpl. rewrite app_nil_r.
    split; [reflexivity|]. split; [reflexivity|apply only_prints_refl].
  - destruct (timed_of_success (op i) (message i) times w s (Hop i))
      as (t & s1 & E & H1).
    destruct (IH (times ++ [t])%list s1) as (new & s2 & E2 & Hlen & H2).
    exists (t :: new), s2. cbn [for_each]. rewrite (bind_ok _ _ w s s1 _ E), E2.
    rewrite <- app_assoc. split; [reflexivity|]. split; [simpl; lia|].
    eapply only_prints_trans; eassumption.
Qed.

Lemma measuring_loop_of_caught_failures {A : Type} (l : list Z) (op : Z -> M A)
    (message : Z -> exn -> list fpart) (w : world) :
  (forall i s0, exists e s1,
     op i w s0 = (Raise e, s1) /\ is_Exception e = true /\ only_prints s0 s1) ->
  forall (times : list Q) (s : pstate),
  exists s',
    for_each l (fun i => timed (op i) (message i)) times w s = (Ok times, s')
    /\ only_prints s s'.
Proof.
  intros Hop. induction l as [|i l IH]; intros times s.
  - exists s. split; [reflexivity|apply only_prints_refl].
  - destruct (timed_of_failure (op i) (message i) times w s (Hop i)) as (s1 & E & H1).
    destruct (IH times s1) as (s2 & E2 & H2).
    exists s2. cbn [for_each]. rewrite (bind_ok _ _ w s s1 _ E), E2.
    split; [reflexivity|]. eapply only_prints_trans; eassumption.
Qed.

Lemma insert_data_three_arguments_caught (c : VectraClient) (table key data : pyval)
    (w : world) (s0 : pstate) :
  exists e s1,
    insert_data c [table; key; data] w s0 = (Raise e, s1) /\
    is_Exception e = true /\ only_prints s0 s1.
Proof.
  eexists _, _. rewrite insert_data_three_arguments.
  split; [reflexivity|]. split; [reflexivity|apply only_prints_refl].
Qed.

Lemma create_table_http (c : VectraClient) (name schema : string) (w : world)
    (s0 : pstate) :
  embedded c = false ->
  exists a s1, create_table c name schema w s0 = (Ok a, s1) /\ only_prints s0 s1.
Proof.
  intros Hnet. unfold create_table. rewrite Hnet. eexists _, _.
  split; [reflexivity|apply only_prints_print].
Qed.

Lemma for_each_cons {A S : Type} (x : A) (l : list A) (body : A -> S -> M S) (acc : S) :
  for_each (x :: l) body acc = bind (body x acc) (for_each l body).
Proof. reflexivity. Qed.

Lemma table_loop (c : VectraClient) (w : world) :
  embedded c = false ->
  forall (l : list Z) (acc : list Q * list string) (s : pstate),
  exists new s',
    for_each l
      (fun i (acc : list Q * list string) =>
         let table_name := "perf_test_table_" ++ str_of_int i in
         times <- timed (create_table c table_name "id INT, name TEXT, data TEXT")
                    (fun e => [Lit "  Table creation "; Fmt (PInt (i + 1));
                               Lit " failed: "; Lit (exn_msg e)])
                    (fst acc) ;;
         ret (times, (snd acc ++ [table_name])%list))
      acc w s =
    (Ok ((fst acc ++ new)%list,
         (snd acc ++ map (fun i => ("perf_test_table_" ++ str_of_int i)%string) l)%list), s') /\
    length new = length l /\ only_prints s s'.
Proof.
  intros Hnet. induction l as [|i l IH]; intros acc s.
  - exists [], s. simpl. rewrite !app_nil_r. destruct acc.
    split; [reflexivity|]. split; [reflexivity|apply only_prints_refl].
  - destruct (timed_of_success
                (create_table c ("perf_test_table_" ++ str_of_int i)
                   "id INT, name TEXT, data TEXT")
                (fun e => [Lit "  Table creation "; Fmt (PInt (i + 1));
                           Lit " failed: "; Lit (exn_msg e)])
                (fst acc) w s
                (fun s0 => create_table_http c _ _ w s0 Hnet))
      as (t & s1 & E & H1).
    destruct (IH ((fst acc ++ [t])%list,
                  (snd acc ++ [("perf_test_table_" ++ str_of_int i)%string])%list) s1)
      as (new & s2 & E2 & Hlen & H2).
    exists (t :: new), s2. rewrite for_each_cons.
    rewrite (bind_ok _ _ w s s1
               ((fst acc ++ [t])%list,
                (snd acc ++ [("perf_test_table_" ++ str_of_int i)%string])%list)).
    2: { cbv beta zeta. rewrite (bind_ok _ _ w s s1 _ E). reflexivity. }
    rewrite E2. cbn [fst snd map]. rewrite <- !app_assoc.
    split; [reflexivity|]. split; [simpl; lia|].
    eapply only_prints_trans; eassumption.
Qed.

(** X12.  On the network transport the table phase never reaches the
    server: [create_table] only prints, so none of the five creations can
    fail.  Whatever the world, the phase returns normally, sets the result
    [table_creation] to an average and [samples] = 5, makes no request and
    no native call, and writes no file. *)
Theorem table_phase_measures_five_local_calls
    (self : PerformanceTester) (c : VectraClient) (w : world) (s : pstate)
    (Hc : pt_client self = Some c) (Hnet : embedded c = false) :
  exists avg s',
    test_table_operations self w s = (Ok tt, s') /\
    results s' =
    dict_set (results s) "table_creation"
      (PDict [("avg_time_ms", PFloat avg); ("samples", PInt 5)]) /\
    filter is_remote (events_of (test_table_operations self) w s) = [] /\
    files_written s' = files_written s.
Proof.
  unfold events_of, test_table_operations. rewrite Hc.
  erewrite bind_ok; [|reflexivity].
  set (s0 := {| tick := tick s; events := _; results := results s |}).
  assert (H0 : only_prints s s0) by apply only_prints_print.
  destruct (table_loop c w Hnet (range 5) ([], []) s0) as (new & s1 & E & Hlen & H1).
  erewrite bind_ok; [|exact E]. cbn [fst snd app].
  destruct new as [|t0 rest]; [discriminate Hlen|].
  pose proof (only_prints_trans _ _ _ H0 H1) as (Hr & Hp).
  unfold bind, record, print, emit. cbn [fst snd].
  eexists _, _. split; [reflexivity|]. cbn [tick events results].
  split.
  - rewrite Hr. simpl in Hlen. injection Hlen as Hlen.
    change (length (range 5)) with 5%nat in Hlen.
    cbn [length]. rewrite Hlen. reflexivity.
  - match goal with
    | |- _ /\ files_written ?x = _ => apply (printing_is_local s x)
    end.
    eapply printing_trans; [exact Hp|]. eexists [_]. split; reflexivity.
Qed.

Lemma table_phase_measures_five_local_calls_witness :
  pt_client default_tester = Some http_client /\
  embedded http_client = false /\
  fst (test_table_operations default_tester offline_world initial) = Ok tt /\
  dict_keys (results (snd (test_table_operations default_tester offline_world initial)))
  = ["table_creation"].
Proof.
  split; [reflexivity|]. split; [reflexivity|].
  destruct (table_phase_measures_five_local_calls default_tester http_client
              offline_world initial eq_refl eq_refl) as (avg & s' & E & Hr & _).
  rewrite E. split; [reflexivity|]. cbn [snd]. rewrite Hr. reflexivity.
Defined.

Lemma get_stats_http (c : VectraClient) (w : world) (s0 : pstate) :
  embedded c = false ->
  exists a s1, get_stats c w s0 = (Ok a, s1) /\ only_prints s0 s1.
Proof.
  intros Hnet. unfold get_stats. rewrite Hnet. eexists _, _.
  split; [reflexivity|apply only_prints_refl].
Qed.

(** X13.  On the network transport the stress phase never reaches the
    server either.  Its fifty rapid calls of [get_stats] return fixed data
    and all succeed; its ten large insertions pass three arguments to
    [insert_data] and all raise [TypeError].  Whatever the world, the phase
    returns normally and records [stress_rapid_operations] with
    [samples] = 50 and nothing else (no [stress_large_data]); it makes no
    request and no native call and writes no file. *)
Theorem stress_phase_records_only_the_rapid_calls
    (self : PerformanceTester) (c : VectraClient) (w : world) (s : pstate)
    (Hc : pt_client self = Some c) (Hnet : embedded c = false) :
  exists avg s',
    test_stress_scenarios self w s = (Ok tt, s') /\
    results s' =
    dict_set (results s) "stress_rapid_operations"
      (PDict [("avg_time_ms", PFloat avg); ("samples", PInt 50)]) /\
    filter is_remote (events_of (test_stress_scenarios self) w s) = [] /\
    files_written s' = files_written s.
Proof.
  unfold events_of, test_stress_scenarios. rewrite Hc.
  erewrite bind_ok; [|reflexivity]. erewrite bind_ok; [|reflexivity].
  set (s0 := {| tick := _; events := _; results := _ |}).
  assert (H0 : only_prints s s0).
  { split; [reflexivity|]. eexists [_; _].
    split; [simpl; now rewrite <- app_assoc|reflexivity]. }
  destruct (measuring_loop_of_successes (range 50) (fun _ => get_stats c)
              (fun i e => [Lit "    Rapid operation "; Fmt (PInt (i + 1));
                           Lit " failed: "; Lit (exn_msg e)]) w
              (fun _ s0 => get_stats_http c w s0 Hnet) [] s0)
    as (new & s1 & E & Hlen & H1).
  erewrite bind_ok; [|exact E]. cbn [app].
  destruct new as [|t0 rest]; [discriminate Hlen|].
  pose proof (only_prints_trans _ _ _ H0 H1) as (Hr1 & Hp1).
  erewrite bind_ok; [|reflexivity]. erewrite bind_ok; [|reflexivity].
  cbv zeta.
  match goal with
  | |- context [bind _ _ w ?s2] =>
      set (s2' := s2);
      assert (H2 : printing s s2' /\
                   results s2' =
                   dict_set (results s) "stress_rapid_operations"
                     (PDict [("avg_time_ms", PFloat (mean (t0 :: rest)));
                             ("samples", PInt 50)]))
  end.
  { split.
    - eapply printing_trans; [exact Hp1|]. eexists [_; _].
      split; [subst s2'; simpl; now rewrite <- app_assoc|reflexivity].
    - subst s2'. cbn [results]. rewrite Hr1. simpl in Hlen. injection Hlen as Hlen.
      change (length (range 50)) with 50%nat in Hlen. cbn [length]. rewrite Hlen.
      reflexivity. }
  destruct H2 as (Hp2 & Hr2).
  destruct (measuring_loop_of_caught_failures (range 10)
              (fun i => insert_data c
                          [PStr "stress_test_table";
                           PStr ("large_key_" ++ str_of_int i);
                           PDict [("data", PStr (str_mul "x" 100000))]])
              (fun i e => [Lit "    Large data operation "; Fmt (PInt (i + 1));
                           Lit " failed: "; Lit (exn_msg e)]) w
              (fun i s0 => insert_data_three_arguments_caught c _ _ _ w s0) [] s2')
    as (s3 & E3 & Hr3 & Hp3).
  erewrite bind_ok; [|exact E3].
  exists (mean (t0 :: rest)), s3. split; [reflexivity|].
  split; [cbn [snd]; congruence|].
  apply (printing_is_local s s3). eapply printing_trans; eassumption.
Qed.

Lemma stress_phase_records_only_the_rapid_calls_witness :
  pt_client default_tester = Some http_client /\
  embedded http_client = false /\
  fst (test_stress_scenarios default_tester offline_world initial) = Ok tt /\
  dict_keys (results (snd (test_stress_scenarios default_tester offline_world initial)))
  = ["stress_rapid_operations"].
Proof.
  split; [reflexivity|]. split; [reflexivity|].
  destruct (stress_phase_records_only_the_rapid_calls default_tester http_client
              offline_world initial eq_refl eq_refl) as (avg & s' & E & Hr & _).
  rewrite E. split; [reflexivity|]. cbn [snd]. rewrite Hr. reflexivity.
Defined.

Lemma for_first_raises {A : Type} (l : list A) (body : A -> M unit) (w : world)
    (s : pstate) (e : exn) :
  l <> [] -> (forall x s0, body x w s0 = (Raise e, s0)) ->
  for_ l body w s = (Raise e, s).
Proof.
  intros Hl Hbody. destruct l as [|x l]; [contradiction|].
  unfold for_. rewrite for_each_cons. apply bind_raise, Hbody.
Qed.

Lemma length_range (n : Z) : length (range n) = Z.to_nat n.
Proof. unfold range. now rewrite length_map, length_seq. Qed.

Lemma length_enumerate {A : Type} (l : list A) : length (enumerate l) = length l.
Proof.
  unfold enumerate. rewrite length_combine, length_range, Nat2Z.id.
  apply Nat.min_id.
Qed.

(** X14.  The memory phase inserts nothing and still reports success.  Its
    first call of [insert_data] passes three arguments and raises
    [TypeError], which ends the loop of insertions; the phase prints the
    failure, then sets the result [memory_usage] to a size of 1.0 MB and
    the status [completed], and returns normally.  This holds for every
    client and every world, and the phase interacts with neither. *)
Theorem memory_phase_reports_completed_without_inserting
    (self : PerformanceTester) (c : VectraClient) (w : world) (s : pstate)
    (Hc : pt_client self = Some c) :
  test_memory_usage self w s =
  (Ok tt,
   {| tick := tick s;
      events :=
        (events s ++
         [Print [Lit (nl ++ "💾 Testing Memory Usage...")];
          Print [Lit "  Memory test failed: ";
                 Lit "VectraClient.insert_data() takes 3 positional arguments but 4 were given"];
          Print [Lit "  Memory usage test completed"]])%list;
      results :=
        dict_set (results s) "memory_usage"
          (PDict [("test_data_size_mb", PFloat 1); ("status", PStr "completed")]) |}).
Proof.
  unfold test_memory_usage. rewrite Hc.
  erewrite bind_ok; [|reflexivity]. cbv zeta.
  match goal with
  | |- context [for_ ?l ?body] =>
      assert (Hloop : forall s0,
                for_ l body w s0 =
                (Raise (mk_exn TypeError
                   "VectraClient.insert_data() takes 3 positional arguments but 4 were given"),
                 s0))
  end.
  { intros s0. apply for_first_raises.
    - intros H. apply (f_equal (@length _)) in H.
      rewrite length_enumerate, length_firstn, length_map, length_range in H.
      discriminate H.
    - intros x s1. apply insert_data_three_arguments. }
  unfold try_except, bind at 1. rewrite Hloop.
  unfold bind, record, print, emit. cbn [is_Exception exn_cls exn_msg fst snd tick events results].
  rewrite <- !app_assoc. reflexivity.
Qed.

Lemma memory_phase_reports_completed_without_inserting_witness :
  pt_client native_tester = Some rust_client /\
  results (snd (test_memory_usage native_tester offline_world initial)) =
  [("memory_usage",
    PDict [("test_data_size_mb", PFloat 1); ("status", PStr "completed")])] /\
  tick (snd (test_memory_usage native_tester offline_world initial)) = 0%nat.
Proof.
  split; [reflexivity|].
  rewrite (memory_phase_reports_completed_without_inserting native_tester rust_client
             offline_world initial eq_refl).
  split; reflexivity.
Defined.

(** ** The workers under any schedule *)

Lemma count_middle {A : Type} (f : A -> bool) (l1 l2 : list A) (x : A) :
  length (filter f (l1 ++ x :: l2)) =
  (length (filter f l1) + (if f x then 1 else 0) + length (filter f l2))%nat.
Proof.
  rewrite filter_app, length_app. simpl. destruct (f x); simpl; lia.
Qed.

Lemma set_worker_middle (p : pool) (l1 l2 : list worker_pc) (pc pc' : worker_pc) :
  workers p = (l1 ++ pc :: l2)%list ->
  workers (set_worker p (length l1) pc') = (l1 ++ pc' :: l2)%list.
Proof. intros H. unfold set_worker. cbn [workers]. rewrite H. apply update_middle. Qed.

Lemma finish_middle (p : pool) (l1 l2 : list worker_pc) (pc : worker_pc)
    (e : option exn) :
  workers p = (l1 ++ pc :: l2)%list ->
  workers (finish p (length l1) e) = (l1 ++ Finished e :: l2)%list.
Proof. intros H. unfold finish. cbn [workers]. apply (set_worker_middle p l1 l2 pc), H. Qed.

Lemma loaded_within_le (a b a' b' : Z) (l : list worker_pc) :
  a <= a' -> b <= b' -> Forall (loaded_within a b) l -> Forall (loaded_within a' b') l.
Proof.
  intros Ha Hb. apply Forall_impl. intros pc. destruct pc; simpl; lia.
Qed.

Lemma consistent_middle (p : pool) (l1 l2 : list worker_pc) (pc : worker_pc) (a b : Z) :
  workers p = (l1 ++ pc :: l2)%list ->
  0 <= a -> 0 <= b ->
  a + b = Z.of_nat (length (filter counted l1) + (if counted pc then 1 else 0)
                    + length (filter counted l2)) ->
  0 <= completed_operations p <= a ->
  0 <= failed_operations p <= b ->
  Forall (loaded_within a b) l1 -> loaded_within a b pc ->
  Forall (loaded_within a b) l2 ->
  length (done p) = (length (filter finished l1) + (if finished pc then 1 else 0)
                     + length (filter finished l2))%nat ->
  consistent p.
Proof.
  intros Hw Ha Hb Hab Hc Hf H1 Hpc H2 Hd. exists a, b.
  rewrite Hw, !count_middle. repeat split; try assumption; try lia.
  apply Forall_app. split; [exact H1|]. constructor; assumption.
Qed.

(** One step of a worker: the step returns, the worker has one step less
    to take (none when it had finished), the other workers are where they
    were, and the pool stays consistent. *)
Lemma step_moves (c : VectraClient) (p : pool) (w : world) (s : pstate)
    (l1 l2 : list worker_pc) (pc : worker_pc) :
  workers p = (l1 ++ pc :: l2)%list -> consistent p ->
  exists p' s' pc',
    step c (length l1) p w s = (Ok p', s') /\
    workers p' = (l1 ++ pc' :: l2)%list /\
    (remaining pc' <= pred (remaining pc))%nat /\
    consistent p'.
Proof.
  intros Hw (a & b & Ha & Hb & Hab & Hc & Hf & Hall & Hdone).
  rewrite Hw in Hab, Hall, Hdone. rewrite count_middle in Hab, Hdone.
  apply Forall_app in Hall. destruct Hall as (Hall1 & Hall2).
  apply Forall_cons_iff in Hall2. destruct Hall2 as (Hpc & Hall2).
  unfold step. rewrite Hw, nth_error_middle.
  destruct pc as [ | | |v|v|x]; cbn [counted finished] in Hab, Hdone.
  - destruct (worker_operation c (Z.of_nat (length l1)) w s) as [[u|e] s1].
    + eexists _, _, Succeeded. split; [reflexivity|].
      split; [apply (set_worker_middle p l1 l2 Submitted), Hw|]. split; [simpl; lia|].
      apply (consistent_middle _ l1 l2 Succeeded a b);
        [apply (set_worker_middle p l1 l2 Submitted), Hw|..]; simpl; auto.
    + destruct (is_Exception e).
      * eexists _, _, Failed. split; [reflexivity|].
        split; [apply (set_worker_middle p l1 l2 Submitted), Hw|]. split; [simpl; lia|].
        apply (consistent_middle _ l1 l2 Failed a b);
          [apply (set_worker_middle p l1 l2 Submitted), Hw|..]; simpl; auto.
      * eexists _, _, (Finished (Some e)). split; [reflexivity|].
        split; [apply (finish_middle p l1 l2 Submitted), Hw|]. split; [simpl; lia|].
        apply (consistent_middle _ l1 l2 (Finished (Some e)) a b);
          [apply (finish_middle p l1 l2 Submitted), Hw|..]; simpl; auto.
        rewrite length_app. simpl. lia.
  - eexists _, _, (LoadedCompleted (completed_operations p)). split; [reflexivity|].
    split; [apply (set_worker_middle p l1 l2 Succeeded), Hw|]. split; [simpl; lia|].
    apply (consistent_middle _ l1 l2 (LoadedCompleted (completed_operations p)) a b);
      [apply (set_worker_middle p l1 l2 Succeeded), Hw|..]; simpl; auto.
  - eexists _, _, (LoadedFailed (failed_operations p)). split; [reflexivity|].
    split; [apply (set_worker_middle p l1 l2 Failed), Hw|]. split; [simpl; lia|].
    apply (consistent_middle _ l1 l2 (LoadedFailed (failed_operations p)) a b);
      [apply (set_worker_middle p l1 l2 Failed), Hw|..]; simpl; auto.
  - simpl in Hpc.
    eexists _, _, (Finished None). split; [reflexivity|].
    split; [apply (finish_middle _ l1 l2 (LoadedCompleted v)); reflexivity|].
    split; [simpl; lia|].
    apply (consistent_middle _ l1 l2 (Finished None) (a + 1) b);
      [apply (finish_middle _ l1 l2 (LoadedCompleted v)); reflexivity|..];
      simpl; try lia.
    + apply (loaded_within_le a b); [lia|lia|exact Hall1].
    + apply (loaded_within_le a b); [lia|lia|exact Hall2].
    + rewrite length_app. simpl. lia.
  - simpl in Hpc.
    eexists _, _, (Finished None). split; [reflexivity|].
    split; [apply (finish_middle _ l1 l2 (LoadedFailed v)); reflexivity|].
    split; [simpl; lia|].
    apply (consistent_middle _ l1 l2 (Finished None) a (b + 1));
      [apply (finish_middle _ l1 l2 (LoadedFailed v)); reflexivity|..];
      simpl; try lia.
    + apply (loaded_within_le a b); [lia|lia|exact Hall1].
    + apply (loaded_within_le a b); [lia|lia|exact Hall2].
    + rewrite length_app. simpl. lia.
  - eexists p, s, (Finished x). split; [reflexivity|]. split; [exact Hw|].
    split; [simpl; lia|].
    apply (consistent_middle _ l1 l2 (Finished x) a b); simpl; auto.
Qed.

Lemma no_regress_refl (ws : list worker_pc) : no_regress ws ws.
Proof. induction ws; constructor; auto. Qed.

Lemma no_regress_trans (a b c : list worker_pc) :
  no_regress a b -> no_regress b c -> no_regress a c.
Proof.
  intros Hab. revert c. induction Hab as [|x y a b Hxy Hab IH]; intros c Hbc;
    inversion Hbc; subst; constructor; [lia|]. now apply IH.
Qed.

Lemma no_regress_middle (l1 l2 : list worker_pc) (pc pc' : worker_pc) :
  (remaining pc' <= remaining pc)%nat ->
  no_regress (l1 ++ pc :: l2) (l1 ++ pc' :: l2).
Proof.
  intros H. apply Forall2_app; [apply no_regress_refl|].
  constructor; [exact H|apply no_regress_refl].
Qed.

(** A step of any worker, known to the pool or not, returns; it keeps the
    pool consistent and sets no worker back. *)
Lemma step_total (c : VectraClient) (i : nat) (p : pool) (w : world) (s : pstate) :
  consistent p ->
  exists p' s',
    step c i p w s = (Ok p', s') /\ consistent p' /\
    no_regress (workers p) (workers p').
Proof.
  intros Hp. destruct (nth_error (workers p) i) as [pc|] eqn:E.
  - apply nth_error_split in E. destruct E as (l1 & l2 & Hw & <-).
    destruct (step_moves c p w s l1 l2 pc Hw Hp) as (p' & s' & pc' & E & Hw' & Hr & Hp').
    exists p', s'. split; [exact E|]. split; [exact Hp'|].
    rewrite Hw, Hw'. apply no_regress_middle. lia.
  - exists p, s. unfold step. rewrite E.
    split; [reflexivity|]. split; [exact Hp|apply no_regress_refl].
Qed.

(** So does any sequence of steps. *)
Lemma steps_total (c : VectraClient) (w : world) (schedule : list nat) :
  forall (p : pool) (s : pstate),
    consistent p ->
    exists p' s',
      for_each schedule (step c) p w s = (Ok p', s') /\ consistent p' /\
      no_regress (workers p) (workers p').
Proof.
  induction schedule as [|i l IH]; intros p s Hp.
  - exists p, s. split; [reflexivity|]. split; [exact Hp|apply no_regress_refl].
  - destruct (step_total c i p w s Hp) as (p1 & s1 & E1 & Hp1 & H1).
    destruct (IH p1 s1 Hp1) as (p2 & s2 & E2 & Hp2 & H2).
    exists p2, s2. rewrite for_each_cons, (bind_ok _ _ w s s1 p1 E1).
    split; [exact E2|]. split; [exact Hp2|].
    eapply no_regress_trans; eassumption.
Qed.

(** Three steps bring a worker to its end, wherever it was. *)
Lemma three_steps_finish (c : VectraClient) (p : pool) (w : world) (s : pstate)
    (l1 l2 : list worker_pc) (pc : worker_pc) :
  workers p = (l1 ++ pc :: l2)%list -> consistent p ->
  exists p' s' x,
    for_each [length l1; length l1; length l1] (step c) p w s = (Ok p', s') /\
    workers p' = (l1 ++ Finished x :: l2)%list /\ consistent p'.
Proof.
  intros Hw Hp.
  destruct (step_moves c p w s l1 l2 pc Hw Hp) as (p1 & s1 & pc1 & E1 & Hw1 & Hr1 & Hp1).
  destruct (step_moves c p1 w s1 l1 l2 pc1 Hw1 Hp1)
    as (p2 & s2 & pc2 & E2 & Hw2 & Hr2 & Hp2).
  destruct (step_moves c p2 w s2 l1 l2 pc2 Hw2 Hp2)
    as (p3 & s3 & pc3 & E3 & Hw3 & Hr3 & Hp3).
  assert (H3 : remaining pc3 = 0%nat).
  { destruct pc; simpl in Hr1; lia. }
  destruct pc3 as [ | | | | |x]; try discriminate H3.
  exists p3, s3, x.
  rewrite for_each_cons, (bind_ok _ _ w s s1 p1 E1).
  rewrite for_each_cons, (bind_ok _ _ w s1 s2 p2 E2).
  rewrite for_each_cons, (bind_ok _ _ w s2 s3 p3 E3).
  split; [reflexivity|]. split; assumption.
Qed.

(** Joining the workers brings every one of them to its end. *)
Lemma join_finishes_all (c : VectraClient) (w : world) (m : nat) :
  forall (l1 l2 : list worker_pc) (p : pool) (s : pstate),
    workers p = (l1 ++ l2)%list -> length l2 = m ->
    forallb finished l1 = true -> consistent p ->
    exists p' s',
      for_each (flat_map (fun i => [i; i; i]) (seq (length l1) m)) (step c) p w s
      = (Ok p', s') /\
      consistent p' /\ forallb finished (workers p') = true /\
      length (workers p') = length (workers p).
Proof.
  induction m as [|m IH]; intros l1 l2 p s Hw Hlen Hfin Hp.
  - destruct l2; [|discriminate Hlen]. rewrite app_nil_r in Hw.
    exists p, s. split; [reflexivity|]. split; [exact Hp|].
    split; [now rewrite Hw|reflexivity].
  - destruct l2 as [|pc l2]; [discriminate Hlen|]. injection Hlen as Hlen.
    destruct (three_steps_finish c p w s l1 l2 pc Hw Hp) as (p3 & s3 & x & E3 & Hw3 & Hp3).
    assert (Hw3' : workers p3 = ((l1 ++ [Finished x]) ++ l2)%list).
    { rewrite Hw3, <- app_assoc. reflexivity. }
    assert (Hfin' : forallb finished (l1 ++ [Finished x]) = true).
    { rewrite forallb_app, Hfin. reflexivity. }
    destruct (IH (l1 ++ [Finished x])%list l2 p3 s3 Hw3' Hlen Hfin' Hp3)
      as (p' & s' & E & Hp' & Hall & Hl).
    exists p', s'. cbn [seq flat_map].
    rewrite (for_each_app [length l1; length l1; length l1]), E3.
    rewrite length_app in E. simpl in E. rewrite Nat.add_1_r in E.
    split; [exact E|]. split; [exact Hp'|]. split; [exact Hall|].
    rewrite Hl, Hw3, Hw, !length_app. reflexivity.
Qed.

Lemma filter_repeat_Submitted (f : worker_pc -> bool) (n : nat) :
  f Submitted = false -> filter f (repeat Submitted n) = [].
Proof. intros H. induction n; simpl; [reflexivity|]. now rewrite H. Qed.

(** Under every schedule the workers of a level all come to their end, and
    the pool they leave is consistent. *)
Lemma run_workers_consistent (c : VectraClient) (level : Z) (w : world) (s : pstate) :
  exists p s',
    run_workers c level w s = (Ok p, s') /\ consistent p /\
    forallb finished (workers p) = true /\
    length (workers p) = Z.to_nat level.
Proof.
  unfold run_workers. cbv zeta.
  set (p0 := mk_pool 0 0 (repeat Submitted (Z.to_nat level)) []).
  assert (H0 : consistent p0).
  { exists 0, 0. unfold p0. cbn [workers done completed_operations failed_operations].
    rewrite !filter_repeat_Submitted by reflexivity.
    repeat split; try lia; try reflexivity.
    induction (Z.to_nat level); constructor; simpl; auto. }
  destruct (steps_total c w (thread_schedule w level) p0 s H0)
    as (p1 & s1 & E1 & Hp1 & Hr1).
  assert (Hlen1 : length (workers p1) = Z.to_nat level).
  { apply Forall2_length in Hr1. rewrite <- Hr1. unfold p0. cbn [workers].
    apply repeat_length. }
  destruct (join_finishes_all c w (Z.to_nat level) [] (workers p1) p1 s1 eq_refl Hlen1
              eq_refl Hp1) as (p2 & s2 & E2 & Hp2 & Hall & Hl).
  exists p2, s2. unfold bind. rewrite E1. unfold join_all.
  split; [exact E2|]. split; [exact Hp2|]. split; [exact Hall|]. congruence.
Qed.

Lemma filter_all_length {A : Type} (f : A -> bool) (l : list A) :
  forallb f l = true -> length (filter f l) = length l.
Proof.
  induction l as [|x l IH]; simpl; [reflexivity|].
  intros H. apply andb_prop in H. destruct H as (-> & H). simpl. now rewrite IH.
Qed.

(** X15.  The counters of a concurrency level under every schedule of its
    worker threads.  However the threads interleave, the block returns
    once every worker has come to its end, every future is done exactly
    once, and the unlocked updates can lose increments but never invent
    one: both counters are non-negative and [completed + failed] is at most
    the level. *)
Theorem counters_never_exceed_the_level
    (c : VectraClient) (level : Z) (w : world) (s : pstate) (Hlevel : 0 < level) :
  exists p s',
    run_workers c level w s = (Ok p, s') /\
    Z.of_nat (length (workers p)) = level /\
    forallb finished (workers p) = true /\
    Z.of_nat (length (done p)) = level /\
    0 <= completed_operations p /\
    0 <= failed_operations p /\
    completed_operations p + failed_operations p <= level.
Proof.
  destruct (run_workers_consistent c level w s) as (p & s' & E & Hp & Hall & Hlen).
  exists p, s'. split; [exact E|].
  destruct Hp as (a & b & Ha & Hb & Hab & Hc & Hf & _ & Hdone).
  rewrite (filter_all_length _ _ Hall) in Hdone.
  pose proof (filter_length_le counted (workers p)) as Hle.
  repeat split; try lia. exact Hall.
Qed.

Lemma counters_never_exceed_the_level_witness :
  0 < 5 /\
  exists p,
    fst (run_workers http_client 5 racing_world initial) = Ok p /\
    completed_operations p + failed_operations p <= 5.
Proof.
  split; [lia|].
  destruct (counters_never_exceed_the_level http_client 5 racing_world initial
              ltac:(lia)) as (p & s' & E & _ & _ & _ & _ & _ & H).
  exists p. rewrite E. split; [reflexivity|exact H].
Defined.

Lemma run_workers_untouched (c : VectraClient) (level : Z) :
  preserves untouched (run_workers c level).
Proof.
  apply untouched_of. intros R H1 H2 H3 H4. now apply preserves_run_workers.
Qed.

(** Collecting the futures changes nothing, and re-raises only an
    exception that is not an [Exception]. *)
Lemma collect_outcome (p : pool) (w : world) (s : pstate) :
  snd (collect p w s) = s /\
  match fst (collect p w s) with
  | Ok _ => True
  | Raise e => is_Exception e = false
  end.
Proof.
  unfold collect, for_. induction (done p) as [|[i [e|]] l IH]; simpl.
  - split; [reflexivity|exact I].
  - unfold bind. destruct (is_Exception e) eqn:He; simpl; [exact IH|].
    split; [reflexivity|exact He].
  - unfold bind. simpl. exact IH.
Qed.

(** X16.  A concurrency level divides the number of completed operations
    by the time the level took.  On a clock that does not advance between
    the two readings (all its readings are equal), the level always ends in
    an exception and records nothing: [ZeroDivisionError], unless an
    exception that is not an [Exception] had escaped from a worker and is
    re-raised first.  This holds for every client, every level and every
    schedule. *)
Theorem concurrency_level_needs_an_advancing_clock
    (c : VectraClient) (level : Z) (w : world) (s : pstate)
    (Hclock : forall n m, (wall_clock w n == wall_clock w m)%Q) :
  exists e s',
    concurrent_level c level w s = (Raise e, s') /\
    results s' = results s /\
    files_written s' = files_written s /\
    (is_Exception e = true ->
     e = mk_exn ZeroDivisionError "float division by zero").
Proof.
  unfold concurrent_level.
  erewrite bind_ok; [|reflexivity]. erewrite bind_ok; [|reflexivity].
  set (s1 := {| tick := S _; events := _; results := _ |}).
  assert (H1 : untouched s s1).
  { split; [reflexivity|]. apply (files_written_emit s). reflexivity. }
  destruct (run_workers_consistent c level w s1) as (p & s2 & E & _).
  pose proof (run_workers_untouched c level w s1) as H2. rewrite E in H2. simpl in H2.
  erewrite bind_ok; [|exact E].
  destruct (collect_outcome p w s2) as (Hs & He).
  destruct (collect p w s2) as [[u|e] s3] eqn:Ec; simpl in Hs, He; subst s3.
  - erewrite bind_ok; [|exact Ec]. erewrite bind_ok; [|reflexivity].
    unfold truediv. cbn [tick].
    assert (Hz : Qeq_bool (wall_clock w (tick s2) - wall_clock w (tick s)) 0 = true).
    { apply Qeq_bool_iff. pose proof (Hclock (tick s2) (tick s)) as H. lra. }
    unfold bind at 1. rewrite Hz. unfold raise.
    eexists _, _. split; [reflexivity|]. cbn [results].
    destruct H1 as (Hr1 & Hf1). destruct H2 as (Hr2 & Hf2).
    split; [congruence|]. split; [|reflexivity].
    unfold files_written in *. cbn [events]. congruence.
  - erewrite bind_raise; [|exact Ec]. exists e, s2.
    destruct H1 as (Hr1 & Hf1). destruct H2 as (Hr2 & Hf2).
    split; [reflexivity|]. split; [congruence|]. split; [congruence|].
    intros H. congruence.
Qed.

Lemma concurrency_level_needs_an_advancing_clock_witness :
  (forall n m, (wall_clock stuck_world n == wall_clock stuck_world m)%Q) /\
  fst (concurrent_level http_client 5 stuck_world initial) =
  Raise (mk_exn ZeroDivisionError "float division by zero").
Proof.
  assert (H : forall n m, (wall_clock stuck_world n == wall_clock stuck_world m)%Q)
    by (intros n m; reflexivity).
  split; [exact H|].
  destruct (concurrency_level_needs_an_advancing_clock http_client 5 stuck_world initial
              H) as (e & s' & E & _ & _ & He).
  rewrite E. cbn [fst]. f_equal. apply He.
  assert (Hr : fst (concurrent_level http_client 5 stuck_world initial) = Raise e)
    by now rewrite E.
  vm_compute in Hr. injection Hr as <-. reflexivity.
Defined.

(** ** Runs without preemption, on the sample worlds *)

Lemma healthy_calls_succeed (i : nat) (s0 : pstate) :
  fst (worker_operation http_client (Z.of_nat i) healthy_world s0) = Ok tt.
Proof.
  unfold worker_operation.
  destruct (Z.of_nat i mod 3 =? 0); [reflexivity|].
  destruct (Z.of_nat i mod 3 =? 1); reflexivity.
Qed.

Lemma ticking_advances (n m : nat) : (n < m)%nat -> (ticking n < ticking m)%Q.
Proof. intros H. unfold ticking, Qlt. simpl. lia. Qed.

Lemma counts_without_preemption_witness :
  0 <= 5 /\
  thread_schedule healthy_world 5 = [] /\
  exists p s',
    run_workers http_client 5 healthy_world initial = (Ok p, s') /\
    completed_operations p = 5 /\ failed_operations p = 0.
Proof.
  split; [lia|]. split; [reflexivity|].
  destruct (counts_without_preemption http_client healthy_world 5 initial ltac:(lia)
              eq_refl) as (_ & H & _).
  apply H. intros i s0. now rewrite healthy_calls_succeed.
Defined.

Lemma concurrent_level_without_preemption_witness :
  0 < 5 /\
  thread_schedule healthy_world 5 = [] /\
  exists fields,
    dict_get (results (snd (concurrent_level http_client 5 healthy_world initial)))
      "concurrent_5" = Some (PDict fields) /\
    dict_get fields "completed_operations" = Some (PInt 5) /\
    dict_get fields "failed_operations" = Some (PInt 0).
Proof.
  split; [lia|]. split; [reflexivity|].
  destruct (concurrent_level_without_preemption http_client healthy_world 5 initial true
              ltac:(lia) eq_refl ticking_advances
              (fun i s0 => or_introl (conj (healthy_calls_succeed i s0) eq_refl)))
    as (s' & total & throughput & E & Hr & _).
  eexists. rewrite E. cbn [snd]. split; [exact Hr|]. split; reflexivity.
Defined.

Lemma worker_operation_mix_witness :
  embedded rust_client = true /\
  events_of (worker_operation rust_client 4) offline_world initial =
  [RustCall "vector_search" [PStr "test"; PInt 5]].
Proof.
  split; [reflexivity|].
  apply (worker_operation_mix rust_client 4 offline_world initial eq_refl).
Defined.

(* ================================================================== *)
(** * What a run records, and the report *)

Lemma recorded_since_refl (s : pstate) : recorded_since s s.
Proof. intros kv H. now left. Qed.

Lemma recorded_since_trans (a b c : pstate) :
  recorded_since a b -> recorded_since b c -> recorded_since a c.
Proof.
  intros Hab Hbc kv H. destruct (Hbc kv H) as [H'|H']; [apply Hab, H'|now right].
Qed.

Lemma recorded_since_tick (s : pstate) :
  recorded_since s {| tick := S (tick s); events := events s; results := results s |}.
Proof. intros kv H. now left. Qed.

Lemma recorded_since_emit (s : pstate) (e : event) :
  is_file_write e = false ->
  recorded_since s {| tick := tick s; events := (events s ++ [e])%list;
                      results := results s |}.
Proof. intros _ kv H. now left. Qed.

Lemma dict_set_In (d : py_dict) (k : string) (v : pyval) (kv : string * pyval) :
  In kv (dict_set d k v) -> In kv d \/ kv = (k, v).
Proof.
  induction d as [|[k' v'] d IH]; simpl.
  - intros [<-|[]]. now right.
  - destruct (String.eqb_spec k k') as [->|_]; simpl.
    + intros [<-|H]; [now right|left; now right].
    + intros [<-|H]; [left; now left|]. destruct (IH H) as [H'|H']; [left; now right|now right].
Qed.

Lemma recorded_since_record (name : string) (value : py_dict) :
  well_formed (name, PDict value) = true ->
  preserves recorded_since (record name value).
Proof.
  intros Hwf w s kv H. simpl in H. apply dict_set_In in H.
  destruct H as [H| ->]; [now left|now right].
Qed.

Lemma preserves_for_in (R : pstate -> pstate -> Prop) {A : Type} (l : list A)
    (body : A -> M unit) :
  (forall s, R s s) -> (forall a b c, R a b -> R b c -> R a c) ->
  (forall x, In x l -> preserves R (body x)) -> preserves R (for_ l body).
Proof.
  intros Hrefl Htrans. unfold for_. induction l as [|x l IH]; intros Hbody w s.
  - apply Hrefl.
  - simpl. unfold bind. pose proof (Hbody x (or_introl eq_refl) w s) as Hx.
    destruct (body x w s) as [[[]|e] s1]; simpl in *; [|exact Hx].
    eapply Htrans; [exact Hx|]. apply (IH (fun y Hy => Hbody y (or_intror Hy)) w s1).
Qed.

Ltac recording_step :=
  lazymatch goal with
  | |- preserves _ (ret _) => apply preserves_ret; exact recorded_since_refl
  | |- preserves _ (print _) => apply preserves_print; exact recorded_since_emit
  | |- preserves _ skipped => apply preserves_print; exact recorded_since_emit
  | |- preserves _ (record _ _) => apply recorded_since_record
  | |- preserves _ time_time => apply preserves_time_time; exact recorded_since_tick
  | |- preserves _ (truediv _ _) => apply preserves_truediv; exact recorded_since_refl
  | |- preserves _ (health_check _) =>
      apply preserves_health_check;
      [exact recorded_since_refl|exact recorded_since_trans|exact recorded_since_tick
      |exact recorded_since_emit]
  | |- preserves _ (create_table _ _ _) =>
      apply preserves_create_table;
      [exact recorded_since_trans|exact recorded_since_tick|exact recorded_since_emit]
  | |- preserves _ (insert_data _ _) =>
      apply preserves_insert_data;
      [exact recorded_since_refl|exact recorded_since_trans|exact recorded_since_tick
      |exact recorded_since_emit]
  | |- preserves _ (execute_query _ _) =>
      apply preserves_execute_query;
      [exact recorded_since_refl|exact recorded_since_trans|exact recorded_since_tick
      |exact recorded_since_emit]
  | |- preserves _ (vector_search _ _ _) =>
      apply preserves_vector_search;
      [exact recorded_since_refl|exact recorded_since_trans|exact recorded_since_tick
      |exact recorded_since_emit]
  | |- preserves _ (get_stats _) =>
      apply preserves_get_stats;
      [exact recorded_since_refl|exact recorded_since_trans|exact recorded_since_tick
      |exact recorded_since_emit]
  | |- preserves _ (run_workers _ _) =>
      apply preserves_run_workers;
      [exact recorded_since_refl|exact recorded_since_trans|exact recorded_since_tick
      |exact recorded_since_emit]
  | |- preserves _ (collect _) =>
      apply preserves_collect; [exact recorded_since_refl|exact recorded_since_trans]
  | |- preserves _ (timed _ _ _) =>
      apply preserves_timed;
      [exact recorded_since_refl|exact recorded_since_trans|exact recorded_since_tick
      |exact recorded_since_emit|]
  | |- preserves _ (try_except _ _ _) =>
      apply preserves_try_except; [exact recorded_since_trans| |intros ?]
  | |- preserves _ (for_each _ _ _) =>
      apply preserves_for_each;
      [exact recorded_since_refl|exact recorded_since_trans|intros ? ?]
  | |- preserves _ (for_ _ _) =>
      apply preserves_for_;
      [exact recorded_since_refl|exact recorded_since_trans|intros ?]
  | |- preserves _ (bind _ _) =>
      apply preserves_bind; [exact recorded_since_trans| |intros ?]
  | |- preserves _ (match ?x with _ => _ end) => destruct x
  end.

Ltac recording := cbv zeta; repeat (recording_step; cbv beta); try reflexivity.

Lemma connection_phase_records (self : PerformanceTester) :
  preserves recorded_since (test_connection_performance self).
Proof. unfold test_connection_performance. recording. Qed.

Lemma table_phase_records (self : PerformanceTester) :
  preserves recorded_since (test_table_operations self).
Proof. unfold test_table_operations. recording. Qed.

Lemma insertion_phase_records (self : PerformanceTester) :
  preserves recorded_since (test_data_insertion_performance self).
Proof.
  unfold test_data_insertion_performance.
  apply preserves_bind; [exact recorded_since_trans|recording|intros _].
  destruct (pt_client self) as [c|]; [|recording].
  apply preserves_for_in; [exact recorded_since_refl|exact recorded_since_trans|].
  intros size Hin. unfold data_sizes in Hin. simpl in Hin.
  destruct Hin as [<-|[<-|[<-|[]]]]; unfold insertion_of_size; recording.
Qed.

Lemma query_phase_records (self : PerformanceTester) :
  preserves recorded_since (test_query_performance self).
Proof.
  unfold test_query_performance.
  apply preserves_bind; [exact recorded_since_trans|recording|intros _].
  destruct (pt_client self) as [c|]; [|recording].
  apply preserves_for_in; [exact recorded_since_refl|exact recorded_since_trans|].
  intros iq Hin. vm_compute in Hin.
  destruct Hin as [<-|[<-|[<-|[]]]]; unfold query_case; recording.
Qed.

Lemma search_phase_records (self : PerformanceTester) :
  preserves recorded_since (test_vector_search_performance self).
Proof.
  unfold test_vector_search_performance.
  apply preserves_bind; [exact recorded_since_trans|recording|intros _].
  destruct (pt_client self) as [c|]; [|recording].
  apply preserves_for_in; [exact recorded_since_refl|exact recorded_since_trans|].
  intros limit Hin. unfold search_limits in Hin. simpl in Hin.
  destruct Hin as [<-|[<-|[<-|[<-|[]]]]]; unfold search_case; recording.
Qed.

Lemma concurrent_phase_records (self : PerformanceTester) :
  preserves recorded_since (test_concurrent_operations self).
Proof.
  unfold test_concurrent_operations.
  apply preserves_bind; [exact recorded_since_trans|recording|intros _].
  destruct (pt_client self) as [c|]; [|recording].
  apply preserves_for_in; [exact recorded_since_refl|exact recorded_since_trans|].
  intros level Hin. unfold concurrency_levels in Hin. simpl in Hin.
  destruct Hin as [<-|[<-|[<-|[]]]]; unfold concurrent_level; recording.
Qed.

Lemma memory_phase_records (self : PerformanceTester) :
  preserves recorded_since (test_memory_usage self).
Proof. unfold test_memory_usage. recording. Qed.

Lemma stress_phase_records (self : PerformanceTester) :
  preserves recorded_since (test_stress_scenarios self).
Proof. unfold test_stress_scenarios. recording. Qed.

Lemma phases_record (self : PerformanceTester) (phase : PerformanceTester -> M unit) :
  In phase phases -> preserves recorded_since (phase self).
Proof.
  unfold phases. simpl.
  intros [<-|[<-|[<-|[<-|[<-|[<-|[<-|[<-|[]]]]]]]]].
  - apply connection_phase_records.
  - apply table_phase_records.
  - apply insertion_phase_records.
  - apply query_phase_records.
  - apply search_phase_records.
  - apply concurrent_phase_records.
  - apply memory_phase_records.
  - apply stress_phase_records.
Qed.

Lemma run_all_tests_records (self : PerformanceTester) :
  preserves recorded_since (run_all_tests self).
Proof.
  intros w s. rewrite run_all_tests_is_a_loop. revert w s.
  apply preserves_bind; [exact recorded_since_trans|recording|intros _].
  apply preserves_bind; [exact recorded_since_trans|recording|intros _].
  apply preserves_bind; [exact recorded_since_trans| |intros _].
  - apply preserves_for_in; [exact recorded_since_refl|exact recorded_since_trans|].
    intros phase Hin. apply phases_record, Hin.
  - apply preserves_bind; [exact recorded_since_trans|recording|intros _].
    apply preserves_bind; [exact recorded_since_trans|recording|intros _].
    apply preserves_get_results. exact recorded_since_refl.
Qed.

(** ** The summary of well-formed results *)

Lemma dict_get_In (d : py_dict) (k : string) (v : pyval) :
  dict_get d k = Some v -> In (k, v) d.
Proof.
  induction d as [|[k' v'] d IH]; simpl; [discriminate|].
  destruct (String.eqb_spec k k') as [->|_].
  - intros [= ->]. now left.
  - intros H. right. apply IH, H.
Qed.

Lemma read_present (v : pyval) (k : string) (K : pyval -> M unit) (w : world)
    (s : pstate) :
  present v k = true -> exists x, bind (subscript v k) K w s = K x w s.
Proof.
  unfold present, subscript. destruct v as [ | | | | | |d]; try discriminate.
  destruct (dict_get d k) as [x|]; [|discriminate]. intros _. now exists x.
Qed.

Lemma read_numeric (v : pyval) (k : string) (K : fpart -> M unit) (w : world)
    (s : pstate) :
  numeric v k = true ->
  exists part, bind (subscript v k) (fun a => bind (format_2f a) K) w s = K part w s.
Proof.
  unfold numeric, subscript. destruct v as [ | | | | | |d]; try discriminate.
  destruct (dict_get d k) as [[ |b|z|q| | | ]|]; try discriminate; intros _;
    eexists; reflexivity.
Qed.

Section Summary.

Variable R : py_dict.
Hypothesis HR : forallb summarizable R = true.

Lemma summary_print (line : list fpart) : summary_step R (print line).
Proof.
  intros w s _. eexists. split; [reflexivity|apply only_prints_print].
Qed.

Lemma summary_seq (m k : M unit) :
  summary_step R m -> summary_step R k -> summary_step R (m ;;; k).
Proof.
  intros Hm Hk w s Hs. destruct (Hm w s Hs) as (s1 & E1 & H1).
  destruct (Hk w s1) as (s2 & E2 & H2); [destruct H1; congruence|].
  exists s2. rewrite (bind_ok _ _ w s s1 tt E1). split; [exact E2|].
  eapply only_prints_trans; eassumption.
Qed.

Lemma summary_when_result (name : string) (body : pyval -> M unit) :
  (forall v, In (name, v) R -> summary_step R (body v)) ->
  summary_step R (when_result name body).
Proof.
  intros Hbody w s Hs. unfold when_result, bind, get_results. rewrite Hs.
  destruct (dict_get R name) as [v|] eqn:E.
  - apply (Hbody v (dict_get_In R name v E) w s Hs).
  - exists s. split; [reflexivity|apply only_prints_refl].
Qed.

Lemma summary_for_results_with (prefix : string) (body : string -> pyval -> M unit) :
  (forall k v, In (k, v) R -> is_prefix prefix k = true -> summary_step R (body k v)) ->
  summary_step R (for_results_with prefix body).
Proof.
  intros Hbody w s Hs. unfold for_results_with, bind at 1, get_results. rewrite Hs.
  assert (H : forall l, incl l R ->
              forall s0, results s0 = R ->
              exists s', for_ l (fun kv => if is_prefix prefix (fst kv)
                                          then body (fst kv) (snd kv) else ret tt) w s0
                         = (Ok tt, s') /\ only_prints s0 s').
  { induction l as [|[k v] l IH]; intros Hl s0 Hs0.
    - exists s0. split; [reflexivity|apply only_prints_refl].
    - unfold for_. rewrite for_each_cons. cbn [fst snd].
      assert (E : exists s1,
                 (if is_prefix prefix k then body k v else ret tt) w s0 = (Ok tt, s1)
                 /\ only_prints s0 s1).
      { destruct (is_prefix prefix k) eqn:Ep.
        - apply (Hbody k v (Hl _ (or_introl eq_refl)) Ep w s0 Hs0).
        - exists s0. split; [reflexivity|apply only_prints_refl]. }
      destruct E as (s1 & E1 & H1). rewrite (bind_ok _ _ w s0 s1 tt E1).
      destruct (IH (fun x Hx => Hl x (or_intror Hx)) s1) as (s2 & E2 & H2);
        [destruct H1; congruence|].
      exists s2. split; [exact E2|]. eapply only_prints_trans; eassumption. }
  apply (H R (incl_refl R) s Hs).
Qed.

Lemma field_is_there (k : string) (v : pyval) (f : string) (b : bool) :
  In (k, v) R -> In (f, b) (fields_read k) ->
  (if b then numeric v f else present v f) = true.
Proof.
  intros Hkv Hf. rewrite forallb_forall in HR. specialize (HR _ Hkv).
  unfold summarizable in HR. rewrite forallb_forall in HR. apply (HR _ Hf).
Qed.

Lemma summary_average (k : string) (v : pyval) (before after : list fpart) :
  In (k, v) R -> In ("avg_time_ms", true) (fields_read k) ->
  summary_step R
    (a <- subscript v "avg_time_ms" ;; a <- format_2f a ;;
     print (before ++ a :: after)%list).
Proof.
  intros Hkv Hf w s Hs.
  destruct (read_numeric v "avg_time_ms"
              (fun a => print (before ++ a :: after)%list) w s
              (field_is_there k v _ _ Hkv Hf)) as (part & E).
  rewrite E. apply summary_print, Hs.
Qed.

End Summary.

Lemma fields_read_by_prefix (prefix k f : string) (b : bool) :
  is_prefix prefix k = true ->
  In (f, b) (fields_read prefix) ->
  In prefix ["data_insertion_"; "query_"; "vector_search_"; "concurrent_"] ->
  In (f, b) (fields_read k).
Proof.
  intros Hp Hf Hin. unfold fields_read. rewrite !in_app_iff.
  simpl in Hin. destruct Hin as [<-|[<-|[<-|[<-|[]]]]]; rewrite Hp;
    vm_compute in Hf; simpl; tauto.
Qed.

(** On results that hold the fields it reads, [print_summary] returns
    normally and does nothing but print. *)
Lemma print_summary_succeeds (self : PerformanceTester) (w : world) (s : pstate) :
  forallb summarizable (results s) = true ->
  exists s', print_summary self w s = (Ok tt, s') /\ only_prints s s'.
Proof.
  intros HR.
  assert (H : summary_step (results s) (print_summary self)); [|now apply H].
  generalize dependent (results s). intros R HR. unfold print_summary.
  apply summary_seq; [apply summary_print|].
  apply summary_seq; [apply summary_print|].
  intros w0 s0 Hs0. unfold bind at 1, get_results. rewrite Hs0.
  destruct R as [|kv0 R0]; [apply (summary_print [] _ w0 s0 Hs0)|].
  revert w0 s0 Hs0. set (R := kv0 :: R0) in *.
  match goal with
  | |- forall w0 s0, results s0 = R -> exists s', ?m w0 s0 = _ /\ _ =>
      change (summary_step R m)
  end.
  repeat apply summary_seq.
  - apply summary_when_result. intros v Hv.
    apply (summary_average R HR "connection" v [Lit "🔌 Connection: "] [Lit "ms avg"] Hv).
    vm_compute. tauto.
  - apply summary_when_result. intros v Hv.
    apply (summary_average R HR "table_creation" v [Lit "📊 Table Creation: "]
             [Lit "ms avg"] Hv).
    vm_compute. tauto.
  - apply summary_for_results_with. intros k v Hv Hp w0 s0 Hs0. cbv zeta.
    destruct (read_numeric v "avg_time_ms"
                (fun a => t <- subscript v "throughput_kbs" ;; t <- format_2f t ;;
                          print [Lit "📝 "; Fmt (PStr (replace_b (last_segment k "")));
                                 Lit " Data Insertion: "; a; Lit "ms avg, "; t;
                                 Lit " KB/s"]) w0 s0) as (a & Ea).
    { apply (field_is_there R HR k v "avg_time_ms" true Hv).
      apply (fields_read_by_prefix "data_insertion_" k _ _ Hp);
        vm_compute; tauto. }
    rewrite Ea.
    destruct (read_numeric v "throughput_kbs"
                (fun t => print [Lit "📝 "; Fmt (PStr (replace_b (last_segment k "")));
                                 Lit " Data Insertion: "; a; Lit "ms avg, "; t;
                                 Lit " KB/s"]) w0 s0) as (t & Et).
    { apply (field_is_there R HR k v "throughput_kbs" true Hv).
      apply (fields_read_by_prefix "data_insertion_" k _ _ Hp);
        vm_compute; tauto. }
    rewrite Et. apply (summary_print R _ w0 s0 Hs0).
  - apply summary_for_results_with. intros k v Hv Hp.
    apply (summary_average R HR k v
             [Lit "🔍 Query "; Fmt (PStr (last_segment k "")); Lit ": "]
             [Lit "ms avg"] Hv).
    apply (fields_read_by_prefix "query_" k _ _ Hp); vm_compute; tauto.
  - apply summary_for_results_with. intros k v Hv Hp w0 s0 Hs0.
    destruct (read_present v "limit"
                (fun limit => a <- subscript v "avg_time_ms" ;; a <- format_2f a ;;
                              print [Lit "🧠 Vector Search (limit "; Fmt limit;
                                     Lit "): "; a; Lit "ms avg"]) w0 s0) as (x & Ex).
    { apply (field_is_there R HR k v "limit" false Hv).
      apply (fields_read_by_prefix "vector_search_" k _ _ Hp); vm_compute; tauto. }
    rewrite Ex.
    apply (summary_average R HR k v [Lit "🧠 Vector Search (limit "; Fmt x; Lit "): "]
             [Lit "ms avg"] Hv); [|exact Hs0].
    apply (fields_read_by_prefix "vector_search_" k _ _ Hp); vm_compute; tauto.
  - apply summary_for_results_with. intros k v Hv Hp w0 s0 Hs0.
    destruct (read_present v "concurrency_level"
                (fun level => throughput <- subscript v "throughput_ops_per_sec" ;;
                              t <- format_2f throughput ;;
                              print [Lit "⚡ Concurrent "; Fmt level; Lit ": "; t;
                                     Lit " ops/sec"]) w0 s0) as (x & Ex).
    { apply (field_is_there R HR k v "concurrency_level" false Hv).
      apply (fields_read_by_prefix "concurrent_" k _ _ Hp); vm_compute; tauto. }
    rewrite Ex.
    destruct (read_numeric v "throughput_ops_per_sec"
                (fun t => print [Lit "⚡ Concurrent "; Fmt x; Lit ": "; t;
                                 Lit " ops/sec"]) w0 s0) as (t & Et).
    { apply (field_is_there R HR k v "throughput_ops_per_sec" true Hv).
      apply (fields_read_by_prefix "concurrent_" k _ _ Hp); vm_compute; tauto. }
    rewrite Et. apply (summary_print R _ w0 s0 Hs0).
  - apply summary_when_result. intros v Hv.
    apply (summary_average R HR "stress_rapid_operations" v
             [Lit "🔥 Rapid Operations: "] [Lit "ms avg"] Hv).
    vm_compute. tauto.
  - apply summary_when_result. intros v Hv w0 s0 Hs0.
    destruct (read_present v "data_size_kb"
                (fun k => a <- subscript v "avg_time_ms" ;; a <- format_2f a ;;
                          print [Lit "🔥 Large Data ("; Fmt k; Lit "KB): "; a;
                                 Lit "ms avg"]) w0 s0) as (x & Ex).
    { apply (field_is_there R HR "stress_large_data" v "data_size_kb" false Hv).
      vm_compute. tauto. }
    rewrite Ex.
    apply (summary_average R HR "stress_large_data" v
             [Lit "🔥 Large Data ("; Fmt x; Lit "KB): "] [Lit "ms avg"] Hv);
      [|exact Hs0].
    vm_compute. tauto.
Qed.

Lemma try_except2_preserves (R : pstate -> pstate -> Prop) {A : Type} (body : M A)
    (c1 c2 : exn -> bool) (h1 h2 : exn -> M A) :
  (forall a b c, R a b -> R b c -> R a c) ->
  preserves R body -> (forall e, preserves R (h1 e)) -> (forall e, preserves R (h2 e)) ->
  preserves R (try_except2 body c1 h1 c2 h2).
Proof.
  intros Htrans Hb H1 H2 w s. unfold try_except2. pose proof (Hb w s) as H.
  destruct (body w s) as [[a|e] s1]; simpl in *; [exact H|].
  destruct (c1 e); [eapply Htrans; [exact H|apply H1]|].
  destruct (c2 e); [eapply Htrans; [exact H|apply H2]|exact H].
Qed.

Lemma save_results_records (self : PerformanceTester) (filename : string) :
  preserves recorded_since (save_results self filename).
Proof.
  intros w s kv. unfold save_results, bind, ask, emit, print.
  destruct (open_for_writing w (tick s) filename); simpl; auto.
Qed.

Lemma benchmark_records (tester : PerformanceTester) (args : arguments) :
  preserves recorded_since (benchmark tester args).
Proof.
  unfold benchmark, sys_exit.
  apply try_except2_preserves; [exact recorded_since_trans| |intros e|intros e].
  - apply preserves_bind; [exact recorded_since_trans|apply run_all_tests_records|].
    intros _. apply preserves_bind; [exact recorded_since_trans| |intros _].
    + apply preserves_print_summary;
        first [exact recorded_since_refl|exact recorded_since_trans
              |exact recorded_since_emit].
    + apply preserves_bind; [exact recorded_since_trans|apply save_results_records|].
      intros _. recording.
  - apply preserves_bind; [exact recorded_since_trans|recording|intros _].
    apply preserves_raise. exact recorded_since_refl.
  - apply preserves_bind; [exact recorded_since_trans|recording|intros _].
    apply preserves_raise. exact recorded_since_refl.
Qed.

(** A new tester holds no result and has written no file. *)
Lemma PerformanceTester_init_fresh (imported : bool) (host_ : string) (port_ : Z)
    (use_rust_ : bool) (w : world) (s : pstate) :
  results (snd (PerformanceTester_init imported host_ port_ use_rust_ w s)) = [] /\
  files_written (snd (PerformanceTester_init imported host_ port_ use_rust_ w s)) =
  files_written s.
Proof.
  unfold PerformanceTester_init, VectraClient_init, bind, clear_results, ask, print,
    emit, ret.
  destruct imported; [destruct use_rust_|]; simpl.
  - destruct (rs_new (rust w) (tick s) host_ port_); simpl; split; reflexivity.
  - split; reflexivity.
  - split; [reflexivity|]. unfold files_written. simpl. rewrite flat_map_app. simpl.
    apply app_nil_r.
Qed.

Lemma well_formed_parts (kv : string * pyval) :
  well_formed kv = true -> In (fst kv) result_names /\ summarizable kv = true.
Proof.
  unfold well_formed. intros H. apply andb_prop in H. destruct H as (H & _).
  apply andb_prop in H. destruct H as (Hn & Hs).
  split; [|exact Hs]. apply existsb_exists in Hn. destruct Hn as (n & Hin & E).
  apply String.eqb_eq in E. now subst.
Qed.

(** X17.  The results of a run.  Every result that [run_all_tests] leaves
    was there before the run or was recorded under one of the eighteen
    names of the phases ([connection], [table_creation],
    [data_insertion_100b], ..., [stress_large_data]) with the fields that
    [print_summary] reads under that name; and since a new tester starts
    with no result, every result that [main] leaves is of that kind. *)
Theorem recorded_results_are_well_formed :
  (forall self w s kv,
     In kv (results (snd (run_all_tests self w s))) ->
     In kv (results s) \/ (In (fst kv) result_names /\ summarizable kv = true)) /\
  (forall imported args w kv,
     In kv (results (snd (run (main imported args) w))) ->
     In (fst kv) result_names /\ summarizable kv = true).
Proof.
  split.
  - intros self w s kv H. destruct (run_all_tests_records self w s kv H) as [H'|H'];
      [now left|right; apply well_formed_parts, H'].
  - intros imported args w kv. unfold run, main, bind.
    destruct (PerformanceTester_init_fresh imported (arg_host args) (arg_port args)
                (arg_use_rust args) w initial) as (Hr & _).
    destruct (PerformanceTester_init imported (arg_host args) (arg_port args)
                (arg_use_rust args) w initial) as [[tester|e] s0]; simpl in Hr.
    + intros H. destruct (benchmark_records tester args w s0 kv H) as [H'|H'].
      * rewrite Hr in H'. destruct H'.
      * apply well_formed_parts, H'.
    + simpl. rewrite Hr. intros [].
Qed.

Lemma run_all_tests_returns_the_results (self : PerformanceTester) (w : world)
    (s s1 : pstate) (r : py_dict) :
  run_all_tests self w s = (Ok r, s1) -> r = results s1.
Proof.
  rewrite run_all_tests_is_a_loop.
  erewrite bind_ok; [|reflexivity]. erewrite bind_ok; [|reflexivity].
  unfold bind at 1.
  destruct (for_ phases (fun phase => phase self) w _) as [[[]|e] s2]; [|discriminate].
  unfold bind, print, emit, get_results. simpl. now intros [= <- <-].
Qed.

Lemma summarizable_after_a_run (self : PerformanceTester) (w : world) (s : pstate) :
  forallb summarizable (results s) = true ->
  forallb summarizable (results (snd (run_all_tests self w s))) = true.
Proof.
  intros H. rewrite forallb_forall in *. intros kv Hkv.
  destruct (run_all_tests_records self w s kv Hkv) as [H'|H']; [apply H, H'|].
  apply well_formed_parts, H'.
Qed.

(** X18.  The summary cannot fail on what the phases record.  When the
    results held before the run have the fields the summary reads (none, for
    a new tester) and [run_all_tests] returns, [print_summary] returns
    normally: it raises no [KeyError] and no formatting error, changes no
    result, makes no request and writes no file. *)
Theorem summary_never_fails_after_a_run
    (self : PerformanceTester) (w : world) (s s1 : pstate) (r : py_dict)
    (Hs : forallb summarizable (results s) = true)
    (Hrun : run_all_tests self w s = (Ok r, s1)) :
  exists s2,
    print_summary self w s1 = (Ok tt, s2) /\
    results s2 = results s1 /\
    filter is_remote (events_of (print_summary self) w s1) = [] /\
    files_written s2 = files_written s1.
Proof.
  pose proof (summarizable_after_a_run self w s Hs) as H. rewrite Hrun in H.
  destruct (print_summary_succeeds self w s1 H) as (s2 & E & Hr & Hp).
  exists s2. split; [exact E|]. split; [exact Hr|].
  unfold events_of. rewrite E. apply (printing_is_local s1 s2 Hp).
Qed.

Lemma summary_never_fails_after_a_run_witness :
  forallb summarizable (results initial) = true /\
  fst (print_summary default_tester healthy_world
         (snd (run_all_tests default_tester healthy_world initial))) = Ok tt.
Proof.
  split; [reflexivity|].
  destruct (run_all_tests default_tester healthy_world initial) as [[r|e] s1] eqn:E;
    [|vm_compute in E; discriminate E].
  cbn [snd].
  destruct (summary_never_fails_after_a_run default_tester healthy_world initial s1 r
              eq_refl E) as (s2 & -> & _).
  reflexivity.
Defined.
(** X19.  The driver.  When the tester can be constructed, every phase
    returns and the output file can be opened, [main] returns normally
    (exit status 0): the summary between the run and the report cannot
    fail.  It has then written exactly one file, the output file, whose
    content is the JSON text of the results that [run_all_tests]
    returned. *)
Theorem main_succeeds_when_the_phases_return
    (imported : bool) (args : arguments) (w : world) (tester : PerformanceTester)
    (s0 s1 : pstate) (r : py_dict)
    (Hinit : PerformanceTester_init imported (arg_host args) (arg_port args)
               (arg_use_rust args) w initial = (Ok tester, s0))
    (Hrun : run_all_tests tester w s0 = (Ok r, s1))
    (Hopen : forall n, open_for_writing w n (arg_output args) = Ok tt) :
  fst (run (main imported args) w) = Ok tt /\
  exit_status (fst (run (main imported args) w)) = 0 /\
  files_written (snd (run (main imported args) w)) =
  [(arg_output args, Json.dumps (float_repr w) (PDict r))].
Proof.
  destruct (PerformanceTester_init_fresh imported (arg_host args) (arg_port args)
              (arg_use_rust args) w initial) as (Hr0 & Hf0).
  rewrite Hinit in Hr0, Hf0. cbn [snd] in Hr0, Hf0.
  assert (Hs0 : forallb summarizable (results s0) = true) by now rewrite Hr0.
  pose proof (summarizable_after_a_run tester w s0 Hs0) as Hs1.
  rewrite Hrun in Hs1. cbn [snd] in Hs1.
  destruct (print_summary_succeeds tester w s1 Hs1) as (s2 & Esum & _).
  destruct (benchmark_after_success tester args w s0 s1 s2 r Hrun Esum (Hopen (tick s2)))
    as (Hok & Hfiles).
  unfold run, main. rewrite (bind_ok _ _ w initial s0 tester Hinit).
  rewrite Hok, Hfiles, Hf0, (run_all_tests_returns_the_results tester w s0 s1 r Hrun).
  repeat split.
Qed.

Lemma main_succeeds_when_the_phases_return_witness :
  (forall n, open_for_writing healthy_world n (arg_output default_arguments) = Ok tt) /\
  fst (run (main true default_arguments) healthy_world) = Ok tt /\
  map fst (files_written (snd (run (main true default_arguments) healthy_world))) =
  ["performance_results.json"].
Proof.
  split; [reflexivity|].
  destruct (PerformanceTester_init true (arg_host default_arguments)
              (arg_port default_arguments) (arg_use_rust default_arguments)
              healthy_world initial) as [[tester|e] s0] eqn:Einit;
    [|vm_compute in Einit; discriminate Einit].
  destruct (run_all_tests tester healthy_world s0) as [[r|e] s1] eqn:Erun.
  - destruct (main_succeeds_when_the_phases_return true default_arguments healthy_world
                tester s0 s1 r Einit Erun (fun _ => eq_refl)) as (H1 & _ & H3).
    rewrite H1, H3. split; reflexivity.
  - exfalso. vm_compute in Einit. injection Einit as <- <-.
    vm_compute in Erun. discriminate Erun.
Defined.

(** X20.  A run without the bindings.  When [from vectra import
    VectraClient] failed, the tester has no client: every one of the eight
    phases prints that it is skipped, nothing is measured or recorded, and
    no request or native call is made.  If the output file can be opened,
    [main] still returns normally, the summary says that no test results
    are available, and the report written is the empty JSON object. *)
Theorem run_without_bindings_reports_nothing
    (args : arguments) (w : world)
    (Hopen : open_for_writing w 0 (arg_output args) = Ok tt) :
  let out := run (main false args) w in
  fst out = Ok tt /\
  results (snd out) = [] /\
  files_written (snd out) = [(arg_output args, "{}")] /\
  filter is_remote (events (snd out)) = [] /\
  length (filter (fun e => match e with
                           | Print [Lit t] => String.eqb t "  Skipped (mock client)"
                           | _ => false
                           end) (events (snd out))) = 8%nat /\
  printed "No test results available." (snd out) = true.
Proof.
  destruct w as [post get_ bindings clock open repr parse schedule].
  destruct args as [host_ port_ use_rust_ output skip]. cbn in Hopen.
  vm_compute. rewrite Hopen. repeat split.
Qed.

Lemma run_without_bindings_reports_nothing_witness :
  open_for_writing offline_world 0 (arg_output default_arguments) = Ok tt /\
  files_written (snd (run (main false default_arguments) offline_world)) =
  [("performance_results.json", "{}")].
Proof.
  split; [reflexivity|].
  apply (run_without_bindings_reports_nothing default_arguments offline_world eq_refl).
Defined.

(** X21.  [save_results] opens the file before it writes.  If the file
    cannot be opened, the exception of [open] leaves [save_results]
    unchanged and nothing is written or printed; otherwise exactly one
    file is written, under the name given, holding the JSON text of the
    results as they are then, and one line is printed.  In both cases the
    results stay as they were. *)
Theorem save_results_writes_one_file_or_raises
    (self : PerformanceTester) (filename : string) (w : world) (s : pstate) :
  let out := save_results self filename w s in
  results (snd out) = results s /\
  match open_for_writing w (tick s) filename with
  | Ok _ =>
      fst out = Ok tt /\
      events_of (save_results self filename) w s =
      [FileWrite filename (Json.dumps (float_repr w) (PDict (results s)));
       Print [Lit (nl ++ "💾 Results saved to "); Fmt (PStr filename)]]
  | Raise e =>
      fst out = Raise e /\ events (snd out) = events s
  end.
Proof.
  cbv zeta. unfold events_of, save_results, bind, ask, emit, print.
  destruct (open_for_writing w (tick s) filename) as [[]|e]; cbn [fst snd results events].
  - split; [reflexivity|]. split; [reflexivity|].
    unfold emit. cbn [fst snd events]. rewrite <- app_assoc. apply skipn_length_app.
  - repeat split.
Qed.

(** ** The report, read back *)

Lemma distinct_NoDup (l : list string) : distinct l = true <-> NoDup l.
Proof.
  induction l as [|k l IH]; simpl.
  - split; [constructor|reflexivity].
  - rewrite andb_true_iff, negb_true_iff, IH. split.
    + intros (Hk & Hl). constructor; [|exact Hl]. intros Hin.
      assert (existsb (String.eqb k) l = true); [|congruence].
      apply existsb_exists. exists k. split; [exact Hin|apply String.eqb_refl].
    + intros H. inversion H as [|? ? Hk Hl]; subst. split; [|exact Hl].
      destruct (existsb (String.eqb k) l) eqn:E; [|reflexivity].
      apply existsb_exists in E. destruct E as (k' & Hin & E).
      apply String.eqb_eq in E. subst. contradiction.
Qed.

(** What the decoder builds is the value that was written: only the
    fraction that stands for a float may differ. *)
Lemma as_read_same (repr : Q -> string) (parse : string -> option Q) (v : pyval) :
  serializable repr parse v -> same_value v (as_read repr parse v) = true.
Proof.
  induction v as [|b|z|q|t|l IH|d IH] using pyval_nested_ind; intros Hser;
    cbn [as_read same_value].
  - reflexivity.
  - now destruct b.
  - apply Z.eqb_refl.
  - inversion Hser as [| | | |? Hq| |]; subst.
    destruct (float_reads_back_parts repr parse q Hq) as (_ & q' & -> & E).
    cbn [same_value]. apply Qeq_bool_iff. symmetry. exact E.
  - apply String.eqb_refl.
  - inversion Hser as [| | | | |? Hl|]; subst. clear Hser.
    induction IH as [|x l Hx _ IHl]; [reflexivity|].
    inversion Hl as [|? ? Sx Sl]; subst. cbn [map all2].
    rewrite (Hx Sx). apply IHl, Sl.
  - inversion Hser as [| | | | | |? _ Hd]; subst. clear Hser.
    induction IH as [|kv d Hx _ IHd]; [reflexivity|].
    inversion Hd as [|? ? Sx Sd]; subst. cbn [map all2 fst snd].
    rewrite String.eqb_refl, (Hx Sx). apply IHd, Sd.
Qed.

Lemma as_read_keys (repr : Q -> string) (parse : string -> option Q) (d : py_dict) :
  dict_keys (map (fun kv => (fst kv, as_read repr parse (snd kv))) d) = dict_keys d.
Proof. unfold dict_keys. rewrite map_map. reflexivity. Qed.

(** A result set whose floats read back is serializable. *)
Lemma result_set_serializable (repr : Q -> string) (parse : string -> option Q)
    (rs : py_dict) :
  result_set rs = true ->
  forallb (float_reads_back repr parse) (floats (PDict rs)) = true ->
  serializable repr parse (PDict rs).
Proof.
  unfold result_set. intros H Hf. apply andb_prop in H. destruct H as (Hd & Hflat).
  rewrite forallb_forall in Hf, Hflat. cbn [floats] in Hf.
  constructor; [apply distinct_NoDup, Hd|].
  apply Forall_forall. intros [name v] Hin. cbn [snd].
  pose proof (Hflat _ Hin) as Hv. cbn [snd] in Hv.
  destruct v as [| | | | | |fields]; try discriminate Hv.
  unfold flat_record in Hv. apply andb_prop in Hv. destruct Hv as (Hk & Hs).
  rewrite forallb_forall in Hs.
  constructor; [apply distinct_NoDup, Hk|].
  apply Forall_forall. intros [k x] Hx. cbn [snd].
  pose proof (Hs _ Hx) as Hsc. cbn [snd] in Hsc.
  destruct x; try discriminate Hsc; constructor.
  apply Hf. apply in_flat_map. exists (name, PDict fields). split; [exact Hin|].
  cbn [snd floats]. apply in_flat_map. exists (k, PFloat q). split; [exact Hx|].
  now left.
Qed.

Lemma run_all_tests_distinct (self : PerformanceTester) :
  preserves distinct_names (run_all_tests self).
Proof.
  apply preserves_run_all_tests; unfold distinct_names; simpl; auto.
  intros s name value. apply dict_set_distinct.
Qed.

(** A run of the phases leaves a result set when it started with one. *)
Lemma run_holds_a_result_set (self : PerformanceTester) (w : world) (s : pstate) :
  result_set (results s) = true ->
  result_set (results (snd (run_all_tests self w s))) = true.
Proof.
  unfold result_set. intros H. apply andb_prop in H. destruct H as (Hd & Hf).
  apply andb_true_intro. split.
  - apply distinct_NoDup. apply (run_all_tests_distinct self w s).
    apply distinct_NoDup, Hd.
  - apply forallb_forall. intros kv Hkv.
    destruct (run_all_tests_records self w s kv Hkv) as [H'|H'].
    + rewrite forallb_forall in Hf. apply Hf, H'.
    + unfold well_formed in H'. apply andb_prop in H'. destruct H' as (_ & H').
      exact H'.
Qed.

(** C8.  The result sets that the harness holds, and their report.  A new
    tester holds the empty result set, and a run of the phases leaves one
    result set for another: distinct names, each with a dictionary of
    numbers and strings under distinct field names.  For such a result
    set, when the text of each of its floats reads back as the same number
    and the file can be opened, [save_results] writes the [json.dump] of the
    result set, and [json.load] of that text gives a dictionary with the
    same names in the same order, each with the same fields and the same
    values. *)
Theorem saved_report_loads_back
    (self : PerformanceTester) (filename : string) (w : world) (s : pstate)
    (Hheld : result_set (results s) = true) :
  (forallb (float_reads_back (float_repr w) (float_of_string w))
     (floats (PDict (results s))) = true ->
   open_for_writing w (tick s) filename = Ok tt ->
   exists report loaded,
     fst (save_results self filename w s) = Ok tt /\
     files_written (snd (save_results self filename w s))
     = (files_written s ++ [(filename, report)])%list /\
     loads (float_of_string w) report = Some (PDict loaded) /\
     dict_keys loaded = dict_keys (results s) /\
     same_value (PDict (results s)) (PDict loaded) = true) /\
  result_set (results (snd (run_all_tests self w s))) = true /\
  (forall imported host_ port_ use_rust_ w' s',
     result_set
       (results (snd (PerformanceTester_init imported host_ port_ use_rust_ w' s')))
     = true).
Proof.
  split; [|split].
  - intros Hfloats Hopen.
    pose proof (result_set_serializable _ _ _ Hheld Hfloats) as Hser.
    exists (dumps (float_repr w) (PDict (results s))).
    exists (map (fun kv => (fst kv, as_read (float_repr w) (float_of_string w) (snd kv)))
              (results s)).
    unfold save_results, bind, ask, emit, print. simpl. rewrite Hopen. simpl.
    split; [reflexivity|]. split.
    + unfold files_written. simpl. rewrite !flat_map_app. simpl.
      now rewrite app_nil_r.
    + split; [apply (loads_dumps _ _ _ Hser)|].
      split; [apply as_read_keys|].
      apply (as_read_same _ _ _ Hser).
  - apply run_holds_a_result_set, Hheld.
  - intros imported host_ port_ use_rust_ w' s'.
    destruct (PerformanceTester_init_fresh imported host_ port_ use_rust_ w' s')
      as (-> & _).
    reflexivity.
Qed.

Lemma saved_report_loads_back_witness :
  result_set (results offline_run) = true /\
  exists report loaded,
    files_written
      (snd (save_results default_tester "performance_results.json" offline_world
              offline_run))
    = (files_written offline_run ++ [("performance_results.json", report)])%list /\
    loads sample_float_of_string report = Some (PDict loaded) /\
    dict_keys loaded =
    ["table_creation"; "concurrent_5"; "concurrent_10"; "concurrent_20";
     "memory_usage"; "stress_rapid_operations"] /\
    same_value (PDict (results offline_run)) (PDict loaded) = true.
Proof.
  assert (Hheld : result_set (results offline_run) = true) by (vm_compute; reflexivity).
  split; [exact Hheld|].
  destruct (saved_report_loads_back default_tester "performance_results.json"
              offline_world offline_run Hheld) as (Hround & _).
  assert (Hfloats : forallb (float_reads_back (float_repr offline_world)
                               (float_of_string offline_world))
                      (floats (PDict (results offline_run))) = true)
    by (vm_compute; reflexivity).
  assert (Hopen : open_for_writing offline_world (tick offline_run)
                    "performance_results.json" = Ok tt) by reflexivity.
  destruct (Hround Hfloats Hopen)
    as (report & loaded & _ & Hfile & Hload & Hkeys & Hsame).
  exists report, loaded. split; [exact Hfile|]. split; [exact Hload|].
  split; [|exact Hsame]. rewrite Hkeys. vm_compute. reflexivity.
Defined.

(** ** The query and the search cases *)

Lemma execute_query_untouched (c : VectraClient) (sql : string) :
  preserves untouched (execute_query c sql).
Proof.
  apply untouched_of. intros R H1 H2 H3 H4. now apply preserves_execute_query.
Qed.

Lemma vector_search_untouched (c : VectraClient) (query : string) (limit : Z) :
  preserves untouched (vector_search c query limit).
Proof.
  apply untouched_of. intros R H1 H2 H3 H4. now apply preserves_vector_search.
Qed.

(** What a loop of ten measurements leaves: no sample, or between one and
    ten of them; the results and the files as they were. *)
Lemma ten_measurements {A : Type} (op : M A) (message : Z -> exn -> list fpart)
    (w : world) (s : pstate) :
  preserves untouched op ->
  untouched s (snd (for_each (range 10) (fun i => timed op (message i)) [] w s)) /\
  match fst (for_each (range 10) (fun i => timed op (message i)) [] w s) with
  | Ok ts => (length ts <= 10)%nat
  | Raise e => is_Exception e = false
  end.
Proof.
  intros Hop. split.
  - apply (measuring_loop_untouched (range 10) (fun _ => op) message [] (fun _ => Hop)).
  - pose proof (measuring_loop_samples (range 10) (fun _ => op) message w [] s) as H.
    destruct (for_each (range 10) (fun i => timed op (message i)) [] w s)
      as [[ts|e] s1]; [|exact H].
    destruct H as (new & -> & Hlen). exact Hlen.
Qed.

(** A loop of ten measurements that returns made its ten calls, and has one
    sample for each call that returned. *)
Lemma ten_measurements_counted {A : Type} (op : M A) (message : Z -> exn -> list fpart)
    (w : world) (s s1 : pstate) (ts : list Q) :
  for_each (range 10) (fun i => timed op (message i)) [] w s = (Ok ts, s1) ->
  length (calls (range 10) (fun _ => op) message w s) = 10%nat /\
  successful (calls (range 10) (fun _ => op) message w s) = Z.of_nat (length ts) /\
  0 <= Z.of_nat (length ts) <= 10.
Proof.
  intros Hloop.
  destruct (measuring_loop_counts (range 10) (fun _ => op) message w [] s ts s1 Hloop)
    as (Hlen & Hn).
  pose proof (successful_bound (calls (range 10) (fun _ => op) message w s)) as Hb.
  rewrite Hlen in Hb. change (length (range 10)) with 10%nat in Hlen, Hb.
  change (Z.of_nat (length [])) with 0 in Hn. rewrite Z.add_0_l in Hn.
  split; [exact Hlen|]. split; [now rewrite Hn|]. lia.
Qed.

(** X25.  One case of the query phase and one of the search phase.  Each is
    left only by an exception that is not an [Exception], and writes no
    file.  When it returns it has made its ten calls.  It records nothing
    when none of them returned; otherwise it sets exactly one result,
    [query_<i+1>] with the text of the query, or [vector_search_<limit>]
    with the limit, whose [samples] is the number of calls that returned,
    between 1 and 10. *)
Theorem query_and_search_cases_record_their_samples
    (c : VectraClient) (w : world) (s : pstate) :
  (forall (i : Z) (query : string),
     let out := query_case c (i, query) w s in
     let made :=
       calls (range 10) (fun _ => execute_query c query) (query_failed i) w s in
     let n := successful made in
     match fst out with
     | Ok _ =>
         length made = 10%nat /\ 0 <= n <= 10 /\
         (n = 0 -> results (snd out) = results s) /\
         (1 <= n ->
          exists avg,
            results (snd out) =
            dict_set (results s) ("query_" ++ str_of_int (i + 1))
              (PDict [("query", PStr query); ("avg_time_ms", PFloat avg);
                      ("samples", PInt n)]))
     | Raise e => is_Exception e = false /\ results (snd out) = results s
     end /\
     files_written (snd out) = files_written s) /\
  (forall (limit : Z),
     let out := search_case c limit w s in
     let made :=
       calls (range 10) (fun _ => vector_search c "test query" limit) search_failed
         w s in
     let n := successful made in
     match fst out with
     | Ok _ =>
         length made = 10%nat /\ 0 <= n <= 10 /\
         (n = 0 -> results (snd out) = results s) /\
         (1 <= n ->
          exists avg,
            results (snd out) =
            dict_set (results s) ("vector_search_" ++ str_of_int limit)
              (PDict [("limit", PInt limit); ("avg_time_ms", PFloat avg);
                      ("samples", PInt n)]))
     | Raise e => is_Exception e = false /\ results (snd out) = results s
     end /\
     files_written (snd out) = files_written s).
Proof.
  split.
  - intros i query. cbv zeta.
    remember (query_case c (i, query) w s) as out eqn:Hout.
    unfold query_case in Hout. cbv zeta in Hout. cbn [fst snd] in Hout.
    change (fun (j : Z) (times : list Q) =>
              timed (execute_query c query)
                (fun e : exn =>
                   [Lit "  Query "; Fmt (PInt (i + 1)); Lit " execution ";
                    Fmt (PInt (j + 1)); Lit " failed: "; Lit (exn_msg e)]) times)
      with (fun (j : Z) => timed (execute_query c query) (query_failed i j)) in Hout.
    destruct (ten_measurements (execute_query c query) (query_failed i) w s
                (execute_query_untouched c query)) as ((Hr & Hf) & Hn).
    pose proof (ten_measurements_counted (execute_query c query) (query_failed i) w s)
      as Hcount.
    destruct (for_each (range 10)
                (fun j => timed (execute_query c query) (query_failed i j))
                [] w s) as [[ts|e] s1] eqn:Hloop; cbn [fst snd] in Hr, Hf, Hn.
    + erewrite bind_ok in Hout; [|exact Hloop].
      destruct (Hcount s1 ts eq_refl) as (Hlen & -> & Hb). clear Hcount.
      destruct ts as [|t0 ts]; subst out.
      * cbn [ret fst snd]. split; [|exact Hf].
        split; [exact Hlen|]. split; [exact Hb|]. split; [intros _; exact Hr|].
        cbn [length]. lia.
      * unfold bind, record, print, emit. cbn [fst snd results events]. split.
        -- split; [exact Hlen|]. split; [exact Hb|]. split; [cbn [length]; lia|].
           intros _. eexists. rewrite Hr. reflexivity.
        -- rewrite <- Hf. apply (files_written_emit _ (Print _) eq_refl).
    + erewrite bind_raise in Hout; [|exact Hloop]. subst out. cbn [fst snd].
      split; [split; assumption|exact Hf].
  - intros limit. cbv zeta.
    remember (search_case c limit w s) as out eqn:Hout.
    unfold search_case in Hout.
    change (fun (i : Z) (times : list Q) =>
              timed (vector_search c "test query" limit)
                (fun e : exn =>
                   [Lit "  Vector search "; Fmt (PInt (i + 1));
                    Lit " failed: "; Lit (exn_msg e)]) times)
      with (fun (i : Z) => timed (vector_search c "test query" limit) (search_failed i))
      in Hout.
    destruct (ten_measurements (vector_search c "test query" limit) search_failed w s
                (vector_search_untouched c "test query" limit)) as ((Hr & Hf) & Hn).
    pose proof (ten_measurements_counted (vector_search c "test query" limit)
                  search_failed w s) as Hcount.
    destruct (for_each (range 10)
                (fun i => timed (vector_search c "test query" limit) (search_failed i))
                [] w s) as [[ts|e] s1] eqn:Hloop; cbn [fst snd] in Hr, Hf, Hn.
    + erewrite bind_ok in Hout; [|exact Hloop].
      destruct (Hcount s1 ts eq_refl) as (Hlen & -> & Hb). clear Hcount.
      destruct ts as [|t0 ts]; subst out.
      * cbn [ret fst snd]. split; [|exact Hf].
        split; [exact Hlen|]. split; [exact Hb|]. split; [intros _; exact Hr|].
        cbn [length]. lia.
      * unfold bind, record, print, emit. cbn [fst snd results events]. split.
        -- split; [exact Hlen|]. split; [exact Hb|]. split; [cbn [length]; lia|].
           intros _. eexists. rewrite Hr. reflexivity.
        -- rewrite <- Hf. apply (files_written_emit _ (Print _) eq_refl).
    + erewrite bind_raise in Hout; [|exact Hloop]. subst out. cbn [fst snd].
      split; [split; assumption|exact Hf].
Qed.

(* ================================================================== *)
(** * Properties of the command-line tool *)

Lemma returns_only_ret {A : Type} (P : A -> Prop) (a : A) : P a -> returns_only P (ret a).
Proof. intros H w s. exact H. Qed.

Lemma returns_only_bind {A B : Type} (P : B -> Prop) (m : M A) (k : A -> M B) :
  (forall a, returns_only P (k a)) -> returns_only P (bind m k).
Proof.
  intros H w s. unfold bind. destruct (m w s) as [[a|e] s1]; [apply H|exact I].
Qed.

Lemma run_command_exits (env : cli.environment) (client : VectraClient)
    (cmd : cli.command) :
  returns_only command_exit (cli.run_command env client cmd).
Proof.
  destruct cmd; cbn [cli.run_command];
    repeat (apply returns_only_bind; intros ?);
    try (apply returns_only_ret; now left).
  - destruct a; repeat (apply returns_only_bind; intros ?);
      apply returns_only_ret; now left.
  - destruct (cli.json_loads env data).
    + repeat (apply returns_only_bind; intros ?). apply returns_only_ret. now left.
    + apply returns_only_ret. now right.
  - destruct (cli.package_health_check env) as [f|e].
    + repeat (apply returns_only_bind; intros ?). apply returns_only_ret. now left.
    + intros w s. exact I.
Qed.

(** X26.  The exit status of the command-line tool.  [main] lets no
    [Exception] escape: it returns 0 having written nothing to the standard
    error, or it returns 1.  It returns 1 with nothing on the standard error
    only when no command was given (it printed the help); otherwise a
    status of 1 comes with exactly one line on the standard error, which is
    [Error: ] followed by the message of the exception, or the complaint
    [Error: Invalid JSON data]. *)
Theorem cli_main_exit_status
    (env : cli.environment) (args : cli.namespace) (w : world) (s : pstate) :
  match fst (cli.main env args w s) with
  | Ok (code, err) =>
      (code = 0 /\ err = [] /\ cli.ns_command args <> None) \/
      (code = 1 /\ err = [] /\ cli.ns_command args = None) \/
      (code = 1 /\ cli.ns_command args <> None /\
       (err = [[Lit "Error: Invalid JSON data"]] \/
        exists msg, err = [[Lit "Error: "; Lit msg]]))
  | Raise e => is_Exception e = false /\ cli.ns_command args <> None
  end.
Proof.
  unfold cli.main. destruct (cli.ns_command args) as [cmd|].
  - unfold try_except, bind at 1. cbn [VectraClient_init ret].
    pose proof (run_command_exits env
                  (mk_VectraClient (cli.ns_host args) (cli.ns_port args)
                     ("http://" ++ cli.ns_host args ++ ":" ++
                      str_of_int (cli.ns_port args)) false None) cmd w s) as H.
    destruct (cli.run_command env _ cmd w s) as [[[code err]|e] s1]; cbn [fst] in *.
    + destruct H as [[= -> ->]|[= -> ->]].
      * left. repeat split. discriminate.
      * right. right. repeat split; [discriminate|now left].
    + destruct (is_Exception e) eqn:He; cbn [fst ret].
      * right. right. repeat split; [discriminate|]. right. now eexists.
      * split; [exact He|discriminate].
  - cbn. right. left. repeat split.
Qed.

(** X27.  The command [insert] never sends the data.  When the text is
    not JSON, [main] returns 1 with the line [Error: Invalid JSON data] on
    the standard error and does nothing else; when it is, the placeholder
    [insert_data] of the client prints the table and the value, [main]
    prints that the data was inserted and returns 0.  In both cases, and
    whatever the world, no request is made and the world is asked
    nothing. *)
Theorem cli_insert_never_sends_the_data
    (env : cli.environment) (host_ : string) (port_ : Z) (table data : string)
    (w : world) (s : pstate) :
  cli.main env (cli.mk_namespace host_ port_ (Some (cli.CmdInsert table data))) w s =
  match cli.json_loads env data with
  | None => (Ok (1, [[Lit "Error: Invalid JSON data"]]), s)
  | Some value =>
      (Ok (0, []),
       {| tick := tick s;
          events :=
            (events s ++
             [Print [Lit "Inserting data into table '"; Fmt (PStr table); Lit "': ";
                     Fmt value];
              Print [Lit "Data inserted into table '"; Fmt (PStr table);
                     Lit "' successfully"]])%list;
          results := results s |})
  end.
Proof.
  unfold cli.main, try_except, bind at 1. cbn [cli.ns_command VectraClient_init ret].
  cbn [cli.run_command].
  destruct (cli.json_loads env data) as [value|]; [|reflexivity].
  unfold insert_data, embedded, bind, print, emit, ret.
  cbn [use_rust andb fst snd tick events results]. rewrite <- app_assoc. reflexivity.
Qed.

Lemma over_http_state (url : string) (payload : py_dict) (prefix : string)
    (w : world) (s : pstate) :
  snd (over_http url payload prefix w s) =
  after_tick (after_event s (HttpPost url payload 30)).
Proof.
  unfold over_http, try_except, bind, post, emit, ask, call, raise. simpl.
  destruct (requests_post w (tick s) url payload 30) as [resp|e]; simpl.
  - destruct (raise_for_status resp) as [[]|e]; simpl.
    + destruct (json resp) as [d|e]; simpl; [reflexivity|].
      destruct (is_RequestException e); reflexivity.
    + destruct (is_RequestException e); reflexivity.
  - destruct (is_RequestException e); reflexivity.
Qed.

(** X28.  The command [query].  [main] posts the query to
    [http://host:port/query].  When the exchange succeeds it prints the
    body as JSON and returns 0.  When the request library fails it prints
    nothing, writes [Error: Failed to execute query: ] followed by the
    cause to the standard error, and returns 1; any other [Exception] is
    reported with its own message. *)
Theorem cli_query_prints_the_body_or_reports_the_failure
    (env : cli.environment) (host_ : string) (port_ : Z) (sql : string)
    (w : world) (s : pstate) :
  let args := cli.mk_namespace host_ port_ (Some (cli.CmdQuery sql)) in
  let url := ("http://" ++ host_ ++ ":" ++ str_of_int port_) ++ "/query" in
  let request := HttpPost url [("query", PStr sql)] 30 in
  match exchange (requests_post w (tick s) url [("query", PStr sql)] 30) with
  | Ok body =>
      fst (cli.main env args w s) = Ok (0, []) /\
      events_of (cli.main env args) w s =
      [request; Print [Lit (Json.dumps (float_repr w) body)]]
  | Raise cause =>
      events_of (cli.main env args) w s = [request] /\
      (is_RequestException cause = true ->
       fst (cli.main env args w s) =
       Ok (1, [[Lit "Error: "; Lit ("Failed to execute query: " ++ exn_msg cause)]])) /\
      (is_RequestException cause = false -> is_Exception cause = true ->
       fst (cli.main env args w s) = Ok (1, [[Lit "Error: "; Lit (exn_msg cause)]])) /\
      (is_Exception cause = false -> fst (cli.main env args w s) = Raise cause)
  end.
Proof.
  cbv zeta. unfold events_of, cli.main, try_except, bind at 1 3 5 7 9 11.
  cbn [cli.ns_command cli.ns_host cli.ns_port VectraClient_init ret cli.run_command].
  set (c := mk_VectraClient host_ port_ ("http://" ++ host_ ++ ":" ++ str_of_int port_)
              false None).
  unfold bind. rewrite (execute_query_http c sql eq_refl).
  pose proof (over_http_outcome (base_url c ++ "/query") [("query", PStr sql)]
                "Failed to execute query: " w s) as Hout.
  pose proof (over_http_state (base_url c ++ "/query") [("query", PStr sql)]
                "Failed to execute query: " w s) as Hst.
  cbn [base_url c] in Hout, Hst |- *.
  destruct (over_http _ _ _ w s) as [r s1]. cbn [fst snd] in Hout, Hst. subst s1 r.
  destruct (exchange _) as [body|cause].
  - split; [reflexivity|]. unfold cli.print_json, print, emit, after_tick, after_event.
    cbn [fst snd events tick results]. rewrite <- app_assoc. apply skipn_length_app.
  - assert (Hcases : forall e, is_RequestException e = true -> is_Exception e = true).
    { intros [[] m]; cbv; intros H; first [reflexivity|discriminate H]. }
    destruct (is_RequestException cause) eqn:Hreq.
    + cbn [is_Exception exn_cls fst snd ret]. split; [apply skipn_length_app|].
      split; [reflexivity|]. split; [discriminate|].
      intros H. rewrite (Hcases cause Hreq) in H. discriminate H.
    + destruct (is_Exception cause) eqn:Hexc; cbn [fst snd ret];
        (split; [apply skipn_length_app|]);
        (split; [discriminate|]); split; try reflexivity; try discriminate.
Qed.

(** X29.  The command [health] does not use the client.  It imports
    [health_check] from the package: without the native bindings the import
    fails, and [main] returns 1 with [Error: ] and the message of the
    import error on the standard error, having done nothing else.  With or
    without them, no HTTP request is made: the health endpoint of the
    server is never asked. *)
Theorem cli_health_never_asks_the_server
    (env : cli.environment) (host_ : string) (port_ : Z) (w : world) (s : pstate) :
  let args := cli.mk_namespace host_ port_ (Some cli.CmdHealth) in
  filter is_http (events_of (cli.main env args) w s) = [] /\
  match cli.package_health_check env with
  | Raise e =>
      is_Exception e = true ->
      cli.main env args w s = (Ok (1, [[Lit "Error: "; Lit (exn_msg e)]]), s)
  | Ok _ => True
  end.
Proof.
  cbv zeta. unfold events_of, cli.main, try_except, bind at 1 2.
  cbn [cli.ns_command VectraClient_init ret cli.run_command].
  destruct (cli.package_health_check env) as [f|e].
  - unfold bind, ask, print, cli.print_json, emit, ret. cbn [fst snd tick events].
    split; [|exact I].
    destruct (f (tick s)) as [health|e]; cbn [fst snd events].
    + unfold print, emit. cbn [fst snd events].
      rewrite <- app_assoc, skipn_length_app. reflexivity.
    + destruct (is_Exception e); cbn [snd events ret];
        rewrite <- (app_nil_r (events s)) at 2; rewrite skipn_length_app; reflexivity.
  - unfold reraise. split.
    + destruct (is_Exception e); cbn [snd events ret];
        rewrite <- (app_nil_r (events s)) at 2; rewrite skipn_length_app; reflexivity.
    + intros He. unfold bind, ret. rewrite He. reflexivity.
Qed.

Lemma cli_health_never_asks_the_server_witness :
  fst (cli.main (sample_environment [])
         (cli.mk_namespace "127.0.0.1" 8080 (Some cli.CmdHealth)) healthy_world
         initial) =
  Ok (1, [[Lit "Error: "; Lit "cannot import name 'health_check' from 'vectra'"]]).
Proof.
  destruct (cli_health_never_asks_the_server (sample_environment []) "127.0.0.1" 8080
              healthy_world initial) as (_ & H).
  exact (f_equal fst (H eq_refl)).
Defined.

(** ** The interactive mode *)

(** What one iteration of the interactive loop does: it makes no native
    call and at most one request, the query for its line when the line is
    sent as a query; and an exception leaves it only if it is not a
    [KeyboardInterrupt], and either [input()] raised it or it is not an
    [Exception]. *)
Lemma interactive_step_events (c : VectraClient) (line : result string) (w : world)
    (s : pstate) :
  embedded c = false ->
  exists x,
    events (snd (cli.interactive_step c line w s)) = (events s ++ x)%list /\
    filter is_native x = [] /\
    (filter is_http x = [] \/
     exists raw, line = Ok raw /\ sent_as_query raw = true /\
                 filter is_http x = [sql_request c raw]) /\
    match fst (cli.interactive_step c line w s) with
    | Ok _ => True
    | Raise e => is_KeyboardInterrupt e = false /\ (line = Raise e \/ is_Exception e = false)
    end.
Proof.
  intros Hnet.
  assert (Hquiet : forall (p : result cli.flow * pstate) (s' : pstate)
                          (r : result cli.flow) (x : list event),
            p = (r, s') ->
            events s' = (events s ++ x)%list ->
            filter is_native x = [] ->
            (filter is_http x = [] \/
             exists raw, line = Ok raw /\ sent_as_query raw = true /\
                         filter is_http x = [sql_request c raw]) ->
            match r with
            | Ok _ => True
            | Raise e => is_KeyboardInterrupt e = false /\
                         (line = Raise e \/ is_Exception e = false)
            end ->
            exists x,
              events (snd p) = (events s ++ x)%list /\
              filter is_native x = [] /\
              (filter is_http x = [] \/
               exists raw, line = Ok raw /\ sent_as_query raw = true /\
                           filter is_http x = [sql_request c raw]) /\
              match fst p with
              | Ok _ => True
              | Raise e => is_KeyboardInterrupt e = false /\
                           (line = Raise e \/ is_Exception e = false)
              end).
  { intros p s' r x -> H1 H2 H3 H4. exists x. repeat split; auto. }
  unfold cli.interactive_step, try_except, bind, cli.input. cbv beta zeta.
  destruct line as [raw|e].
  - destruct (String.eqb (cli.strip raw) "").
    { eapply (Hquiet _ _ _ []); [cbn; reflexivity|cbn; now rewrite app_nil_r|..]; cbn; auto. }
    destruct (String.eqb (cli.strip raw) "quit" || String.eqb (cli.strip raw) "exit").
    { eapply (Hquiet _ _ _ []); [cbn; reflexivity|cbn; now rewrite app_nil_r|..]; cbn; auto. }
    destruct (String.eqb (cli.strip raw) "help").
    { eapply (Hquiet _ _ _
                [Print [Lit "Available commands:"];
                 Print [Lit "  SQL queries: SELECT, CREATE, INSERT, UPDATE, DELETE"];
                 Print [Lit "  help        - Show this help"];
                 Print [Lit "  quit/exit   - Exit interactive mode"];
                 Print []]);
        [cbn; reflexivity|cbn; now rewrite <- !app_assoc|..]; cbn; auto. }
    destruct (cli.starts_with_sql (cli.lower (cli.strip raw))) eqn:Hsql.
    + rewrite (execute_query_http c (cli.strip raw) Hnet).
      pose proof (over_http_state (base_url c ++ "/query")
                    [("query", PStr (cli.strip raw))] "Failed to execute query: " w
                    {| tick := S (tick s); events := events s; results := results s |})
        as Hst.
      destruct (over_http _ _ _ w _) as [r s1]. cbn [fst snd] in Hst. subst s1.
      assert (Hreq : exists raw0, Ok raw = Ok raw0 /\ sent_as_query raw0 = true /\
                       [sql_request c raw] = [sql_request c raw0])
        by (exists raw; repeat split; exact Hsql).
      destruct r as [body|e]; [|destruct (is_Exception e) eqn:He;
                                 [|destruct (is_KeyboardInterrupt e) eqn:Hk]].
      * eapply (Hquiet _ _ _ [sql_request c raw; _]);
          [cbn; reflexivity|cbn; now rewrite <- !app_assoc|reflexivity|now right|exact I].
      * eapply (Hquiet _ _ _ [sql_request c raw; _]);
          [cbn; reflexivity|cbn; now rewrite <- !app_assoc|reflexivity|now right|exact I].
      * eapply (Hquiet _ _ _ [sql_request c raw; _]);
          [cbn; reflexivity|cbn; now rewrite <- !app_assoc|reflexivity|now right|exact I].
      * eapply (Hquiet _ _ _ [sql_request c raw]);
          [cbn; reflexivity|cbn; reflexivity|reflexivity|now right|].
        split; [exact Hk|now right].
    + eapply (Hquiet _ _ _
                [Print [Lit "Unknown command. Type 'help' for available commands."]]);
        [cbn; reflexivity|cbn; reflexivity|..]; cbn; auto.
  - destruct (is_KeyboardInterrupt e) eqn:Hk.
    + eapply (Hquiet _ _ _ [Print [Lit (Json.newline ++ "Exiting...")]]);
        [cbn; reflexivity|cbn; reflexivity|..]; cbn; auto.
    + eapply (Hquiet _ _ _ []); [cbn; reflexivity|cbn; now rewrite app_nil_r|..]; cbn; auto.
Qed.

Lemma requests_from_app (c : VectraClient) (line : result string)
    (rest : list (result string)) (x y : list event) :
  (filter is_http x = [] \/
   exists raw, line = Ok raw /\ sent_as_query raw = true /\
               filter is_http x = [sql_request c raw]) ->
  requests_from c rest y ->
  requests_from c (line :: rest) (x ++ y).
Proof.
  intros Hx Hy. unfold requests_from in *. rewrite filter_app. apply Forall_app. split.
  - destruct Hx as [->|(raw & -> & Hs & ->)]; constructor; [|constructor].
    exists raw. split; [now left|]. split; [exact Hs|reflexivity].
  - eapply Forall_impl; [|exact Hy]. intros e (raw & Hin & Hs & ->).
    exists raw. split; [now right|]. split; [exact Hs|reflexivity].
Qed.

Lemma interactive_loop_events (c : VectraClient) (w : world) (lines : list (result string)) :
  embedded c = false ->
  forall s,
  exists x,
    events (snd (cli.interactive_loop c lines w s)) = (events s ++ x)%list /\
    filter is_native x = [] /\
    requests_from c lines x /\
    match fst (cli.interactive_loop c lines w s) with
    | Ok _ => True
    | Raise e => is_KeyboardInterrupt e = false /\
                 (In (Raise e) lines \/ is_Exception e = false)
    end.
Proof.
  intros Hnet. induction lines as [|line rest IH]; intros s.
  - exists []. cbn. rewrite app_nil_r. repeat split. constructor.
  - destruct (interactive_step_events c line w s Hnet) as (x & Hx & Hn & Hh & Hr).
    cbn [cli.interactive_loop]. unfold bind.
    destruct (cli.interactive_step c line w s) as [[[]|e] s1]; cbn [fst snd] in *.
    + destruct (IH s1) as (y & Hy & Hny & Hhy & Hry).
      exists (x ++ y)%list. rewrite Hy, Hx, app_assoc.
      split; [reflexivity|]. split; [now rewrite filter_app, Hn, Hny|].
      split; [apply requests_from_app; assumption|].
      destruct (fst (cli.interactive_loop c rest w s1)) as [u|e]; [exact I|].
      destruct Hry as (Hk & [Hin|He]); (split; [exact Hk|]); [left; now right|now right].
    + exists x. split; [exact Hx|]. split; [exact Hn|].
      split; [|exact I]. rewrite <- (app_nil_r x). apply requests_from_app; [exact Hh|].
      constructor.
    + exists x. split; [exact Hx|]. split; [exact Hn|].
      split; [rewrite <- (app_nil_r x); apply requests_from_app; [exact Hh|constructor]|].
      destruct Hr as (Hk & [->|He]); (split; [exact Hk|]); [left; now left|now right].
Qed.

Lemma interactive_loop_stops_at_quit (c : VectraClient) (q : string)
    (rest : list (result string)) :
  cli.strip q = "quit" \/ cli.strip q = "exit" ->
  forall (before : list (result string)) (w : world) (s : pstate),
    cli.interactive_loop c (before ++ Ok q :: rest) w s =
    cli.interactive_loop c (before ++ [Ok q]) w s.
Proof.
  intros Hq. induction before as [|line before IH]; intros w s.
  - cbn [app cli.interactive_loop]. unfold bind, cli.interactive_step, try_except,
      bind, cli.input. cbv zeta.
    destruct Hq as [-> | ->]; reflexivity.
  - cbn [app cli.interactive_loop]. unfold bind.
    destruct (cli.interactive_step c line w s) as [[[]|e] s1]; [apply IH| |];
      reflexivity.
Qed.

(** X30.  The interactive mode on the network transport, for every input
    and every world.  It makes no native call, and every request it makes
    is the POST to [base_url/query] of a line that was typed and that,
    without the white space around it, begins with [select], [create],
    [insert], [update] or [delete] in any case; the query sent is the line
    without that white space.  A query that fails with an [Exception] does
    not end the loop, and a [KeyboardInterrupt] ends it normally: an
    exception leaves the loop only if [input()] raised it or it is not an
    [Exception].  At [quit] or [exit] the loop ends: what was typed after
    it is not read. *)
Theorem interactive_mode_sends_only_sql_lines
    (c : VectraClient) (lines : list (result string)) (w : world) (s : pstate)
    (Hnet : embedded c = false) :
  requests_from c lines (events_of (cli.interactive_loop c lines) w s) /\
  filter is_native (events_of (cli.interactive_loop c lines) w s) = [] /\
  match fst (cli.interactive_loop c lines w s) with
  | Ok _ => True
  | Raise e => is_KeyboardInterrupt e = false /\
               (In (Raise e) lines \/ is_Exception e = false)
  end /\
  (forall before q rest,
     lines = (before ++ Ok q :: rest)%list ->
     cli.strip q = "quit" \/ cli.strip q = "exit" ->
     cli.interactive_loop c lines w s = cli.interactive_loop c (before ++ [Ok q]) w s).
Proof.
  destruct (interactive_loop_events c w lines Hnet s) as (x & Hx & Hn & Hh & Hr).
  unfold events_of. rewrite Hx, skipn_length_app.
  split; [exact Hh|]. split; [exact Hn|]. split; [exact Hr|].
  intros before q rest -> Hq. apply (interactive_loop_stops_at_quit c q rest Hq).
Qed.

Lemma interactive_mode_sends_only_sql_lines_witness :
  embedded http_client = false /\
  events_of (cli.interactive_loop http_client
               [Ok "  SELECT 1 "; Ok "drop table t"; Ok "quit"; Ok "select 2"])
    offline_world initial =
  [HttpPost "http://localhost:8080/query" [("query", PStr "SELECT 1")] 30;
   Print [Lit "Error: "; Lit "Failed to execute query: Connection refused"];
   Print [Lit "Unknown command. Type 'help' for available commands."]] /\
  requests_from http_client
    [Ok "  SELECT 1 "; Ok "drop table t"; Ok "quit"; Ok "select 2"]
    (events_of (cli.interactive_loop http_client
                  [Ok "  SELECT 1 "; Ok "drop table t"; Ok "quit"; Ok "select 2"])
       offline_world initial).
Proof.
  split; [reflexivity|]. split; [vm_compute; reflexivity|].
  apply (interactive_mode_sends_only_sql_lines http_client
           [Ok "  SELECT 1 "; Ok "drop table t"; Ok "quit"; Ok "select 2"]
           offline_world initial eq_refl).
Defined.
